(** * Read-only storage synchronisation of CLIProxyAPI: a shallow embedding.

    The development follows the Go sources file by file:

    - [config]: the side file [read_only_storage.json]
      ([LoadReadOnlyStorageConfig], [PersistReadOnlyState]), its watcher
      ([StartReadOnlyStorageWatcher], [getDirFromPath]) and the two
      atomic fields of [config.Config];
    - [store]: the Git scheduler ([Start], [Stop], [run], [sync],
      [pullChanges], [UpdateConfig], [HasPendingLocalChanges]);
    - [store_v1]: the older copy of the scheduler kept at
      [internal/store/scheduler.go];
    - [management]: the management handler ([Middleware],
      [PutStorageReadOnly], [PutStorageSyncInterval] and their helpers).

    Go values are modelled as the code has them: [int] and
    [time.Duration] are 64-bit integers with wrap-around written out,
    pointers to [config.Config] are addresses into a heap shared by the
    handler and the scheduler, maps are [gmap]s, and every effect (file
    system, Git working copy, channels, log lines) lives in one [World]
    record that the functions thread through a small state-and-panic
    monad. *)

From Stdlib Require Import ZArith QArith Qround Qabs Qpower String Ascii List Lia Bool.
From Stdlib Require Qcanon.
From Stdlib Require Import DecimalString DecimalZ.
From stdpp Require Import base option list gmap strings.

Local Open Scope string_scope.
Local Open Scope Z_scope.

#[local] Set Warnings "-register-all".

(** ** Machine integers *)

Definition min_int64 : Z := - 2 ^ 63.
Definition max_int64 : Z := 2 ^ 63 - 1.

Definition in_int64 (z : Z) : bool := (min_int64 <=? z) && (z <=? max_int64).

(** Two's complement wrap-around of a 64-bit signed result. *)
Definition wrap64 (z : Z) : Z := (z + 2 ^ 63) mod 2 ^ 64 - 2 ^ 63.

(** [%d] of an integer. *)
Definition itoa (z : Z) : string := NilZero.string_of_int (Z.to_int z).

(** The double-quote character, for the JSON texts below. *)
Definition dq : string := String (ascii_of_nat 34) EmptyString.

(** ** Errors

    Go [error] values. [Errorf] is [fmt.Errorf] without a wrapped cause,
    [Wrap msg e] is [fmt.Errorf(msg + ": %w", e)]; the remaining
    constructors are the errors handed back by the operating system and
    by the libraries the code calls. *)
Inductive error :=
| Errorf (msg : string)
| Wrap (msg : string) (cause : error)
| ErrNotExist
| ErrIO
| ErrJSON
| ErrGit (what : string)
| NoErrAlreadyUpToDate
| ErrUnstagedChanges.

Definition error_eqb_uptodate (e : error) : bool :=
  match e with NoErrAlreadyUpToDate => true | _ => false end.

(** ** The file system, as far as [os.ReadFile] and [os.WriteFile] see it *)

Record FS := {
  files : gmap string string;
  unreadable : gset string;
  unwritable : gset string
}.

Definition ReadFile (path : string) (fs : FS) : string + error :=
  if decide (path ∈ unreadable fs) then inr ErrIO
  else match files fs !! path with
       | Some data => inl data
       | None => inr ErrNotExist
       end.

Definition IsNotExist (e : error) : bool :=
  match e with ErrNotExist => true | _ => false end.

Definition WriteFile (path data : string) (fs : FS) : FS + error :=
  if decide (path ∈ unwritable fs) then inr ErrIO
  else inl {| files := <[path := data]> (files fs);
              unreadable := unreadable fs;
              unwritable := unwritable fs |}.

(** [os.PathSeparator]: the slash on Unix, the backslash on Windows. *)
Class OS := {
  PathSeparator : ascii
}.

Definition unix : OS := {| PathSeparator := "/"%char |}.

Definition windows : OS := {| PathSeparator := "\"%char |}.

(** ** Package config *)

Module config.

(** [ReadOnlyStorageConfig], the document of the side file. *)
Record ReadOnlyStorageConfig := {
  ReadOnly : bool;
  SyncIntervalMinutes_ : Z
}.

(** [encoding/json] for [ReadOnlyStorageConfig]: [Unmarshal] into a
    zero value of the struct ([None] is a decoding error) and
    [MarshalIndent(v, "", "  ")], which cannot fail on a struct of a
    bool and an int. *)
Class JSON := {
  Unmarshal : string -> option ReadOnlyStorageConfig;
  MarshalIndent : ReadOnlyStorageConfig -> string
}.

(** The interface [ReadOnlyStorageSetter]. *)
Class ReadOnlyStorageSetter (S : Type) := {
  SetReadOnlyStorage : bool -> S -> S;
  SetSyncIntervalMinutes : Z -> S -> S
}.

Record RemoteManagement := {
  AllowRemote : bool;
  SecretKey : string
}.

(** Modelled from the spec: [config.Config] and its accessors live in
    [internal/config/config.go], which is not among the sources. The
    record keeps the fields this subsystem reads; the two storage
    fields are the atomics of section 6 of the spec (and of
    [changes/read-only-storage-summary.md]): [readOnlyStorage] an
    [atomic.Bool], [syncIntervalMinutes] an [atomic.Int64]. *)
Record Config := {
  RemoteManagement_ : RemoteManagement;
  readOnlyStorage : bool;
  syncIntervalMinutes : Z
}.

Definition IsReadOnlyStorage (c : Config) : bool := readOnlyStorage c.

Definition SyncIntervalMinutes (c : Config) : Z := syncIntervalMinutes c.

#[export] Instance Config_setter : ReadOnlyStorageSetter Config := {
  SetReadOnlyStorage value c :=
    {| RemoteManagement_ := RemoteManagement_ c;
       readOnlyStorage := value;
       syncIntervalMinutes := syncIntervalMinutes c |};
  SetSyncIntervalMinutes value c :=
    {| RemoteManagement_ := RemoteManagement_ c;
       readOnlyStorage := readOnlyStorage c;
       syncIntervalMinutes := value |}
}.

Section WithJSON.
Context {json : JSON}.
Context {S : Type} {setter_S : ReadOnlyStorageSetter S}.

(** [LoadReadOnlyStorageConfig(setter, path)]: the setter after the
    call and the returned error. *)
Definition LoadReadOnlyStorageConfig (setter : S) (path : string) (fs : FS)
  : S * option error :=
  match ReadFile path fs with
  | inr err =>
      if IsNotExist err then (SetReadOnlyStorage false setter, None)
      else (setter, Some (Wrap "failed to read read-only storage config file" err))
  | inl data =>
      match Unmarshal data with
      | None =>
          (SetReadOnlyStorage false setter,
           Some (Wrap "failed to parse read-only storage config" ErrJSON))
      | Some readOnlyConfig =>
          let setter := SetReadOnlyStorage (ReadOnly readOnlyConfig) setter in
          let setter :=
            if 0 <? SyncIntervalMinutes_ readOnlyConfig
            then SetSyncIntervalMinutes (SyncIntervalMinutes_ readOnlyConfig) setter
            else setter in
          (setter, None)
      end
  end.
End WithJSON.

(** The document substituted for a missing side file. *)
Definition default_document : string :=
  "{" +:+ dq +:+ "read_only" +:+ dq +:+ ": false}".

Section Persist.
Context {json : JSON}.

(** [PersistReadOnlyState(readOnly, syncIntervalMinutes, path)]. *)
Definition PersistReadOnlyState (readOnly : bool) (syncIntervalMinutes : Z)
    (path : string) (fs : FS) : FS * option error :=
  match
    match ReadFile path fs with
    | inr err =>
        if negb (IsNotExist err)
        then inr (Wrap "failed to read read-only storage config file" err)
        else inl default_document
    | inl data => inl data
    end
  with
  | inr e => (fs, Some e)
  | inl data =>
      match Unmarshal data with
      | None => (fs, Some (Wrap "failed to parse read-only storage config" ErrJSON))
      | Some _ =>
          let readOnlyConfig :=
            {| ReadOnly := readOnly; SyncIntervalMinutes_ := syncIntervalMinutes |} in
          let updatedData := MarshalIndent readOnlyConfig in
          match WriteFile path updatedData fs with
          | inr err =>
              (fs, Some (Wrap "failed to write updated read-only storage config" err))
          | inl fs' => (fs', None)
          end
      end
  end.
End Persist.

(** *** The watcher of the side file

    [fsnotify] is a library: [Fsnotify] holds what it answers when the
    watcher is created and when a directory is added, and the goroutine
    started by [StartReadOnlyStorageWatcher] is run over the messages its
    [select] receives. [fsnotify.Op] is a bit mask. *)
Definition fsnotify_Create : Z := 1.
Definition fsnotify_Write : Z := 2.
Definition fsnotify_Remove : Z := 4.
Definition fsnotify_Rename : Z := 8.
Definition fsnotify_Chmod : Z := 16.

(** [op&flag == flag]. *)
Definition has_op (op flag : Z) : bool := Z.land op flag =? flag.

Record Fsnotify := {
  NewWatcher_error : option error;
  Add_error : string -> option error
}.

(** The calls made on the watcher, and the launch of the goroutine. *)
Inductive WatcherCall :=
| NewWatcher
| WatcherAdd (dir : string)
| WatcherClose
| WatcherGo.

(** What one receive of the [select] of the goroutine yields: an event
    with its name and operations, an error, the cancellation of the
    context, or one of the two channels found closed. *)
Inductive WatcherMsg :=
| EventMsg (name : string) (op : Z)
| EventsClosed
| ErrorMsg (err : error)
| ErrorsClosed
| CtxDone.

(** The lines the goroutine prints with [log.Printf]: "Warning: failed
    to reload read-only storage config: %v", "Info: read-only storage
    configuration reloaded from %s", "File watcher error: %v" and
    "Shutting down read-only storage watcher for %s". *)
Inductive WatcherLog :=
| ReloadFailed (err : error)
| Reloaded (path : string)
| WatcherError (err : error)
| ShuttingDown (path : string).

Section Watcher.
Context {os : OS}.

(** The loop of [getDirFromPath], [n] being [i + 1]; the index is always
    within the string. *)
Fixpoint getDirFromPath_loop (path : string) (n : nat) : string :=
  match n with
  | O => "."
  | Datatypes.S i =>
      match String.get i path with
      | Some c =>
          if Ascii.eqb c "/"%char || Ascii.eqb c PathSeparator
          then String.substring 0 i path
          else getDirFromPath_loop path i
      | None => getDirFromPath_loop path i
      end
  end.

Definition getDirFromPath (path : string) : string :=
  getDirFromPath_loop path (String.length path).

(** [StartReadOnlyStorageWatcher]: the returned error and the calls
    made; [WatcherGo] is the goroutine, which [watcher_loop] runs. *)
Definition StartReadOnlyStorageWatcher (lib : Fsnotify) (path : string)
  : option error * list WatcherCall :=
  match NewWatcher_error lib with
  | Some err => (Some (Wrap "failed to create file watcher" err), [NewWatcher])
  | None =>
      let configDir := getDirFromPath path in
      match Add_error lib configDir with
      | Some err =>
          (Some (Wrap "failed to add directory to watcher" err),
           [NewWatcher; WatcherAdd configDir; WatcherClose])
      | None => (None, [NewWatcher; WatcherAdd configDir; WatcherGo])
      end
  end.

Context {json : JSON}.
Context {S : Type} {setter_S : ReadOnlyStorageSetter S}.

(** One round of the [for] loop of the goroutine, the file system being
    [fs] when the message is handled: the setter after the round, the
    lines printed, and whether the goroutine returns (closing the
    watcher, which is deferred). *)
Definition watcher_round (setter : S) (path : string) (fs : FS) (msg : WatcherMsg)
  : S * list WatcherLog * bool :=
  match msg with
  | EventMsg name op =>
      if String.eqb name path
         && (has_op op fsnotify_Write || has_op op fsnotify_Create)
      then
        match LoadReadOnlyStorageConfig setter path fs with
        | (setter, Some err) => (setter, [ReloadFailed err], false)
        | (setter, None) => (setter, [Reloaded path], false)
        end
      else (setter, [], false)
  | EventsClosed => (setter, [], true)
  | ErrorMsg err => (setter, [WatcherError err], false)
  | ErrorsClosed => (setter, [], true)
  | CtxDone => (setter, [ShuttingDown path], true)
  end.

(** The goroutine over the messages it receives, each with the file
    system of its time; [false] says it is still waiting after them. *)
Fixpoint watcher_loop (setter : S) (path : string) (rounds : list (FS * WatcherMsg))
  : S * list WatcherLog * bool :=
  match rounds with
  | [] => (setter, [], false)
  | (fs, msg) :: rounds' =>
      let '(setter, out, returned) := watcher_round setter path fs msg in
      if returned then (setter, out, true)
      else
        let '(setter, out', returned) := watcher_loop setter path rounds' in
        (setter, (out ++ out')%list, returned)
  end.
End Watcher.

End config.

Import (hints) config.

(** ** A reference decoder and encoder for the side file

    [encoding/json] is a library, not part of this repository; the
    functions of [config] take it as the class [config.JSON]. The
    instance below is a small executable reference for it, enough to run
    the functions on the documents the code writes and the documentation
    shows: JSON objects, arrays, strings (with the one-character escapes),
    numbers and literals. Field names match case-insensitively, unknown
    fields are skipped and [null] leaves a field untouched, as
    [json.Unmarshal] does for a struct. *)
Module encoding_json.

Inductive value :=
| Null
| Bool (b : bool)
| Number (lit : string)
| Str (s : string)
| Array (l : list value)
| Object (m : list (string * value)).

Definition dqc : ascii := ascii_of_nat 34.
Definition nl : string := String (ascii_of_nat 10) EmptyString.

Definition is_ws (c : ascii) : bool :=
  let n := nat_of_ascii c in
  (n =? 32)%nat || (n =? 9)%nat || (n =? 10)%nat || (n =? 13)%nat.

Definition is_digit (c : ascii) : bool :=
  let n := nat_of_ascii c in (48 <=? n)%nat && (n <=? 57)%nat.

Fixpoint skip_ws (s : string) : string :=
  match s with
  | String c rest => if is_ws c then skip_ws rest else s
  | EmptyString => s
  end.

(** The character a one-letter escape stands for. *)
Definition unescape (e : ascii) : option ascii :=
  if Ascii.eqb e dqc || Ascii.eqb e "\"%char || Ascii.eqb e "/"%char then Some e
  else if Ascii.eqb e "b"%char then Some (ascii_of_nat 8)
  else if Ascii.eqb e "f"%char then Some (ascii_of_nat 12)
  else if Ascii.eqb e "n"%char then Some (ascii_of_nat 10)
  else if Ascii.eqb e "r"%char then Some (ascii_of_nat 13)
  else if Ascii.eqb e "t"%char then Some (ascii_of_nat 9)
  else None.

Definition hex_digit (c : ascii) : option N :=
  let n := N_of_ascii c in
  if ((48 <=? n) && (n <=? 57))%N then Some (n - 48)%N
  else if ((97 <=? n) && (n <=? 102))%N then Some (n - 87)%N
  else if ((65 <=? n) && (n <=? 70))%N then Some (n - 55)%N
  else None.

(** The four hexadecimal digits of an escape [\uXXXX]. *)
Definition hex4 (a b c d : ascii) : option N :=
  match hex_digit a, hex_digit b, hex_digit c, hex_digit d with
  | Some x, Some y, Some z, Some t => Some (((x * 16 + y) * 16 + z) * 16 + t)%N
  | _, _, _, _ => None
  end.

Definition is_surrogate (r : N) : bool := ((55296 <=? r) && (r <? 57344))%N.

(** [utf16.DecodeRune]: the code point of a surrogate pair, the
    replacement character for anything else. *)
Definition DecodeRune (r1 r2 : N) : N :=
  if ((55296 <=? r1) && (r1 <? 56320) && (56320 <=? r2) && (r2 <? 57344))%N
  then ((r1 - 55296) * 1024 + (r2 - 56320) + 65536)%N
  else 65533%N.

(** [utf8.EncodeRune]. *)
Definition EncodeRune (r : N) : string :=
  let byte (n : N) := ascii_of_N n in
  (if r <? 128 then String (byte r) EmptyString
   else if r <? 2048 then
     String (byte (192 + r / 64)) (String (byte (128 + r mod 64)) EmptyString)
   else if r <? 65536 then
     String (byte (224 + r / 4096))
       (String (byte (128 + (r / 64) mod 64)) (String (byte (128 + r mod 64)) EmptyString))
   else
     String (byte (240 + r / 262144))
       (String (byte (128 + (r / 4096) mod 64))
          (String (byte (128 + (r / 64) mod 64))
             (String (byte (128 + r mod 64)) EmptyString))))%N.

(** The text after an opening quote, up to the closing one, with the
    escapes replaced by what they stand for. *)
Fixpoint scan_string (s : string) : option (string * string) :=
  match s with
  | EmptyString => None
  | String c rest =>
      if Ascii.eqb c dqc then Some (EmptyString, rest)
      else if Ascii.eqb c "\"%char then
        match rest with
        | String "u"%char (String a (String b (String x (String y rest2)))) =>
            match hex4 a b x y with
            | None => None
            | Some r =>
                if is_surrogate r then
                  match rest2 with
                  | String "\"%char
                      (String "u"%char
                         (String a' (String b' (String x' (String y' rest3))))) =>
                      match hex4 a' b' x' y' with
                      | Some r' =>
                          if (DecodeRune r r' =? 65533)%N then
                            match scan_string rest2 with
                            | Some (t, q) => Some (EncodeRune 65533 +:+ t, q)
                            | None => None
                            end
                          else
                            match scan_string rest3 with
                            | Some (t, q) => Some (EncodeRune (DecodeRune r r') +:+ t, q)
                            | None => None
                            end
                      | None => None
                      end
                  | _ =>
                      match scan_string rest2 with
                      | Some (t, q) => Some (EncodeRune 65533 +:+ t, q)
                      | None => None
                      end
                  end
                else
                  match scan_string rest2 with
                  | Some (t, q) => Some (EncodeRune r +:+ t, q)
                  | None => None
                  end
            end
        | String e rest' =>
            match unescape e with
            | Some u =>
                match scan_string rest' with
                | Some (t, r) => Some (String u t, r)
                | None => None
                end
            | None => None
            end
        | EmptyString => None
        end
      else if (nat_of_ascii c <? 32)%nat then None
      else match scan_string rest with
           | Some (t, r) => Some (String c t, r)
           | None => None
           end
  end.

Fixpoint take_digits (s : string) : string * string :=
  match s with
  | String c rest =>
      if is_digit c then let '(d, r) := take_digits rest in (String c d, r)
      else (EmptyString, s)
  | EmptyString => (EmptyString, s)
  end.

Definition no_leading_zero (d : string) : bool :=
  match d with
  | EmptyString => false
  | String c EmptyString => true
  | String c _ => negb (Ascii.eqb c "0"%char)
  end.

(** A JSON number: its literal text and the rest of the input. *)
Definition scan_number (s : string) : option (string * string) :=
  let '(sign, s1) :=
    match s with
    | String "-"%char r => ("-", r)
    | _ => (EmptyString, s)
    end in
  let '(ip, s2) := take_digits s1 in
  if negb (no_leading_zero ip) then None else
  let '(frac, s3) :=
    match s2 with
    | String "."%char r => let '(d, r') := take_digits r in ("." +:+ d, r')
    | _ => (EmptyString, s2)
    end in
  if String.eqb frac "." then None else
  match s3 with
  | String c r =>
      if Ascii.eqb c "e"%char || Ascii.eqb c "E"%char then
        let '(esign, r1) :=
          match r with
          | String "-"%char r' => ("-", r')
          | String "+"%char r' => ("+", r')
          | _ => (EmptyString, r)
          end in
        let '(ed, r2) := take_digits r1 in
        if String.eqb ed EmptyString then None
        else Some (sign +:+ ip +:+ frac +:+ String c (esign +:+ ed), r2)
      else Some (sign +:+ ip +:+ frac, s3)
  | EmptyString => Some (sign +:+ ip +:+ frac, s3)
  end.

Definition expect (lit : string) (v : value) (s : string) : option (value * string) :=
  if String.prefix lit s
  then Some (v, String.substring (String.length lit)
                  (String.length s - String.length lit) s)
  else None.

Fixpoint parse_value (fuel : nat) (s : string) : option (value * string) :=
  match fuel with
  | O => None
  | S fuel =>
      match skip_ws s with
      | EmptyString => None
      | String c rest as s0 =>
          if Ascii.eqb c "{"%char then
            match skip_ws rest with
            | String "}"%char r => Some (Object [], r)
            | r => match parse_members fuel r with
                   | Some (m, r') => Some (Object m, r')
                   | None => None
                   end
            end
          else if Ascii.eqb c "["%char then
            match skip_ws rest with
            | String "]"%char r => Some (Array [], r)
            | r => match parse_elements fuel r with
                   | Some (l, r') => Some (Array l, r')
                   | None => None
                   end
            end
          else if Ascii.eqb c dqc then
            match scan_string rest with
            | Some (t, r) => Some (Str t, r)
            | None => None
            end
          else if Ascii.eqb c "t"%char then expect "true" (Bool true) s0
          else if Ascii.eqb c "f"%char then expect "false" (Bool false) s0
          else if Ascii.eqb c "n"%char then expect "null" Null s0
          else match scan_number s0 with
               | Some (lit, r) => Some (Number lit, r)
               | None => None
               end
      end
  end
with parse_members (fuel : nat) (s : string) : option (list (string * value) * string) :=
  match fuel with
  | O => None
  | S fuel =>
      match skip_ws s with
      | String c rest =>
          if Ascii.eqb c dqc then
            match scan_string rest with
            | Some (k, r1) =>
                match skip_ws r1 with
                | String ":"%char r2 =>
                    match parse_value fuel r2 with
                    | Some (v, r3) =>
                        match skip_ws r3 with
                        | String ","%char r4 =>
                            match parse_members fuel r4 with
                            | Some (m, r5) => Some ((k, v) :: m, r5)
                            | None => None
                            end
                        | String "}"%char r4 => Some ([(k, v)], r4)
                        | _ => None
                        end
                    | None => None
                    end
                | _ => None
                end
            | None => None
            end
          else None
      | EmptyString => None
      end
  end
with parse_elements (fuel : nat) (s : string) : option (list value * string) :=
  match fuel with
  | O => None
  | S fuel =>
      match parse_value fuel s with
      | Some (v, r) =>
          match skip_ws r with
          | String ","%char r' =>
              match parse_elements fuel r' with
              | Some (l, r'') => Some (v :: l, r'')
              | None => None
              end
          | String "]"%char r' => Some ([v], r')
          | _ => None
          end
      | None => None
      end
  end.

(** A whole document: one value, then only white space. *)
Definition parse (s : string) : option value :=
  match parse_value (S (String.length s)) s with
  | Some (v, r) => if String.eqb (skip_ws r) EmptyString then Some v else None
  | None => None
  end.

Definition lower (c : ascii) : ascii :=
  let n := nat_of_ascii c in
  if (65 <=? n)%nat && (n <=? 90)%nat then ascii_of_nat (n + 32) else c.

Fixpoint fold_eqb (a b : string) : bool :=
  match a, b with
  | EmptyString, EmptyString => true
  | String x a', String y b' => Ascii.eqb (lower x) (lower y) && fold_eqb a' b'
  | _, _ => false
  end.

(** An integer literal that fits a Go [int]. *)
Definition int_of_literal (lit : string) : option Z :=
  match NilZero.int_of_string lit with
  | Some d =>
      let z := Z.of_int d in
      if String.eqb (String.substring 0 1 lit) "+" then None
      else if in_int64 z then Some z else None
  | None => None
  end.

(** Decoding the members of an object into the struct, left to right;
    [None] once a member has the wrong type. *)
Fixpoint decode_members (m : list (string * value))
    (acc : config.ReadOnlyStorageConfig) : option config.ReadOnlyStorageConfig :=
  match m with
  | [] => Some acc
  | (k, v) :: m' =>
      if fold_eqb k "read_only" then
        match v with
        | Bool b =>
            decode_members m'
              {| config.ReadOnly := b;
                 config.SyncIntervalMinutes_ := config.SyncIntervalMinutes_ acc |}
        | Null => decode_members m' acc
        | _ => None
        end
      else if fold_eqb k "sync_interval_minutes" then
        match v with
        | Number lit =>
            match int_of_literal lit with
            | Some z =>
                decode_members m'
                  {| config.ReadOnly := config.ReadOnly acc;
                     config.SyncIntervalMinutes_ := z |}
            | None => None
            end
        | Null => decode_members m' acc
        | _ => None
        end
      else decode_members m' acc
  end.

Definition zero : config.ReadOnlyStorageConfig :=
  {| config.ReadOnly := false; config.SyncIntervalMinutes_ := 0 |}.

Definition Unmarshal (data : string) : option config.ReadOnlyStorageConfig :=
  match parse data with
  | Some (Object m) => decode_members m zero
  | Some Null => Some zero
  | _ => None
  end.

Definition field (name val : string) : string :=
  "  " +:+ dq +:+ name +:+ dq +:+ ": " +:+ val.

(** [json.MarshalIndent(v, "", "  ")]; the interval is [omitempty]. *)
Definition MarshalIndent (v : config.ReadOnlyStorageConfig) : string :=
  "{" +:+ nl +:+
  field "read_only" (if config.ReadOnly v then "true" else "false") +:+
  (if config.SyncIntervalMinutes_ v =? 0 then EmptyString
   else "," +:+ nl +:+
        field "sync_interval_minutes" (itoa (config.SyncIntervalMinutes_ v))) +:+
  nl +:+ "}".

Definition json : config.JSON :=
  {| config.Unmarshal := Unmarshal; config.MarshalIndent := MarshalIndent |}.

End encoding_json.

(** ** The world outside the functions

    Everything the Go code shares or touches: the heap of [config.Config]
    objects, the file system, the main configuration files as last saved,
    the channels closed so far, the Git working copy with the answers the
    remote and the library give, and the record of observable actions. *)

Definition ptr := nat.
Definition chan := nat.
Definition Hash := string.

Inductive Level := Info | Error_.

Inductive ResetMode := HardReset | MergeReset.

(** Calls into [go-git]. *)
Inductive GitCall :=
| PlainOpen (dir : string)
| Fetch (remote : string) (force : bool)
| Reference (name : string)
| Worktree
| Reset (commit : Hash) (mode : ResetMode)
| Pull (remote : string) (force : bool).

Inductive Event :=
| Log (lvl : Level) (msg : string)
| Git (c : GitCall)
| EnsureRepository
| PendingQuery
| Callback (id : nat)
| Go (ch : chan)
| Close (ch : chan)
| NewTimer (d : Z)
| TimerStop
| After (d : Z)
| SaveConfig (path : string).

(** A tracked file modified locally: the modification is in the working
    copy only, or has been added to the index. *)
Inductive Change :=
| Unstaged (path : string)
| Staged (path : string).

Definition is_unstaged (c : Change) : bool :=
  match c with Unstaged _ => true | Staged _ => false end.

(** The local clone: remote-tracking and other references, the commit
    checked out, and the tracked files modified locally. *)
Record Repo := {
  refs : gmap string Hash;
  head : Hash;
  local_changes : list Change
}.

Inductive FetchOutcome :=
| Fetched (updates : gmap string Hash)
| FetchUpToDate
| FetchFailed (e : error).

Inductive PullOutcome :=
| Pulled (commit : Hash)
| PullUpToDate
| PullFailed (e : error).

(** What the library and the remote answer to each call. *)
Record GitEnv := {
  open_error : option error;
  fetch_outcome : FetchOutcome;
  worktree_error : option error;
  reset_error : option error;
  pull_outcome : PullOutcome
}.

Record World := {
  heap : gmap ptr config.Config;
  fs : FS;
  saved : gmap string config.Config;
  unsavable : gset string;
  closed : gset chan;
  next_chan : chan;
  repo : Repo;
  git : GitEnv;
  events : list Event
}.

Definition with_heap (f : gmap ptr config.Config -> gmap ptr config.Config) (w : World) : World :=
  {| heap := f (heap w); fs := fs w; saved := saved w; unsavable := unsavable w;
     closed := closed w; next_chan := next_chan w; repo := repo w; git := git w;
     events := events w |}.

Definition with_fs (f : FS) (w : World) : World :=
  {| heap := heap w; fs := f; saved := saved w; unsavable := unsavable w;
     closed := closed w; next_chan := next_chan w; repo := repo w; git := git w;
     events := events w |}.

Definition with_saved (m : gmap string config.Config) (w : World) : World :=
  {| heap := heap w; fs := fs w; saved := m; unsavable := unsavable w;
     closed := closed w; next_chan := next_chan w; repo := repo w; git := git w;
     events := events w |}.

Definition with_closed (c : gset chan) (w : World) : World :=
  {| heap := heap w; fs := fs w; saved := saved w; unsavable := unsavable w;
     closed := c; next_chan := next_chan w; repo := repo w; git := git w;
     events := events w |}.

Definition with_next_chan (n : chan) (w : World) : World :=
  {| heap := heap w; fs := fs w; saved := saved w; unsavable := unsavable w;
     closed := closed w; next_chan := n; repo := repo w; git := git w;
     events := events w |}.

Definition with_repo (r : Repo) (w : World) : World :=
  {| heap := heap w; fs := fs w; saved := saved w; unsavable := unsavable w;
     closed := closed w; next_chan := next_chan w; repo := r; git := git w;
     events := events w |}.

Definition with_events (l : list Event) (w : World) : World :=
  {| heap := heap w; fs := fs w; saved := saved w; unsavable := unsavable w;
     closed := closed w; next_chan := next_chan w; repo := repo w; git := git w;
     events := l |}.

(** ** The state-and-panic monad *)

Inductive Res (A : Type) :=
| Val (a : A) (w : World)
| Panic (msg : string) (w : World).
Arguments Val {A} a w.
Arguments Panic {A} msg w.

Definition M (A : Type) : Type := World -> Res A.

Definition ret {A : Type} (a : A) : M A := fun w => Val a w.

Definition bind {A B : Type} (m : M A) (k : A -> M B) : M B :=
  fun w => match m w with
           | Val a w' => k a w'
           | Panic msg w' => Panic msg w'
           end.

Notation "'let*' x ':=' m 'in' k" := (bind m (fun x => k))
  (at level 10, x name, m at level 100, k at level 200).
Notation "'let*' ' p ':=' m 'in' k" := (bind m (fun x => match x with p => k end))
  (at level 10, p pattern, m at level 100, k at level 200).
Notation "m ';;' k" := (bind m (fun _ => k))
  (at level 100, k at level 200, right associativity).

Definition panic {A : Type} (msg : string) : M A := fun w => Panic msg w.

Definition emit (e : Event) : M unit :=
  fun w => Val tt (with_events (events w ++ [e]) w).

Definition log (lvl : Level) (msg : string) : M unit := emit (Log lvl msg).

(** Dereferencing a Go pointer that may be nil. *)
Definition deref {A : Type} (p : option A) : M A :=
  match p with
  | Some a => ret a
  | None => panic "invalid memory address or nil pointer dereference"
  end.

(** The [config.Config] at an address; a fresh object is the zero value. *)
Definition zero_config : config.Config :=
  {| config.RemoteManagement_ := {| config.AllowRemote := false; config.SecretKey := "" |};
     config.readOnlyStorage := false;
     config.syncIntervalMinutes := 0 |}.

Definition load (p : ptr) (w : World) : config.Config := default zero_config (heap w !! p).

Definition read {A : Type} (f : config.Config -> A) (p : ptr) : M A :=
  fun w => Val (f (load p w)) w.

Definition update (f : config.Config -> config.Config) (p : ptr) : M unit :=
  fun w => Val tt (with_heap (fun h => <[p := f (load p w)]> h) w).

(** [make(chan struct{})] and [close(ch)]; closing twice panics. *)
Definition make_chan : M chan :=
  fun w => Val (next_chan w) (with_next_chan (S (next_chan w)) w).

Definition close (ch : chan) : M unit :=
  fun w => if decide (ch ∈ closed w) then Panic "close of closed channel" w
           else Val tt (with_events (events w ++ [Close ch]) (with_closed ({[ch]} ∪ closed w) w)).

(** ** The Git library

    [go-git] as the scheduler uses it. Every call is recorded; its answer
    comes from [git] and its effect is applied to [repo]. A fetch installs
    the references the remote hands out. [Worktree.Reset] refuses in the
    mode [MergeReset] a working copy with an unstaged modification
    ([ErrUnstagedChanges]); otherwise it moves the clone to the commit and
    rewrites index and working copy from it, which drops the local
    changes. [Worktree.Pull] fetches, moves [HEAD] to the commit fetched
    and ends with a [MergeReset] to it: it fails on an unstaged
    modification, with [HEAD] already moved, and drops the staged ones. *)
Module go_git.

Definition PlainOpen_ (dir : string) : M (option error) :=
  emit (Git (PlainOpen dir));;
  fun w => Val (open_error (git w)) w.

Definition Fetch_ (remote : string) (force : bool) : M (option error) :=
  emit (Git (Fetch remote force));;
  fun w =>
    match fetch_outcome (git w) with
    | Fetched updates =>
        Val None (with_repo {| refs := updates ∪ refs (repo w);
                               head := head (repo w);
                               local_changes := local_changes (repo w) |} w)
    | FetchUpToDate => Val (Some NoErrAlreadyUpToDate) w
    | FetchFailed e => Val (Some e) w
    end.

(** [repo.Reference(name, true)]: [None] when the reference is missing. *)
Definition Reference_ (name : string) : M (option Hash) :=
  emit (Git (Reference name));;
  fun w => Val (refs (repo w) !! name) w.

Definition Worktree_ : M (option error) :=
  emit (Git Worktree);;
  fun w => Val (worktree_error (git w)) w.

(** What [Worktree.Reset] does to the clone once its options are
    accepted. *)
Definition reset_repo (commit : Hash) (mode : ResetMode) (r : Repo) : Repo * option error :=
  match mode with
  | MergeReset =>
      if existsb is_unstaged (local_changes r) then (r, Some ErrUnstagedChanges)
      else ({| refs := refs r; head := commit; local_changes := [] |}, None)
  | HardReset => ({| refs := refs r; head := commit; local_changes := [] |}, None)
  end.

Definition Reset_ (commit : Hash) (mode : ResetMode) : M (option error) :=
  emit (Git (Reset commit mode));;
  fun w =>
    match reset_error (git w) with
    | Some e => Val (Some e) w
    | None =>
        let r := reset_repo commit mode (repo w) in
        Val (snd r) (with_repo (fst r) w)
    end.

(** [Worktree.Pull]: [pull_outcome] is what the fetch and the
    fast-forward test inside it give. *)
Definition Pull_ (remote : string) (force : bool) : M (option error) :=
  emit (Git (Pull remote force));;
  fun w =>
    match pull_outcome (git w) with
    | Pulled commit =>
        let moved := {| refs := refs (repo w); head := commit;
                        local_changes := local_changes (repo w) |} in
        let r := reset_repo commit MergeReset moved in
        Val (snd r) (with_repo (fst r) w)
    | PullUpToDate => Val (Some NoErrAlreadyUpToDate) w
    | PullFailed e => Val (Some e) w
    end.

End go_git.

(** ** Package store: the scheduler *)

(** Modelled from the spec: [GitTokenStore] is declared in
    [internal/store/gitstore.go], which is not among the sources. Of the
    "Repository Collaborator" of section 6 the scheduler uses the
    repository directory and the answers of [EnsureRepository] and
    [HasPendingLocalChanges]; they are the fields of the record. *)
Record GitTokenStore := {
  repoDir : string;
  ensureRepository : option error;
  pendingLocalChanges : bool * option error
}.

Definition repoDirSnapshot (ts : GitTokenStore) : string := repoDir ts.

Definition EnsureRepository_ (ts : GitTokenStore) : M (option error) :=
  emit EnsureRepository;; ret (ensureRepository ts).

Definition TokenStore_HasPendingLocalChanges (ts : GitTokenStore) : M (bool * option error) :=
  emit PendingQuery;; ret (pendingLocalChanges ts).

(** [time.Duration] is an [int64] count of nanoseconds. *)
Definition Second : Z := 1000000000.
Definition Minute : Z := 60 * Second.

(** [time.Duration(n) * unit], with the wrap-around of [int64]. *)
Definition Duration_mul (n unit : Z) : Z := wrap64 (n * unit).

(** Which case of the [select] a loop iteration takes. *)
Inductive Wake := TimerFired | Cancelled.

(** Whether the loop goes round again or the function returns. *)
Inductive Step := Continue | Return.

Module store.

Record GitScheduler := {
  config : option ptr;
  tokenStore : option GitTokenStore;
  stopCh : chan;
  running : bool;
  onSyncComplete : option nat
}.

Definition set_running (b : bool) (s : GitScheduler) : GitScheduler :=
  {| config := config s; tokenStore := tokenStore s; stopCh := stopCh s;
     running := b; onSyncComplete := onSyncComplete s |}.

Definition set_stopCh (ch : chan) (s : GitScheduler) : GitScheduler :=
  {| config := config s; tokenStore := tokenStore s; stopCh := ch;
     running := running s; onSyncComplete := onSyncComplete s |}.

Definition set_config (cfg : option ptr) (s : GitScheduler) : GitScheduler :=
  {| config := cfg; tokenStore := tokenStore s; stopCh := stopCh s;
     running := running s; onSyncComplete := onSyncComplete s |}.

Definition NewGitScheduler (cfg : option ptr) (store : option GitTokenStore)
  : M GitScheduler :=
  let* ch := make_chan in
  ret {| config := cfg; tokenStore := store; stopCh := ch; running := false;
         onSyncComplete := None |}.

Definition SetOnSyncComplete (callback : option nat) (s : GitScheduler) : GitScheduler :=
  {| config := config s; tokenStore := tokenStore s; stopCh := stopCh s;
     running := running s; onSyncComplete := callback |}.

(** [Start]: the scheduler after the call and the returned error. The
    loop it launches is the event [Go ch], [ch] being the stop channel
    handed to [run]. *)
Definition Start (s : GitScheduler) : M (GitScheduler * option error) :=
  let* s :=
    if running s then
      close (stopCh s);;
      let* ch := make_chan in
      ret (set_stopCh ch (set_running false s))
    else ret s in
  match config s with
  | None => ret (s, Some (Errorf "configuration is nil"))
  | Some _ =>
      match tokenStore s with
      | None => ret (s, Some (Errorf "token store is nil"))
      | Some _ =>
          let s := set_running true s in
          log Info "Starting Git scheduler";;
          emit (Go (stopCh s));;
          ret (s, None)
      end
  end.

Definition Stop (s : GitScheduler) : M GitScheduler :=
  if negb (running s) then ret s
  else
    close (stopCh s);;
    let s := set_running false s in
    log Info "Git scheduler stopped";;
    ret s.

(** [pullChanges]: fetch from [origin] with [Force], resolve the remote
    branch, hard reset. *)
Definition pullChanges (s : GitScheduler) : M (option error) :=
  let* ts := deref (tokenStore s) in
  let repoDir := repoDirSnapshot ts in
  if String.eqb repoDir "" then ret (Some (Errorf "repository directory not configured"))
  else
    log Info ("Git scheduler: syncing from remote to " +:+ repoDir);;
    let* err := go_git.PlainOpen_ repoDir in
    match err with
    | Some err => ret (Some (Wrap "failed to open repository" err))
    | None =>
        log Info "Git scheduler: fetching from remote...";;
        let* err := go_git.Fetch_ "origin" true in
        match err with
        | Some NoErrAlreadyUpToDate | None =>
            let* remoteRef :=
              let* r := go_git.Reference_ "refs/remotes/origin/HEAD" in
              match r with
              | Some h => ret (Some h)
              | None =>
                  let* r := go_git.Reference_ "refs/remotes/origin/main" in
                  match r with
                  | Some h => ret (Some h)
                  | None => go_git.Reference_ "refs/remotes/origin/master"
                  end
              end in
            match remoteRef with
            | None =>
                ret (Some (Wrap "failed to find remote branch reference"
                             (ErrGit "reference not found")))
            | Some hash =>
                log Info ("Git scheduler: resetting to remote commit "
                          +:+ String.substring 0 8 hash);;
                let* err := go_git.Worktree_ in
                match err with
                | Some err => ret (Some (Wrap "failed to get worktree" err))
                | None =>
                    let* err := go_git.Reset_ hash HardReset in
                    match err with
                    | Some err => ret (Some (Wrap "failed to reset to remote" err))
                    | None =>
                        log Info "Git scheduler: successfully synced with remote (hard reset)";;
                        ret None
                    end
                end
            end
        | Some err => ret (Some (Wrap "failed to fetch changes" err))
        end
    end.

(** [sync]: one synchronisation attempt. The completion callback is a
    function value the scheduler is handed; its call is recorded as the
    event [Callback], and what the function does when it runs is not part
    of the world. *)
Definition sync (s : GitScheduler) : M (option error) :=
  log Info "Git scheduler: starting sync operation";;
  let* cfg := deref (config s) in
  let* readOnly := read config.IsReadOnlyStorage cfg in
  if readOnly then
    let* ts := deref (tokenStore s) in
    let* err := EnsureRepository_ ts in
    match err with
    | Some err => ret (Some (Wrap "failed to ensure repository" err))
    | None =>
        let* err := pullChanges s in
        match err with
        | Some err => ret (Some (Wrap "failed to pull changes" err))
        | None =>
            match onSyncComplete s with
            | Some callback =>
                log Info "Git scheduler: invoking sync complete callback to reload auth tokens";;
                emit (Callback callback)
            | None => ret tt
            end;;
            log Info "Git scheduler: sync completed successfully";;
            ret None
        end
    end
  else
    log Info "Git scheduler: read-only mode disabled, skipping sync";;
    ret None.

(** One round of the [for] loop of [run]: [s] is the scheduler as read
    under the lock at the top of the round, [wake] the case the
    [select] of this round takes. *)
Definition run_iteration (s : GitScheduler) (wake : Wake) : M Step :=
  let cfg := config s in
  if negb (running s) then ret Return
  else
    let idle :=
      match wake with
      | Cancelled => log Info "Git scheduler stopped";; ret Return
      | TimerFired => emit (After (1 * Second));; ret Continue
      end in
    match cfg with
    | None => idle
    | Some c =>
        let* readOnly := read config.IsReadOnlyStorage c in
        if readOnly then
          let* err := sync s in
          match err with
          | Some _ => log Error_ "Git scheduler sync failed"
          | None => ret tt
          end;;
          let* minutes := read config.SyncIntervalMinutes c in
          let syncInterval := Duration_mul minutes Minute in
          let syncInterval := if syncInterval <=? 0 then 60 * Minute else syncInterval in
          emit (NewTimer syncInterval);;
          match wake with
          | TimerFired => ret Continue
          | Cancelled =>
              emit TimerStop;;
              log Info "Git scheduler stopped";;
              ret Return
          end
        else idle
    end.

(** A round of the loop as the outside sees it: what the other
    goroutines did to the world since the previous round, the scheduler
    the round reads, and the case its [select] takes. *)
Record Tick := {
  interference : World -> World;
  observed : GitScheduler;
  wake : Wake
}.

Fixpoint loop (ticks : list Tick) : M Step :=
  match ticks with
  | [] => ret Continue
  | t :: ticks' =>
      fun w =>
        match run_iteration (observed t) (wake t) (interference t w) with
        | Val Continue w' => loop ticks' w'
        | r => r
        end
  end.

(** [run]: the loop over a finite prefix of its rounds; [Continue] says
    the loop is still going after them. *)
Definition run (ticks : list Tick) : M Step :=
  log Info "Git scheduler started";;
  loop ticks.

Definition UpdateConfig (cfg : option ptr) (s : GitScheduler)
  : M (GitScheduler * option error) :=
  match cfg with
  | None => ret (s, Some (Errorf "configuration is nil"))
  | Some c =>
      let* newReadOnly := read config.IsReadOnlyStorage c in
      let isRunning := running s in
      let s := set_config (Some c) s in
      let shouldRun := newReadOnly in
      if shouldRun && negb isRunning then Start s
      else if negb shouldRun && isRunning then
        let* s := Stop s in ret (s, None)
      else ret (s, None)
  end.

Definition HasPendingLocalChanges (s : GitScheduler) : M (bool * option error) :=
  match tokenStore s with
  | None => ret (false, Some (Errorf "token store is nil"))
  | Some ts => TokenStore_HasPendingLocalChanges ts
  end.

Definition CheckForPendingGitChanges (scheduler : option GitScheduler)
  : M (bool * option error) :=
  match scheduler with
  | None => ret (false, Some (Errorf "git scheduler is nil"))
  | Some s => HasPendingLocalChanges s
  end.

End store.

(** ** Package store, the copy at [internal/store/scheduler.go]

    The repository also holds an older [GitScheduler]. It has no
    completion callback and reads the plain fields [Storage.ReadOnly] and
    [Storage.SyncIntervalMinutes] of the configuration, which are the two
    storage fields of [config.Config] here. [Stop], [UpdateConfig] and
    [HasPendingLocalChanges] are the same text as in [store]. *)
Module store_v1.

Import store.

Definition Start (s : GitScheduler) : M (GitScheduler * option error) :=
  let* s :=
    if running s then
      close (stopCh s);;
      let* ch := make_chan in
      ret (set_stopCh ch (set_running false s))
    else ret s in
  match config s with
  | None => ret (s, Some (Errorf "configuration is nil"))
  | Some c =>
      match tokenStore s with
      | None => ret (s, Some (Errorf "token store is nil"))
      | Some _ =>
          let* readOnly := read config.readOnlyStorage c in
          if negb readOnly then
            log Info "Git scheduler: read-only mode is disabled, not starting scheduler";;
            ret (s, None)
          else
            let s := set_running true s in
            log Info "Starting Git scheduler";;
            emit (Go (stopCh s));;
            ret (s, None)
      end
  end.

(** [pullChanges]: a pull from [origin], without [Force]; neither a
    fetch of its own nor a reset. *)
Definition pullChanges (s : GitScheduler) : M (option error) :=
  let* ts := deref (tokenStore s) in
  let repoDir := repoDirSnapshot ts in
  if String.eqb repoDir "" then ret (Some (Errorf "repository directory not configured"))
  else
    let* err := go_git.PlainOpen_ repoDir in
    match err with
    | Some err => ret (Some (Wrap "failed to open repository" err))
    | None =>
        let* err := go_git.Worktree_ in
        match err with
        | Some err => ret (Some (Wrap "failed to get worktree" err))
        | None =>
            let* err := go_git.Pull_ "origin" false in
            match err with
            | Some NoErrAlreadyUpToDate =>
                log Info "Git scheduler: repository is already up to date";;
                ret None
            | None =>
                log Info "Git scheduler: successfully pulled changes from remote";;
                ret None
            | Some err => ret (Some (Wrap "failed to pull changes" err))
            end
        end
    end.

Definition sync (s : GitScheduler) : M (option error) :=
  log Info "Git scheduler: starting sync operation";;
  let* cfg := deref (config s) in
  let* readOnly := read config.readOnlyStorage cfg in
  if readOnly then
    let* ts := deref (tokenStore s) in
    let* err := EnsureRepository_ ts in
    match err with
    | Some err => ret (Some (Wrap "failed to ensure repository" err))
    | None =>
        let* err := pullChanges s in
        match err with
        | Some err => ret (Some (Wrap "failed to pull changes" err))
        | None =>
            log Info "Git scheduler: sync completed successfully";;
            ret None
        end
    end
  else
    log Info "Git scheduler: read-only mode disabled, skipping sync";;
    ret None.

(** One round of the loop: the timer is armed first and [sync] runs in
    the [timer.C] case of the [select]. *)
Definition run_iteration (s : GitScheduler) (wake : Wake) : M Step :=
  let cfg := config s in
  if negb (running s) then ret Return
  else
    let idle :=
      match wake with
      | Cancelled => log Info "Git scheduler stopped";; ret Return
      | TimerFired => emit (After (1 * Second));; ret Continue
      end in
    match cfg with
    | None => idle
    | Some c =>
        let* readOnly := read config.readOnlyStorage c in
        if readOnly then
          let* minutes := read config.syncIntervalMinutes c in
          let syncInterval := Duration_mul minutes Minute in
          let syncInterval := if syncInterval <=? 0 then 60 * Minute else syncInterval in
          emit (NewTimer syncInterval);;
          match wake with
          | TimerFired =>
              let* err := sync s in
              match err with
              | Some _ => log Error_ "Git scheduler sync failed"
              | None => ret tt
              end;;
              ret Continue
          | Cancelled =>
              emit TimerStop;;
              log Info "Git scheduler stopped";;
              ret Return
          end
        else idle
    end.

Fixpoint loop (ticks : list Tick) : M Step :=
  match ticks with
  | [] => ret Continue
  | t :: ticks' =>
      fun w =>
        match run_iteration (observed t) (wake t) (interference t w) with
        | Val Continue w' => loop ticks' w'
        | r => r
        end
  end.

Definition run (ticks : list Tick) : M Step :=
  log Info "Git scheduler started";;
  loop ticks.

End store_v1.

(** ** Values and library functions the handler uses *)

(** *** float64

    A finite [float64] is a rational of the binary64 format: zero, or a
    multiple of [2^e] below [2^1024] in absolute value, [e] being 52 less
    than the exponent of its leading bit and at least -1074.
    [encoding/json] never produces a NaN or an infinity, so the finite
    ones are all a request body can hold. *)

(** For a positive [q], the [k] with [2^k <= q < 2^(k+1)]. *)
Definition floor_log2 (q : Q) : Z :=
  let k := Z.log2 (Qnum q) - Z.log2 (Z.pos (Qden q)) in
  if Qle_bool (2 ^ k) q then k else k - 1.

(** The exponent of the unit in the last place. *)
Definition ulp_exponent (q : Q) : Z := Z.max (floor_log2 (Qabs q) - 52) (-1074).

Definition whole (q : Q) : bool := Qeq_bool q (inject_Z (Qfloor q)).

Definition is_float64 (q : Q) : bool :=
  Qeq_bool q 0 ||
  (whole (q / 2 ^ ulp_exponent q) && (floor_log2 (Qabs q) <=? 1023)).

Record float64 := {
  float64_value : Q;
  float64_ok : is_float64 float64_value = true
}.

(** Rounding to the nearest integer, a tie going to the even one. *)
Definition round_half_even (q : Q) : Z :=
  let n := Qfloor q in
  match (q - inject_Z n ?= 1 # 2)%Q with
  | Lt => n
  | Gt => n + 1
  | Eq => if Z.even n then n else n + 1
  end.

(** The multiple of the unit in the last place nearest to [q]. *)
Definition float64_round (q : Q) : Q :=
  if Qeq_bool q 0 then 0%Q
  else (inject_Z (round_half_even (q / 2 ^ ulp_exponent q)) * 2 ^ ulp_exponent q)%Q.

(** [strconv.ParseFloat(s, 64)], by which [encoding/json] decodes a JSON
    number, [q] being the value the text [s] denotes: the [float64]
    nearest to [q], and an error ([None]) when that is out of range. *)
Definition ParseFloat (q : Q) : option float64 :=
  let r := Qred (float64_round q) in
  match is_float64 r as b return is_float64 r = b -> option float64 with
  | true => fun H => Some {| float64_value := r; float64_ok := H |}
  | false => fun _ => None
  end eq_refl.

(** [math.Floor], the comparison and the conversion to [int] are exact
    on the value of a [float64]. *)
Definition math_Floor (f : Q) : Q := inject_Z (Qfloor f).

Definition float64_neq (f g : Q) : bool := negb (Qeq_bool f g).

Definition Qtrunc (f : Q) : Z := Z.quot (Qnum f) (Z.pos (Qden f)).

(** The Go specification leaves [int(f)] to the implementation when the
    truncated value does not fit; [float64_to_int_overflow] is what the
    platform yields then. *)
Class Platform := {
  float64_to_int_overflow : Q -> Z
}.

Definition int_of_float64 {platform : Platform} (f : Q) : Z :=
  let t := Qtrunc f in
  if in_int64 t then t else wrap64 (float64_to_int_overflow f).

(** On amd64 the conversion instruction answers the smallest [int64]. *)
Definition amd64 : Platform := {| float64_to_int_overflow := fun _ => min_int64 |}.

(** [bcrypt.CompareHashAndPassword(hash, password) == nil]. *)
Class Bcrypt := {
  CompareHashAndPassword : string -> string -> bool
}.

(** [subtle.ConstantTimeCompare(x, y) == 1]. *)
Definition ConstantTimeCompare (x y : string) : bool := String.eqb x y.

(** [strings.ToLower], on the ASCII letters; no other character maps to
    a letter of the one word it is compared with, [bearer]. *)
Fixpoint ToLower (s : string) : string :=
  match s with
  | EmptyString => EmptyString
  | String c rest => String (encoding_json.lower c) (ToLower rest)
  end.

(** [strings.SplitN(s, " ", 2)]: the two parts around the first space,
    or [None] when there is no space and the result has one part. *)
Fixpoint SplitN_space_2 (s : string) : option (string * string) :=
  match s with
  | EmptyString => None
  | String c rest =>
      if Ascii.eqb c " "%char then Some (EmptyString, rest)
      else match SplitN_space_2 rest with
           | Some (a, b) => Some (String c a, b)
           | None => None
           end
  end.

(** [time.Time] is a count of nanoseconds on the clock; [t.Sub(u)]
    saturates at the ends of [time.Duration]. *)
Definition Time_Sub (t u : Z) : Z := Z.max min_int64 (Z.min max_int64 (t - u)).

Definition lessThanHalf (x y : Z) : bool := (x + x) mod 2 ^ 64 <? y.

(** [time.Duration.Round]. *)
Definition Duration_Round (d m : Z) : Z :=
  if m <=? 0 then d
  else
    let r := Z.rem d m in
    if d <? 0 then
      let r := - r in
      if lessThanHalf r m then wrap64 (d + r)
      else
        let d1 := wrap64 (d - m + r) in
        if d1 <? d then d1 else min_int64
    else
      if lessThanHalf r m then d - r
      else
        let d1 := wrap64 (d + m - r) in
        if d <? d1 then d1 else max_int64.

(** A Go value of type [any], as [encoding/json] decodes one (and [AInt],
    which the handler also tests for). *)
Inductive any :=
| ANil
| ABool (b : bool)
| AFloat64 (f : float64)
| AInt (i : Z)
| AString (s : string)
| ASlice (l : list any)
| AMap (m : list (string * any)).

(** ** Package management: the handler *)

Module management.

Record attemptInfo := {
  count : Z;
  blockedUntil : option Z
}.

Record Handler := {
  cfg : option ptr;
  configFilePath : string;
  failedAttempts : gmap string attemptInfo;
  localPassword : string;
  allowRemoteOverride : bool;
  envSecret : string;
  scheduler : option store.GitScheduler
}.

Definition set_failedAttempts (m : gmap string attemptInfo) (h : Handler) : Handler :=
  {| cfg := cfg h; configFilePath := configFilePath h; failedAttempts := m;
     localPassword := localPassword h; allowRemoteOverride := allowRemoteOverride h;
     envSecret := envSecret h; scheduler := scheduler h |}.

Definition SetScheduler (s : option store.GitScheduler) (h : Handler) : Handler :=
  {| cfg := cfg h; configFilePath := configFilePath h;
     failedAttempts := failedAttempts h;
     localPassword := localPassword h; allowRemoteOverride := allowRemoteOverride h;
     envSecret := envSecret h; scheduler := s |}.

Definition SetLocalPassword (password : string) (h : Handler) : Handler :=
  {| cfg := cfg h; configFilePath := configFilePath h;
     failedAttempts := failedAttempts h;
     localPassword := password; allowRemoteOverride := allowRemoteOverride h;
     envSecret := envSecret h; scheduler := scheduler h |}.

Definition SetConfig (c : option ptr) (h : Handler) : Handler :=
  {| cfg := c; configFilePath := configFilePath h;
     failedAttempts := failedAttempts h;
     localPassword := localPassword h; allowRemoteOverride := allowRemoteOverride h;
     envSecret := envSecret h; scheduler := scheduler h |}.

Definition Scheduler (h : Handler) : option store.GitScheduler := scheduler h.

(** [NewHandler]; [env] is the value of [MANAGEMENT_PASSWORD] after
    [strings.TrimSpace]. *)
Definition NewHandler (c : option ptr) (path : string) (env : string) : Handler :=
  {| cfg := c; configFilePath := path; failedAttempts := ∅;
     localPassword := ""; allowRemoteOverride := negb (String.eqb env "");
     envSecret := env; scheduler := None |}.

(** What a handler reads of the request: the client address, the two
    headers ([""] when absent) and the body as [ShouldBindJSON] binds
    it to a [map[string]any] ([None] when binding fails). *)
Record Context := {
  ClientIP : string;
  Authorization : string;
  XManagementKey : string;
  Body : option (gmap string any)
}.

(** The JSON bodies the handlers answer with. [HBanned remaining] is
    the [error] text "IP banned due to too many failed attempts. Try
    again in %s" with the duration [remaining]. *)
Inductive H :=
| HError (msg : string)
| HBanned (remaining : Z)
| HReadOnly (b : bool)
| HSyncInterval (n : Z)
| HStatus (s : string).

Record Response := {
  status : Z;
  body : H
}.

Definition StatusOK : Z := 200.
Definition StatusBadRequest : Z := 400.
Definition StatusUnauthorized : Z := 401.
Definition StatusForbidden : Z := 403.
Definition StatusInternalServerError : Z := 500.

(** [c.Next()] or [c.AbortWithStatusJSON(...)]. *)
Inductive Outcome :=
| Next
| Abort (r : Response).

Definition maxFailures : Z := 5.
Definition banDuration : Z := 30 * Minute.

Definition isLocal (clientIP : string) : bool :=
  String.eqb clientIP "127.0.0.1" || String.eqb clientIP "::1".

(** The closure [fail] of a remote client; [now] is the [time.Now()]
    it reads. *)
Definition fail (clientIP : string) (now : Z) (h : Handler) : Handler :=
  let aip :=
    match failedAttempts h !! clientIP with
    | Some aip => aip
    | None => {| count := 0; blockedUntil := None |}
    end in
  let aip := {| count := wrap64 (count aip + 1); blockedUntil := blockedUntil aip |} in
  let aip :=
    if maxFailures <=? count aip
    then {| count := 0; blockedUntil := Some (now + banDuration) |}
    else aip in
  set_failedAttempts (<[clientIP := aip]> (failedAttempts h)) h.

(** The reset after a successful authentication of a remote client. *)
Definition reset (clientIP : string) (h : Handler) : Handler :=
  match failedAttempts h !! clientIP with
  | Some _ =>
      set_failedAttempts
        (<[clientIP := {| count := 0; blockedUntil := None |}]> (failedAttempts h)) h
  | None => h
  end.

(** The key a request presents: [Authorization] (with or without the
    [Bearer] prefix), else [X-Management-Key]. *)
Definition provided_key (c : Context) : string :=
  let provided :=
    let ah := Authorization c in
    if negb (String.eqb ah "") then
      match SplitN_space_2 ah with
      | Some (p0, p1) => if String.eqb (ToLower p0) "bearer" then p1 else ah
      | None => ah
      end
    else "" in
  if String.eqb provided "" then XManagementKey c else provided.

Section Middleware.
Context {bcrypt : Bcrypt}.

(** [Middleware]: the handler after the request and what happens to
    the request. [now] is the clock at the ban check, [later] the
    second reading of the clock ([time.Until] in the ban message,
    [time.Now] in [fail]). *)
Definition Middleware (h : Handler) (c : Context) (now later : Z) (w : World)
  : Handler * Outcome :=
  let clientIP := ClientIP c in
  let localClient := isLocal clientIP in
  let '(allowRemote, secretHash) :=
    match cfg h with
    | Some p =>
        (config.AllowRemote (config.RemoteManagement_ (load p w)),
         config.SecretKey (config.RemoteManagement_ (load p w)))
    | None => (false, "")
    end in
  let allowRemote := if allowRemoteOverride h then true else allowRemote in
  let envSecret := envSecret h in
  let banned : Handler + Response :=
    if negb localClient then
      match failedAttempts h !! clientIP with
      | Some ai =>
          match blockedUntil ai with
          | Some until =>
              if now <? until then
                let remaining := Duration_Round (Time_Sub until later) Second in
                inr {| status := StatusForbidden; body := HBanned remaining |}
              else
                inl (set_failedAttempts
                       (<[clientIP := {| count := 0; blockedUntil := None |}]>
                          (failedAttempts h)) h)
          | None => inl h
          end
      | None => inl h
      end
    else inl h in
  match banned with
  | inr r => (h, Abort r)
  | inl h =>
      if negb localClient && negb allowRemote then
        (h, Abort {| status := StatusForbidden;
                     body := HError "remote management disabled" |})
      else if String.eqb secretHash "" && String.eqb envSecret "" then
        (h, Abort {| status := StatusForbidden;
                     body := HError "remote management key not set" |})
      else
        let provided := provided_key c in
        if String.eqb provided "" then
          ((if negb localClient then fail clientIP later h else h),
           Abort {| status := StatusUnauthorized;
                    body := HError "missing management key" |})
        else if localClient && negb (String.eqb (localPassword h) "")
                && ConstantTimeCompare provided (localPassword h) then
          (h, Next)
        else if negb (String.eqb envSecret "")
                && ConstantTimeCompare provided envSecret then
          ((if negb localClient then reset clientIP h else h), Next)
        else if String.eqb secretHash ""
                || negb (CompareHashAndPassword secretHash provided) then
          ((if negb localClient then fail clientIP later h else h),
           Abort {| status := StatusUnauthorized;
                    body := HError "invalid management key" |})
        else
          ((if negb localClient then reset clientIP h else h), Next)
  end.
End Middleware.

(** Modelled from the spec: [config.SaveConfigPreserveComments]
    ([internal/config], not among the sources), the "save full
    configuration, preserving user formatting" operation of section 6.
    It writes the configuration at [cfg] to the main configuration file
    [path]; a path that cannot be written, or a nil configuration, is
    an error. *)
Definition SaveConfigPreserveComments (path : string) (cfg : option ptr)
  : M (option error) :=
  emit (SaveConfig path);;
  fun w =>
    if decide (path ∈ unsavable w) then Val (Some ErrIO) w
    else match cfg with
         | Some p => Val None (with_saved (<[path := load p w]> (saved w)) w)
         | None => Val (Some (Errorf "configuration is nil")) w
         end.

(** [persist(c)]: [with_context] says whether [c] is non-nil; the
    result is the returned bool and the response written, if any. *)
Definition persist (with_context : bool) (h : Handler) : M (bool * option Response) :=
  let cfgSnapshot := cfg h in
  let configFilePath := configFilePath h in
  let* err := SaveConfigPreserveComments configFilePath cfgSnapshot in
  match err with
  | Some _ =>
      ret (false,
           if with_context
           then Some {| status := StatusInternalServerError;
                        body := HError "failed to save config" |}
           else None)
  | None =>
      ret (true,
           if with_context
           then Some {| status := StatusOK; body := HStatus "ok" |}
           else None)
  end.

Definition persistConfig (h : Handler) : M bool :=
  let* '(ok, _) := persist false h in ret ok.

Definition side_file : string := "data/read_only_storage.json".

Section SideFile.
Context {json : config.JSON}.

Definition persistBothToJSONAfterUnlock (readOnly : bool) (syncIntervalMinutes : Z)
  : M unit :=
  let* data :=
    fun w =>
      match ReadFile side_file (fs w) with
      | inl data => Val data w
      | inr err =>
          ((if negb (IsNotExist err)
            then log Error_ "Failed to read read_only_storage.json"
            else ret tt);;
           ret config.default_document) w
      end in
  match config.Unmarshal data with
  | None => log Error_ "Failed to parse read_only_storage.json"
  | Some _ =>
      let readOnlyConfig :=
        {| config.ReadOnly := readOnly;
           config.SyncIntervalMinutes_ := syncIntervalMinutes |} in
      let updatedData := config.MarshalIndent readOnlyConfig in
      fun w =>
        match WriteFile side_file updatedData (fs w) with
        | inr _ => log Error_ "Failed to write updated read-only storage config" w
        | inl fs' => Val tt (with_fs fs' w)
        end
  end.

Definition persistReadOnlyToJSONAfterUnlock (readOnly : bool) (h : Handler) : M unit :=
  let* currentSyncInterval :=
    match cfg h with
    | Some p => read config.SyncIntervalMinutes p
    | None => ret 0
    end in
  persistBothToJSONAfterUnlock readOnly currentSyncInterval.

Definition persistSyncIntervalToJSONAfterUnlock (syncIntervalMinutes : Z) (h : Handler)
  : M unit :=
  let* currentReadOnly :=
    match cfg h with
    | Some p => read config.IsReadOnlyStorage p
    | None => ret false
    end in
  persistBothToJSONAfterUnlock currentReadOnly syncIntervalMinutes.

(** [updateStorageReadOnly]; the handler comes back with its
    scheduler as [UpdateConfig] left it. *)
Definition updateStorageReadOnly (readOnly : bool) (h : Handler) : M Handler :=
  let* h :=
    match cfg h with
    | Some cfgSnapshot =>
        let* oldReadOnly := read config.IsReadOnlyStorage cfgSnapshot in
        update (config.SetReadOnlyStorage readOnly) cfgSnapshot;;
        let* h :=
          match scheduler h with
          | Some s =>
              let* '(s, _) := store.UpdateConfig (Some cfgSnapshot) s in
              ret (SetScheduler (Some s) h)
          | None => ret h
          end in
        (if negb (Bool.eqb oldReadOnly readOnly) then
           if readOnly then log Info "Storage read-only mode enabled"
           else log Info "Storage read-only mode disabled"
         else ret tt);;
        ret h
    | None => ret h
    end in
  persistConfig h;;
  persistReadOnlyToJSONAfterUnlock readOnly h;;
  ret h.

Definition updateStorageSyncInterval (syncIntervalMinutes : Z) (h : Handler) : M Handler :=
  let* h :=
    match cfg h with
    | Some cfgSnapshot =>
        update (config.SetSyncIntervalMinutes syncIntervalMinutes) cfgSnapshot;;
        let* h :=
          match scheduler h with
          | Some s =>
              let* '(s, _) := store.UpdateConfig (Some cfgSnapshot) s in
              ret (SetScheduler (Some s) h)
          | None => ret h
          end in
        log Info ("Storage sync interval updated to " +:+ itoa syncIntervalMinutes
                  +:+ " minutes");;
        ret h
    | None => ret h
    end in
  persistConfig h;;
  persistSyncIntervalToJSONAfterUnlock syncIntervalMinutes h;;
  ret h.
End SideFile.

(** [parseBoolField]: the value and whether one was found. *)
Definition parseBoolField (c : Context) (primaryKey altKey : string) : bool * bool :=
  match Body c with
  | None => (false, false)
  | Some m =>
      match m !! primaryKey with
      | Some (ABool b) => (b, true)
      | _ =>
          match m !! altKey with
          | Some (ABool b) => (b, true)
          | _ => (false, false)
          end
      end
  end.

Section ParseInt.
Context {platform : Platform}.

(** The tests [parseIntField] runs on the value found under [key]. *)
Definition parseIntValue (key : string) (val : any) (min : Z)
  : Z * bool * option error :=
  match val with
  | AFloat64 f =>
      let f := float64_value f in
      if float64_neq f (math_Floor f) then
        (0, true, Some (Errorf (key +:+ " must be a whole number")))
      else
        let intVal := int_of_float64 f in
        if intVal <? min then
          (0, true, Some (Errorf (key +:+ " must be at least " +:+ itoa min)))
        else (intVal, true, None)
  | AInt i =>
      if i <? min then
        (0, true, Some (Errorf (key +:+ " must be at least " +:+ itoa min)))
      else (i, true, None)
  | _ => (0, true, Some (Errorf (key +:+ " must be a number")))
  end.

(** [parseIntField]: the value, whether a key was found, and the
    error. *)
Definition parseIntField (c : Context) (primaryKey altKey : string) (min : Z)
  : Z * bool * option error :=
  match Body c with
  | None => (0, false, None)
  | Some m =>
      match m !! primaryKey with
      | Some val => parseIntValue primaryKey val min
      | None =>
          match m !! altKey with
          | Some val => parseIntValue altKey val min
          | None => (0, false, None)
          end
      end
  end.
End ParseInt.

(** [err.Error()]: [fmt.Errorf] with [%w] prints the cause after the
    message; the errors of the libraries print the libraries' texts. *)
Fixpoint Error_text (e : error) : string :=
  match e with
  | Errorf msg => msg
  | Wrap msg cause => msg +:+ ": " +:+ Error_text cause
  | ErrNotExist => "file does not exist"
  | ErrIO => "input/output error"
  | ErrJSON => "unexpected end of JSON input"
  | ErrGit what => what
  | NoErrAlreadyUpToDate => "already up-to-date"
  | ErrUnstagedChanges => "worktree contains unstaged changes"
  end.

(** [ensureCanEnableReadOnly]: [None] is the answer [true]; [Some r] is
    the answer [false] after writing the response [r]. *)
Definition ensureCanEnableReadOnly (h : Handler) : M (option Response) :=
  match scheduler h with
  | Some s =>
      let* '(hasChanges, err) := store.HasPendingLocalChanges s in
      match err with
      | Some err =>
          ret (Some {| status := StatusInternalServerError;
                       body := HError ("Cannot check for pending changes: " +:+
                                       Error_text err) |})
      | None =>
          if hasChanges then
            ret (Some {| status := StatusBadRequest;
                         body := HError "Cannot enable read-only mode while there are pending local changes. Please sync changes first." |})
          else ret None
      end
  | None => ret None
  end.

Definition minSyncIntervalMinutes : Z := 1.

Section Handlers.
Context {json : config.JSON} {platform : Platform}.

Definition PutStorageReadOnly (h : Handler) (c : Context) : M (Handler * Response) :=
  let '(value, found) := parseBoolField c "read_only" "value" in
  if negb found then
    ret (h, {| status := StatusBadRequest; body := HError "invalid body" |})
  else
    let* refused := if value then ensureCanEnableReadOnly h else ret None in
    match refused with
    | Some r => ret (h, r)
    | None =>
        let* h := updateStorageReadOnly value h in
        ret (h, {| status := StatusOK; body := HReadOnly value |})
    end.

Definition PutStorageSyncInterval (h : Handler) (c : Context) : M (Handler * Response) :=
  let '(value, found, err) :=
    parseIntField c "sync_interval_minutes" "value" minSyncIntervalMinutes in
  match err with
  | Some err =>
      ret (h, {| status := StatusBadRequest; body := HError (Error_text err) |})
  | None =>
      if negb found then
        ret (h, {| status := StatusBadRequest; body := HError "invalid body" |})
      else
        let* h := updateStorageSyncInterval value h in
        ret (h, {| status := StatusOK; body := HSyncInterval value |})
  end.

Definition GetStorageReadOnly (h : Handler) : M Response :=
  match cfg h with
  | None =>
      ret {| status := StatusInternalServerError;
             body := HError "configuration not available" |}
  | Some p =>
      let* b := read config.IsReadOnlyStorage p in
      ret {| status := StatusOK; body := HReadOnly b |}
  end.

Definition GetStorageSyncInterval (h : Handler) : M Response :=
  match cfg h with
  | None =>
      ret {| status := StatusInternalServerError;
             body := HError "configuration not available" |}
  | Some p =>
      let* n := read config.SyncIntervalMinutes p in
      ret {| status := StatusOK; body := HSyncInterval n |}
  end.
End Handlers.

End management.

(** * Vocabulary of the statements

    What the theorems observe of a run (the events it added, the Git
    calls among them, what a computation leaves alone), the abbreviations
    their statements use, and the concrete deployments, handlers and
    requests they are evaluated on. *)

Definition empty_fs : FS := {| files := ∅; unreadable := ∅; unwritable := ∅ |}.

Definition config_with (readOnly : bool) (minutes : Z) : config.Config :=
  {| config.RemoteManagement_ := {| config.AllowRemote := false; config.SecretKey := "" |};
     config.readOnlyStorage := readOnly;
     config.syncIntervalMinutes := minutes |}.

(** The side file of the scenario of section 8 of the spec. *)
Definition scenario_document : string :=
  "{" +:+ dq +:+ "read_only" +:+ dq +:+ ": true, "
      +:+ dq +:+ "sync_interval_minutes" +:+ dq +:+ ": 10}".

Definition scenario_fs : FS :=
  {| files := {[ management.side_file := scenario_document ]};
     unreadable := ∅; unwritable := ∅ |}.

(** A side file that is there, cut after its first character, and that
    the process may not read. *)
Definition unreadable_fs : FS :=
  {| files := {[ management.side_file := "{" ]};
     unreadable := {[ management.side_file ]}; unwritable := ∅ |}.

Definition absent (path : string) (fs : FS) : Prop := ReadFile path fs = inr ErrNotExist.

Definition holds (path : string) (fs : FS) (data : string) : Prop :=
  ReadFile path fs = inl data.

Definition world_of {A : Type} (r : Res A) : World :=
  match r with Val _ w | Panic _ w => w end.

(** The events a run added to the record. *)
Definition new_events (w w' : World) : list Event :=
  drop (length (events w)) (events w').

Definition git_calls (l : list Event) : list GitCall :=
  omap (fun e => match e with Git c => Some c | _ => None end) l.


Definition origin_main : string := "refs/remotes/origin/main".






Definition runs (F : World -> World -> Prop) (P : Event -> Prop) {A : Type} (m : M A)
  : Prop :=
  forall w, exists a w' l,
    m w = Val a w' /\ events w' = (events w ++ l)%list /\ Forall P l /\ F w w'.

(** The parts of the world a synchronisation leaves alone. *)
Definition frame (w w' : World) : Prop :=
  heap w' = heap w /\ fs w' = fs w /\ saved w' = saved w /\
  unsavable w' = unsavable w /\
  closed w' = closed w /\ next_chan w' = next_chan w /\ git w' = git w.

(** The parts of the world persisting the configuration leaves alone. *)
Definition same_memory (w w' : World) : Prop :=
  heap w' = heap w /\ closed w' = closed w /\ next_chan w' = next_chan w.

(** What the lemmas below need of [F]. *)
Record framing (F : World -> World -> Prop) : Prop := {
  framing_refl : forall w, F w w;
  framing_trans : forall w1 w2 w3, F w1 w2 -> F w2 w3 -> F w1 w3;
  framing_events : forall w l, F w (with_events l w)
}.

Definition is_pull (e : Event) : bool :=
  match e with Git (Pull _ _) => true | _ => false end.

Definition is_query (e : Event) : bool :=
  match e with PendingQuery => true | _ => false end.

Definition sync_started : Event := Log Info "Git scheduler: starting sync operation".

Definition sync_failed (err : option error) : list Event :=
  match err with
  | Some _ => [Log Error_ "Git scheduler sync failed"]
  | None => []
  end.

Definition step_of (wake : Wake) : Step :=
  match wake with TimerFired => Continue | Cancelled => Return end.

(** What follows the arming of the timer. *)
Definition after_timer (wake : Wake) : list Event :=
  match wake with
  | TimerFired => []
  | Cancelled => [TimerStop; Log Info "Git scheduler stopped"]
  end.

(** The largest number of minutes whose nanoseconds fit a
    [time.Duration]. *)
Definition max_interval_minutes : Z := 153722867.

(** The timer the claims describe. *)
Definition timer_for (minutes : Z) : Z :=
  if 0 <? minutes then minutes * Minute else 60 * Minute.

Definition ts0 : GitTokenStore :=
  {| repoDir := "/data/repo"; ensureRepository := None;
     pendingLocalChanges := (false, None) |}.

Definition commit_local : Hash := "0f1e2d3c4b5a69788796a5b4c3d2e1f001234567".

Definition commit_remote : Hash := "a1b2c3d4e5f60718293a4b5c6d7e8f9012345678".

(** A scheduler that [Start] has just marked running; its configuration
    is the object at address 0. *)
Definition s_running : store.GitScheduler :=
  {| store.config := Some 0%nat; store.tokenStore := Some ts0;
     store.stopCh := 0%nat; store.running := true;
     store.onSyncComplete := None |}.

(** Read-only is on with the given interval; the working copy has one
    file modified locally, and the remote branch [main] has moved to
    [commit_remote]. *)
Definition w_read_only (minutes : Z) : World :=
  {| heap := {[ 0%nat := config_with true minutes ]};
     fs := empty_fs; saved := ∅; unsavable := ∅;
     closed := ∅; next_chan := 1%nat;
     repo := {| refs := ∅; head := commit_local;
                local_changes := [Unstaged "auths/account.json"] |};
     git := {| open_error := None;
               fetch_outcome := Fetched {[ origin_main := commit_remote ]};
               worktree_error := None; reset_error := None;
               pull_outcome := Pulled commit_remote |};
     events := [] |}.

Definition tick (s : store.GitScheduler) (wake : Wake) : store.Tick :=
  {| store.interference := fun w => w; store.observed := s; store.wake := wake |}.

(** A scheduler built without a token store. *)
Definition s_no_store : store.GitScheduler :=
  {| store.config := None; store.tokenStore := None; store.stopCh := 0%nat;
     store.running := false; store.onSyncComplete := None |}.

(** The secret hash of the configuration, [""] without one. *)
Definition configured_secret (h : management.Handler) (w : World) : string :=
  match management.cfg h with
  | Some p => config.SecretKey (config.RemoteManagement_ (load p w))
  | None => ""
  end.

Definition remote_allowed (h : management.Handler) (w : World) : bool :=
  if management.allowRemoteOverride h then true
  else match management.cfg h with
       | Some p => config.AllowRemote (config.RemoteManagement_ (load p w))
       | None => false
       end.

(** A ban on [ip] that has not expired at [now]. *)
Definition banned_at (h : management.Handler) (ip : string) (now : Z) : bool :=
  match management.failedAttempts h !! ip with
  | Some ai =>
      match management.blockedUntil ai with
      | Some until => now <? until
      | None => false
      end
  | None => false
  end.

Definition remote_disabled : management.Response :=
  {| management.status := management.StatusForbidden;
     management.body := management.HError "remote management disabled" |}.

Definition configuration_not_available : management.Response :=
  {| management.status := management.StatusInternalServerError;
     management.body := management.HError "configuration not available" |}.

Definition key_not_set : management.Response :=
  {| management.status := management.StatusForbidden;
     management.body := management.HError "remote management key not set" |}.

Definition no_attempts : management.attemptInfo :=
  {| management.count := 0; management.blockedUntil := None |}.

(** The failure counter a request starts from once it is past the ban
    check: a ban that has expired resets it. *)
Definition counter_before (h : management.Handler) (ip : string) : Z :=
  match management.failedAttempts h !! ip with
  | Some ai =>
      match management.blockedUntil ai with
      | Some _ => 0
      | None => management.count ai
      end
  | None => 0
  end.

(** Every counter of the map is below the threshold. *)
Definition attempts_ok (h : management.Handler) : Prop :=
  forall ip ai, management.failedAttempts h !! ip = Some ai ->
    0 <= management.count ai < management.maxFailures.

(** The handler once a request is past the ban check: a ban that has
    expired is cleared, with its counter. *)
Definition after_ban_check (h : management.Handler) (ip : string) : management.Handler :=
  match management.failedAttempts h !! ip with
  | Some ai =>
      match management.blockedUntil ai with
      | Some _ =>
          management.set_failedAttempts
            (<[ip := no_attempts]> (management.failedAttempts h)) h
      | None => h
      end
  | None => h
  end.

(** A stand-in for bcrypt on concrete inputs: the hash of [pw] is
    [bcrypt:pw]. *)
Definition toy_bcrypt : Bcrypt :=
  {| CompareHashAndPassword := fun hash pw => String.eqb hash ("bcrypt:" +:+ pw) |}.

(** The configuration at address 0 allows remote management and holds
    the hash of the key [s3cret]. *)
Definition w_remote : World :=
  {| heap := {[ 0%nat :=
                 {| config.RemoteManagement_ :=
                      {| config.AllowRemote := true;
                         config.SecretKey := "bcrypt:s3cret" |};
                    config.readOnlyStorage := false;
                    config.syncIntervalMinutes := 5 |} ]};
     fs := empty_fs; saved := ∅; unsavable := ∅;
     closed := ∅; next_chan := 1%nat;
     repo := {| refs := ∅; head := commit_local; local_changes := [] |};
     git := {| open_error := None; fetch_outcome := FetchUpToDate;
               worktree_error := None; reset_error := None;
               pull_outcome := PullUpToDate |};
     events := [] |}.

Definition h_remote : management.Handler :=
  management.NewHandler (Some 0%nat) "config.yaml" "".

Definition request (ip key : string) : management.Context :=
  {| management.ClientIP := ip; management.Authorization := "Bearer " +:+ key;
     management.XManagementKey := ""; management.Body := None |}.

Definition remote_ip : string := "203.0.113.7".

(** Requests of one caller, one after the other, each with the key it
    presents and the time it arrives. *)
Fixpoint serve (h : management.Handler) (reqs : list (string * Z))
  : management.Handler * list management.Outcome :=
  match reqs with
  | [] => (h, [])
  | (key, t) :: reqs' =>
      let '(h1, o) :=
        management.Middleware (bcrypt := toy_bcrypt) h (request remote_ip key) t t w_remote in
      let '(h2, os) := serve h1 reqs' in
      (h2, o :: os)
  end.

(** A loopback caller that presents the configured local password. *)
Definition h_local_password : management.Handler :=
  management.SetLocalPassword "letmein"
    (management.NewHandler (Some 0%nat) "config.yaml" "").


Definition all_events (e : Event) : Prop := True.


(** The scheduler of the handler does not run on a closed stop channel. *)
Definition stop_signal_live (h : management.Handler) (w : World) : Prop :=
  forall s, management.scheduler h = Some s ->
    store.running s = true -> store.stopCh s ∉ closed w.



Definition bad_request (msg : string) : management.Response :=
  {| management.status := management.StatusBadRequest;
     management.body := management.HError msg |}.

Definition interval_accepted (n : Z) : management.Response :=
  {| management.status := management.StatusOK;
     management.body := management.HSyncInterval n |}.

(** The side file can be rewritten: it can be read or is missing, what
    it holds decodes, and it can be written. *)
Definition side_file_ok {json : config.JSON} (fs : FS) : Prop :=
  (management.side_file ∉ unreadable fs) /\
  (management.side_file ∉ unwritable fs) /\
  is_Some (config.Unmarshal
             (default config.default_document (files fs !! management.side_file))).

Definition is_log (e : Event) : bool :=
  match e with Log _ _ => true | _ => false end.

Definition body_request (m : gmap string any) : management.Context :=
  {| management.ClientIP := "127.0.0.1"; management.Authorization := "";
     management.XManagementKey := ""; management.Body := Some m |}.

Definition enable_request : management.Context :=
  body_request {[ "read_only" := ABool true ]}.



(** Read-only is off, the interval is five minutes. *)
Definition w_writable : World :=
  {| heap := {[ 0%nat := config_with false 5 ]};
     fs := empty_fs; saved := ∅; unsavable := ∅;
     closed := ∅; next_chan := 1%nat;
     repo := {| refs := ∅; head := commit_local;
                local_changes := [Unstaged "auths/account.json"] |};
     git := {| open_error := None; fetch_outcome := FetchUpToDate;
               worktree_error := None; reset_error := None;
               pull_outcome := PullUpToDate |};
     events := [] |}.

Definition h_unwired : management.Handler :=
  management.NewHandler (Some 0%nat) "config.yaml" "".



(** ** Vocabulary of the further properties *)

(** A separator of [getDirFromPath]. *)
Definition is_separator {os : OS} (c : ascii) : bool :=
  Ascii.eqb c "/"%char || Ascii.eqb c PathSeparator.

Fixpoint has_separator {os : OS} (s : string) : bool :=
  match s with
  | EmptyString => false
  | String c rest => is_separator c || has_separator rest
  end.

(** The operations of an event include [Write] or [Create]. *)
Definition writes_or_creates (op : Z) : Prop :=
  Z.testbit op 1 = true \/ Z.testbit op 0 = true.

(** A message that is no write to, and no creation of, the file [path]:
    an event for another name, an event without the [Write] and [Create]
    bits, or no event at all. *)
Definition unrelated (path : string) (msg : config.WatcherMsg) : Prop :=
  match msg with
  | config.EventMsg name op => name <> path \/ ~ writes_or_creates op
  | _ => True
  end.

(** A line about a reload. *)
Definition is_reload_line (l : config.WatcherLog) : bool :=
  match l with
  | config.ReloadFailed _ | config.Reloaded _ => true
  | _ => false
  end.

(** The document [PersistReadOnlyState] writes. *)
Definition document (readOnly : bool) (syncMinutes : Z) : config.ReadOnlyStorageConfig :=
  {| config.ReadOnly := readOnly; config.SyncIntervalMinutes_ := syncMinutes |}.

(** The last line of the goroutine of the watcher. *)
Definition last_line (path : string) (msg : config.WatcherMsg) : list config.WatcherLog :=
  match msg with
  | config.CtxDone => [config.ShuttingDown path]
  | _ => []
  end.

(** The callbacks invoked among some events. *)
Definition callbacks (l : list Event) : list nat :=
  omap (fun e => match e with Callback id => Some id | _ => None end) l.

(** A log line or a call into the Git library. *)
Definition is_git_or_log (e : Event) : bool :=
  match e with Log _ _ | Git _ => true | _ => false end.

Definition is_reset (c : GitCall) : bool :=
  match c with Reset _ _ => true | _ => false end.

(** Loops launched and channels closed among some events. *)
Definition launches (l : list Event) : list chan :=
  omap (fun e => match e with Go ch => Some ch | _ => None end) l.

Definition closings (l : list Event) : list chan :=
  omap (fun e => match e with Close ch => Some ch | _ => None end) l.


(** The handler after a sequence of requests, each with the two readings
    of the clock and the world it is served in. *)
Fixpoint handle_all {bcrypt : Bcrypt} (h : management.Handler)
    (reqs : list (management.Context * Z * Z * World)) : management.Handler :=
  match reqs with
  | [] => h
  | (c, now, later, w) :: reqs' =>
      handle_all (fst (management.Middleware h c now later w)) reqs'
  end.

(** Two handlers that differ at most in the attempts recorded for [ip]. *)
Definition same_but_attempts_of (ip : string) (h h' : management.Handler) : Prop :=
  management.cfg h' = management.cfg h /\
  management.configFilePath h' = management.configFilePath h /\
  management.localPassword h' = management.localPassword h /\
  management.allowRemoteOverride h' = management.allowRemoteOverride h /\
  management.envSecret h' = management.envSecret h /\
  management.scheduler h' = management.scheduler h /\
  forall ip', ip' <> ip ->
    management.failedAttempts h' !! ip' = management.failedAttempts h !! ip'.

Fixpoint has_space (s : string) : bool :=
  match s with
  | EmptyString => false
  | String c rest => Ascii.eqb c " "%char || has_space rest
  end.

(** A request with the two headers given. *)
Definition with_headers (ip authorization key : string) : management.Context :=
  {| management.ClientIP := ip; management.Authorization := authorization;
     management.XManagementKey := key; management.Body := None |}.

(** What persisting adds to the record: log lines and saves of the main
    configuration file. *)
Definition is_persist_event (e : Event) : bool :=
  match e with Log _ _ | SaveConfig _ => true | _ => false end.

(** What an update of the scheduler adds: log lines, launches and
    channel closings. *)
Definition is_scheduler_event (e : Event) : bool :=
  match e with Log _ _ | Go _ | Close _ => true | _ => false end.

Definition has_token_store (s : store.GitScheduler) : bool :=
  match store.tokenStore s with Some _ => true | None => false end.

(** What the scheduler of the handler has become after an update that
    left the flag [ro] in the configuration at [p], with the events [l]. *)
Definition scheduler_updated (h h' : management.Handler) (p : ptr) (ro : bool)
    (l : list Event) (w w' : World) : Prop :=
  match management.scheduler h with
  | None =>
      management.scheduler h' = None /\ launches l = [] /\ closings l = [] /\
      closed w' = closed w
  | Some s =>
      exists s',
        management.scheduler h' = Some s' /\
        store.config s' = Some p /\ store.stopCh s' = store.stopCh s /\
        store.tokenStore s' = store.tokenStore s /\
        store.running s' = ro && (store.running s || has_token_store s) /\
        launches l =
          (if ro && negb (store.running s) && has_token_store s
           then [store.stopCh s] else []) /\
        closings l = (if negb ro && store.running s then [store.stopCh s] else []) /\
        closed w' =
          (if negb ro && store.running s then {[store.stopCh s]} ∪ closed w else closed w)
  end.

(** What [updateStorageReadOnly] and [updateStorageSyncInterval] have
    done when they return: the configuration at [p] is [c'], both files
    have been written when they can be, and the scheduler has been told. *)
Definition update_done {json : config.JSON} (h h' : management.Handler) (p : ptr) (c' : config.Config)
    (l : list Event) (w w' : World) : Prop :=
  events w' = (events w ++ l)%list /\
  Forall (fun e => is_query e = false) l /\
  In (SaveConfig (management.configFilePath h)) l /\
  management.cfg h' = Some p /\
  heap w' = <[p := c']> (heap w) /\
  (management.configFilePath h ∉ unsavable w ->
     saved w' !! management.configFilePath h = Some c') /\
  (side_file_ok (fs w) ->
     holds management.side_file (fs w')
       (config.MarshalIndent
          (document (config.IsReadOnlyStorage c') (config.SyncIntervalMinutes c')))) /\
  scheduler_updated h h' p (config.IsReadOnlyStorage c') l w w'.

(** A file system whose side file holds [data]. *)
Definition fs_with_side_file (data : string) : FS :=
  {| files := {[ management.side_file := data ]}; unreadable := ∅; unwritable := ∅ |}.

(** The scheduler of the deployment, not started yet. *)
Definition s_stopped : store.GitScheduler := store.set_running false s_running.

Definition s_with_callback : store.GitScheduler :=
  store.SetOnSyncComplete (Some 7%nat) s_running.

(** The remote cannot be reached. *)
Definition w_offline : World :=
  {| heap := {[ 0%nat := config_with true 10 ]};
     fs := empty_fs; saved := ∅; unsavable := ∅;
     closed := ∅; next_chan := 1%nat;
     repo := {| refs := ∅; head := commit_local;
                local_changes := [Unstaged "auths/account.json"] |};
     git := {| open_error := None;
               fetch_outcome := FetchFailed (ErrGit "dial tcp: connection refused");
               worktree_error := None; reset_error := None;
               pull_outcome := PullFailed (ErrGit "dial tcp: connection refused") |};
     events := [] |}.

(** The handler of the deployment with a scheduler wired to it. *)
Definition h_wired (s : store.GitScheduler) : management.Handler :=
  management.SetScheduler (Some s) h_unwired.

Definition disable_request : management.Context :=
  body_request {[ "read_only" := ABool false ]}.

(** A request whose body has the JSON number [q] under [key], as
    [ShouldBindJSON] binds it: the number arrives as the [float64]
    nearest to it, and the binding fails when that is out of range. *)
Definition number_request (key : string) (q : Q) : management.Context :=
  match ParseFloat q with
  | Some f => body_request {[ key := AFloat64 f ]}
  | None =>
      {| management.ClientIP := "127.0.0.1"; management.Authorization := "";
         management.XManagementKey := ""; management.Body := None |}
  end.

Definition interval_request (n : Z) : management.Context :=
  number_request "sync_interval_minutes" (inject_Z n).

(** A handler made with [MANAGEMENT_PASSWORD] set. *)
Definition h_env : management.Handler :=
  management.NewHandler (Some 0%nat) "config.yaml" "env-s3cret".

(** * Theorems *)

(** ** The side file: loading and persisting *)

Lemma ReadFile_readable (path : string) (fs : FS) (e : error) :
  ReadFile path fs = inr e -> IsNotExist e = true -> path ∉ unreadable fs.
Proof.
  unfold ReadFile. destruct (decide (path ∈ unreadable fs)) as [Hin | Hout].
  - intros [= <-]. discriminate.
  - intros _ _. exact Hout.
Qed.

Lemma ReadFile_data_readable (path : string) (fs : FS) (data : string) :
  ReadFile path fs = inl data -> path ∉ unreadable fs.
Proof.
  unfold ReadFile. destruct (decide (path ∈ unreadable fs)) as [Hin | Hout].
  - discriminate.
  - intros _. exact Hout.
Qed.

Lemma ReadFile_after_write (path data : string) (fs fs' : FS) :
  WriteFile path data fs = inl fs' -> path ∉ unreadable fs ->
  ReadFile path fs' = inl data.
Proof.
  unfold WriteFile, ReadFile.
  destruct (decide (path ∈ unwritable fs)); [discriminate |].
  intros [= <-] Hr. simpl.
  destruct (decide (path ∈ unreadable fs)); [contradiction |].
  rewrite lookup_insert_eq. reflexivity.
Qed.

Section SideFileTheorems.
Context {json : config.JSON}.

(** Loading a side file that decodes to [doc]. *)
Lemma LoadReadOnlyStorageConfig_decoded (c : config.Config) (path : string) (fs : FS)
    (data : string) (doc : config.ReadOnlyStorageConfig) :
  holds path fs data -> config.Unmarshal data = Some doc ->
  let r := config.LoadReadOnlyStorageConfig c path fs in
  config.IsReadOnlyStorage (fst r) = config.ReadOnly doc /\
  config.SyncIntervalMinutes (fst r) =
    (if 0 <? config.SyncIntervalMinutes_ doc
     then config.SyncIntervalMinutes_ doc
     else config.SyncIntervalMinutes c) /\
  snd r = None.
Proof.
  unfold holds, config.LoadReadOnlyStorageConfig. intros Hdata Hdoc. cbv zeta.
  rewrite Hdata, Hdoc.
  destruct (0 <? config.SyncIntervalMinutes_ doc); simpl; repeat split; reflexivity.
Qed.

(** C6, as amended. Loading the side file into the configuration [c]:
    an absent file gives read-only [false] and no error; a file that
    cannot be read gives an error and leaves [c] as it is, read-only
    included; a file that is read and does not decode gives read-only
    [false] and an error; a file that decodes gives its [read_only], and
    its [sync_interval_minutes] when that is positive, the interval of
    [c] being kept otherwise (zero is what an absent field decodes to).
    A path is in one of the four cases. *)
Theorem C6_load_side_file (c : config.Config) (path : string) (fs : FS) :
  let r := config.LoadReadOnlyStorageConfig c path fs in
  (absent path fs \/ path ∈ unreadable fs \/ exists data, holds path fs data) /\
  (absent path fs ->
     config.IsReadOnlyStorage (fst r) = false /\ snd r = None) /\
  (path ∈ unreadable fs -> fst r = c /\ is_Some (snd r)) /\
  (forall data, holds path fs data -> config.Unmarshal data = None ->
     config.IsReadOnlyStorage (fst r) = false /\ is_Some (snd r)) /\
  (forall data doc, holds path fs data -> config.Unmarshal data = Some doc ->
     config.IsReadOnlyStorage (fst r) = config.ReadOnly doc /\
     config.SyncIntervalMinutes (fst r) =
       (if 0 <? config.SyncIntervalMinutes_ doc
        then config.SyncIntervalMinutes_ doc
        else config.SyncIntervalMinutes c) /\
     snd r = None).
Proof.
  unfold absent, holds, config.LoadReadOnlyStorageConfig. cbv zeta.
  split; [| split; [| split; [| split]]].
  - unfold ReadFile. destruct (decide (path ∈ unreadable fs)); [tauto |].
    destruct (files fs !! path); eauto.
  - intros Habs. rewrite Habs. simpl. split; reflexivity.
  - intros Hunreadable. unfold ReadFile.
    destruct (decide (path ∈ unreadable fs)); [| contradiction].
    simpl. split; [reflexivity | eauto].
  - intros data Hdata Hbad. rewrite Hdata, Hbad. simpl. split; [reflexivity | eauto].
  - intros data doc Hdata Hdoc.
    exact (LoadReadOnlyStorageConfig_decoded c path fs data doc Hdata Hdoc).
Qed.

Lemma PersistReadOnlyState_succeeds (readOnly : bool) (syncMinutes : Z)
    (path : string) (fs : FS) :
  path ∉ unreadable fs -> path ∉ unwritable fs ->
  is_Some (config.Unmarshal (default config.default_document (files fs !! path))) ->
  snd (config.PersistReadOnlyState readOnly syncMinutes path fs) = None.
Proof.
  intros Hr Hw [doc Hdoc]. unfold config.PersistReadOnlyState, ReadFile, WriteFile.
  destruct (decide (path ∈ unreadable fs)); [contradiction |].
  destruct (decide (path ∈ unwritable fs)); [contradiction |].
  destruct (files fs !! path) as [data |]; simpl in *; rewrite Hdoc; reflexivity.
Qed.

(** C8, as amended. When persisting [readOnly] and [syncMinutes]
    succeeds and the JSON library decodes the document it has just
    encoded, loading from the same path gives read-only [readOnly]
    without an error; the interval in memory is [syncMinutes] when that
    is positive, and stays what it was when it is zero or negative. *)
Theorem C8_persist_then_load (readOnly : bool) (syncMinutes : Z) (path : string)
    (fs : FS) (c : config.Config) :
  let doc := {| config.ReadOnly := readOnly;
                config.SyncIntervalMinutes_ := syncMinutes |} in
  let p := config.PersistReadOnlyState readOnly syncMinutes path fs in
  let r := config.LoadReadOnlyStorageConfig c path (fst p) in
  snd p = None ->
  config.Unmarshal (config.MarshalIndent doc) = Some doc ->
  config.IsReadOnlyStorage (fst r) = readOnly /\
  config.SyncIntervalMinutes (fst r) =
    (if 0 <? syncMinutes then syncMinutes else config.SyncIntervalMinutes c) /\
  snd r = None.
Proof.
  cbv zeta. intros Hok Hrt.
  assert (Hfile : ReadFile path
            (fst (config.PersistReadOnlyState readOnly syncMinutes path fs))
          = inl (config.MarshalIndent
                   {| config.ReadOnly := readOnly;
                      config.SyncIntervalMinutes_ := syncMinutes |})).
  { revert Hok. unfold config.PersistReadOnlyState.
    destruct (ReadFile path fs) as [data | err] eqn:Hread.
    - destruct (config.Unmarshal data); [| discriminate].
      destruct (WriteFile path _ fs) as [fs' | e] eqn:Hwrite; [| discriminate].
      intros _. simpl. eapply ReadFile_after_write; [exact Hwrite |].
      eapply ReadFile_data_readable; exact Hread.
    - destruct (IsNotExist err) eqn:Hne; simpl; [| discriminate].
      destruct (config.Unmarshal config.default_document); [| discriminate].
      destruct (WriteFile path _ fs) as [fs' | e] eqn:Hwrite; [| discriminate].
      intros _. simpl. eapply ReadFile_after_write; [exact Hwrite |].
      eapply ReadFile_readable; [exact Hread | exact Hne]. }
  exact (LoadReadOnlyStorageConfig_decoded c path _ _ _ Hfile Hrt).
Qed.
End SideFileTheorems.

(** The scenario of section 8: after loading, read-only is on and the
    interval is ten minutes. *)
Lemma C6_load_side_file_witness :
  config.IsReadOnlyStorage
    (fst (config.LoadReadOnlyStorageConfig (json := encoding_json.json)
            (config_with false 5) management.side_file scenario_fs)) = true /\
  config.SyncIntervalMinutes
    (fst (config.LoadReadOnlyStorageConfig (json := encoding_json.json)
            (config_with false 5) management.side_file scenario_fs)) = 10.
Proof.
  destruct (C6_load_side_file (json := encoding_json.json)
              (config_with false 5) management.side_file scenario_fs)
    as (_ & _ & _ & _ & Hvalid).
  specialize (Hvalid scenario_document
                {| config.ReadOnly := true; config.SyncIntervalMinutes_ := 10 |}).
  destruct Hvalid as (Hro & Hint & _); [vm_compute; reflexivity | vm_compute; reflexivity |].
  split; [exact Hro | exact Hint].
Defined.

(** C6 as stated fails: a side file that is there, does not decode and
    cannot be read gives an error, and read-only stays on. *)
Lemma C6_counterexample :
  ~ (forall (json : config.JSON) (c : config.Config) (path : string) (fs : FS)
            (data : string),
       files fs !! path = Some data -> config.Unmarshal data = None ->
       let r := config.LoadReadOnlyStorageConfig c path fs in
       config.IsReadOnlyStorage (fst r) = false /\ is_Some (snd r)).
Proof.
  intros Hclaim.
  destruct (Hclaim encoding_json.json (config_with true 10) management.side_file
              unreadable_fs "{") as [Hflag _];
    [vm_compute; reflexivity | vm_compute; reflexivity |].
  vm_compute in Hflag. discriminate Hflag.
Qed.

(** C8 as stated fails: persisting the interval zero and loading again
    leaves the interval that was in memory, five here. *)
Lemma C8_round_trip_counterexample :
  ~ (forall (json : config.JSON) (readOnly : bool) (syncMinutes : Z) (path : string)
            (fs : FS) (c : config.Config),
       let fs' := fst (config.PersistReadOnlyState readOnly syncMinutes path fs) in
       let c' := fst (config.LoadReadOnlyStorageConfig c path fs') in
       config.IsReadOnlyStorage c' = readOnly /\
       config.SyncIntervalMinutes c' = syncMinutes).
Proof.
  intros Hclaim.
  specialize (Hclaim encoding_json.json true 0 management.side_file empty_fs
                (config_with false 5)).
  vm_compute in Hclaim. destruct Hclaim as [_ Hclaim]. discriminate Hclaim.
Qed.

(** Persisting read-only with thirty minutes into an empty directory and
    loading again gives read-only and thirty minutes. *)
Lemma C8_persist_then_load_witness :
  config.IsReadOnlyStorage
    (fst (config.LoadReadOnlyStorageConfig (json := encoding_json.json)
            (config_with false 5) management.side_file
            (fst (config.PersistReadOnlyState (json := encoding_json.json)
                    true 30 management.side_file empty_fs)))) = true /\
  config.SyncIntervalMinutes
    (fst (config.LoadReadOnlyStorageConfig (json := encoding_json.json)
            (config_with false 5) management.side_file
            (fst (config.PersistReadOnlyState (json := encoding_json.json)
                    true 30 management.side_file empty_fs)))) = 30.
Proof.
  destruct (C8_persist_then_load (json := encoding_json.json)
              true 30 management.side_file empty_fs (config_with false 5))
    as (Hro & Hint & _); [vm_compute; reflexivity | vm_compute; reflexivity |].
  split; [exact Hro | exact Hint].
Defined.

(** ** The scheduler: one synchronisation *)

Lemma new_events_app (w w' : World) (l : list Event) :
  events w' = (events w ++ l)%list -> new_events w w' = l.
Proof. intros Hev. unfold new_events. rewrite Hev. apply drop_app_length. Qed.

Ltac unfold_m :=
  unfold go_git.PlainOpen_, go_git.Fetch_, go_git.Reference_, go_git.Worktree_,
    go_git.Reset_, go_git.Pull_, EnsureRepository_, TokenStore_HasPendingLocalChanges,
    close, make_chan, read, update, deref, log, emit, panic, bind, ret in *.

Ltac eval_m :=
  repeat (simpl;
          match goal with
          | H : ?l = _ |- context [?l] => progress (rewrite H)
          end);
  simpl.


(** ** Computations that run to the end

    [runs F P m]: from every world [m] returns (it does not panic), adds
    only events that satisfy [P] to the record, and leaves the world
    related to the one it started from by [F]. *)

Lemma frame_framing : framing frame.
Proof.
  split.
  - intros w. repeat split.
  - unfold frame. intros w1 w2 w3 (H1 & H2 & H3 & H4 & H5 & H6 & H7)
      (K1 & K2 & K3 & K4 & K5 & K6 & K7).
    repeat split; congruence.
  - intros w l. repeat split.
Qed.

Lemma same_memory_framing : framing same_memory.
Proof.
  split.
  - intros w. repeat split.
  - unfold same_memory. intros w1 w2 w3 (H1 & H2 & H3) (K1 & K2 & K3).
    repeat split; congruence.
  - intros w l. repeat split.
Qed.

Create HintDb runs.

#[local] Hint Resolve frame_framing same_memory_framing : runs.

Section Runs.
Variable F : World -> World -> Prop.
Variable P : Event -> Prop.
Hypothesis HF : framing F.

Lemma runs_ret {A : Type} (a : A) : runs F P (ret a).
Proof.
  intros w. exists a, w, []. rewrite app_nil_r.
  repeat split; [constructor | apply (framing_refl F HF)].
Qed.

Lemma runs_bind {A B : Type} (m : M A) (k : A -> M B) :
  runs F P m -> (forall a, runs F P (k a)) -> runs F P (bind m k).
Proof.
  intros Hm Hk w. destruct (Hm w) as (a & w1 & l1 & Hrun1 & Hev1 & HP1 & Hfr1).
  destruct (Hk a w1) as (b & w2 & l2 & Hrun2 & Hev2 & HP2 & Hfr2).
  exists b, w2, (l1 ++ l2)%list. unfold bind. rewrite Hrun1, Hrun2.
  split; [reflexivity |]. split; [rewrite Hev2, Hev1, app_assoc; reflexivity |].
  split; [apply Forall_app; split; assumption |].
  exact (framing_trans F HF _ _ _ Hfr1 Hfr2).
Qed.

Lemma runs_emit (e : Event) : P e -> runs F P (emit e).
Proof.
  intros HP w. exists tt, (with_events (events w ++ [e]) w), [e].
  repeat split; [constructor; [exact HP | constructor] | apply (framing_events F HF)].
Qed.

Lemma runs_log (lvl : Level) (msg : string) : P (Log lvl msg) -> runs F P (log lvl msg).
Proof. apply runs_emit. Qed.

Lemma runs_read {A : Type} (f : config.Config -> A) (p : ptr) : runs F P (read f p).
Proof.
  intros w. exists (f (load p w)), w, []. rewrite app_nil_r.
  repeat split; [constructor | apply (framing_refl F HF)].
Qed.

(** A step that answers from the world and changes nothing. *)
Lemma runs_ask {A : Type} (f : World -> A) : runs F P (fun w => Val (f w) w).
Proof.
  intros w. exists (f w), w, []. rewrite app_nil_r.
  repeat split; [constructor | apply (framing_refl F HF)].
Qed.

Lemma log_then_runs {A : Type} (lvl : Level) (msg : string) (k : M A) (w : World) :
  runs F P k ->
  exists a w' l,
    (log lvl msg;; k) w = Val a w' /\
    events w' = (events w ++ Log lvl msg :: l)%list /\
    Forall P l /\ F w w'.
Proof.
  intros Hk.
  destruct (Hk (with_events (events w ++ [Log lvl msg]) w))
    as (a & w' & l & Hrun & Hev & HP & Hfr).
  exists a, w', l. unfold bind, log, emit. rewrite Hrun.
  split; [reflexivity |]. split; [| split; [exact HP |]].
  - rewrite Hev. simpl. rewrite <- app_assoc. reflexivity.
  - exact (framing_trans F HF _ _ _ (framing_events F HF w _) Hfr).
Qed.
End Runs.

Section GitPrimitives.
Variable P : Event -> Prop.

Lemma runs_PlainOpen (dir : string) :
  P (Git (PlainOpen dir)) -> runs frame P (go_git.PlainOpen_ dir).
Proof.
  intros HP. apply runs_bind; [exact frame_framing | apply runs_emit; auto with runs |].
  intros _. apply runs_ask, frame_framing.
Qed.

Lemma runs_Fetch (remote : string) (force : bool) :
  P (Git (Fetch remote force)) -> runs frame P (go_git.Fetch_ remote force).
Proof.
  intros HP. apply runs_bind; [exact frame_framing | apply runs_emit; auto with runs |].
  intros _ w. destruct (fetch_outcome (git w)) eqn:Hf;
    eexists _, _, []; rewrite app_nil_r; repeat split; auto.
Qed.

Lemma runs_Reference (name : string) :
  P (Git (Reference name)) -> runs frame P (go_git.Reference_ name).
Proof.
  intros HP. apply runs_bind; [exact frame_framing | apply runs_emit; auto with runs |].
  intros _. apply runs_ask, frame_framing.
Qed.

Lemma runs_Worktree : P (Git Worktree) -> runs frame P go_git.Worktree_.
Proof.
  intros HP. apply runs_bind; [exact frame_framing | apply runs_emit; auto with runs |].
  intros _. apply runs_ask, frame_framing.
Qed.

Lemma runs_Reset (commit : Hash) (mode : ResetMode) :
  P (Git (Reset commit mode)) -> runs frame P (go_git.Reset_ commit mode).
Proof.
  intros HP. apply runs_bind; [exact frame_framing | apply runs_emit; auto with runs |].
  intros _ w. destruct (reset_error (git w));
    eexists _, _, []; rewrite app_nil_r; repeat split; auto.
Qed.

Lemma runs_Pull (remote : string) (force : bool) :
  P (Git (Pull remote force)) -> runs frame P (go_git.Pull_ remote force).
Proof.
  intros HP. apply runs_bind; [exact frame_framing | apply runs_emit; auto with runs |].
  intros _ w. destruct (pull_outcome (git w));
    eexists _, _, []; rewrite app_nil_r; repeat split; auto.
Qed.

Lemma runs_EnsureRepository (ts : GitTokenStore) :
  P EnsureRepository -> runs frame P (EnsureRepository_ ts).
Proof.
  intros HP. apply runs_bind; [exact frame_framing | apply runs_emit; auto with runs |].
  intros _. apply runs_ret, frame_framing.
Qed.
End GitPrimitives.

(** Walks a computation built from the primitives above. *)
Ltac runs_step :=
  match goal with
  | |- runs _ _ (bind _ _) => apply runs_bind; [auto with runs | | intros ?]
  | |- runs _ _ (ret _) => apply runs_ret; auto with runs
  | |- runs _ _ (log _ _) => apply runs_log; [auto with runs |]
  | |- runs _ _ (emit _) => apply runs_emit; [auto with runs |]
  | |- runs _ _ (read _ _) => apply runs_read; auto with runs
  | |- runs _ _ (go_git.PlainOpen_ _) => apply runs_PlainOpen
  | |- runs _ _ (go_git.Fetch_ _ _) => apply runs_Fetch
  | |- runs _ _ (go_git.Reference_ _) => apply runs_Reference
  | |- runs _ _ go_git.Worktree_ => apply runs_Worktree
  | |- runs _ _ (go_git.Reset_ _ _) => apply runs_Reset
  | |- runs _ _ (go_git.Pull_ _ _) => apply runs_Pull
  | |- runs _ _ (EnsureRepository_ _) => apply runs_EnsureRepository
  | |- runs _ _ (match ?x with _ => _ end) => destruct x
  | |- runs _ _ (if ?b then _ else _) => destruct b
  | |- runs _ _ (let _ := _ in _) => cbv zeta
  end.

Lemma pullChanges_runs (s : store.GitScheduler) (ts : GitTokenStore) :
  store.tokenStore s = Some ts ->
  runs frame (fun e => is_pull e = false) (store.pullChanges s).
Proof.
  intros Hts. unfold store.pullChanges. rewrite Hts. unfold deref.
  repeat runs_step; reflexivity.
Qed.

(** ** The loop of the scheduler *)

Lemma Duration_mul_exact (m : Z) :
  - max_interval_minutes <= m <= max_interval_minutes ->
  Duration_mul m Minute = m * Minute.
Proof.
  unfold Duration_mul, wrap64, max_interval_minutes, Minute, Second. intros Hm.
  rewrite Z.mod_small; lia.
Qed.

Lemma timer_for_wrapped (m : Z) :
  - max_interval_minutes <= m <= max_interval_minutes ->
  (if Duration_mul m Minute <=? 0 then 60 * Minute else Duration_mul m Minute)
  = timer_for m.
Proof.
  intros Hm. rewrite (Duration_mul_exact m Hm). unfold timer_for, Minute, Second.
  destruct (Z.leb_spec (m * (60 * 1000000000)) 0), (Z.ltb_spec 0 m); lia.
Qed.

(** Equality of two results whose records of events differ by the
    bracketing of [++]. *)
Ltac world_eq :=
  f_equal; unfold with_events, with_closed; simpl; f_equal;
  rewrite <- ?app_assoc; reflexivity.

Lemma sync_spec (s : store.GitScheduler) (ts : GitTokenStore) (c : ptr) (w : World) :
  store.tokenStore s = Some ts -> store.config s = Some c ->
  exists err w1 l,
    store.sync s w = Val err w1 /\
    events w1 = (events w ++ sync_started :: l)%list /\
    Forall (fun e => is_pull e = false) l /\ frame w w1.
Proof.
  intros Hts Hc. unfold store.sync, sync_started.
  apply log_then_runs; [exact frame_framing |].
  rewrite Hts, Hc. unfold deref.
  repeat runs_step; try reflexivity.
  eapply pullChanges_runs; eassumption.
Qed.

(** X2. The loop of [store]: a round that finds read-only on runs [sync]
    to its end first, then arms the timer, then waits; the timer is the
    configured number of minutes when that is positive and sixty minutes
    when it is zero or negative (for a number of minutes whose
    nanoseconds fit a [time.Duration]). *)
Theorem run_iteration_syncs_then_waits (s : store.GitScheduler) (ts : GitTokenStore)
    (c : ptr) (wake : Wake) (w : World) :
  store.running s = true ->
  store.config s = Some c ->
  store.tokenStore s = Some ts ->
  config.IsReadOnlyStorage (load c w) = true ->
  - max_interval_minutes <= config.SyncIntervalMinutes (load c w) <= max_interval_minutes ->
  exists err w1 l,
    store.sync s w = Val err w1 /\
    events w1 = (events w ++ sync_started :: l)%list /\
    store.run_iteration s wake w =
      Val (step_of wake)
        (with_events
           (events w1 ++ sync_failed err
              ++ NewTimer (timer_for (config.SyncIntervalMinutes (load c w)))
              :: after_timer wake) w1).
Proof.
  intros Hrun Hc Hts Hro Hm.
  destruct (sync_spec s ts c w Hts Hc) as (err & w1 & l & Hsync & Hev & _ & Hfr).
  exists err, w1, l. split; [exact Hsync |]. split; [exact Hev |].
  unfold store.run_iteration. rewrite Hrun, Hc. simpl.
  unfold read at 1. unfold bind at 1. rewrite Hro.
  unfold bind at 1. rewrite Hsync.
  destruct Hfr as (Hheap & _).
  pose proof (timer_for_wrapped _ Hm) as Htimer.
  unfold config.SyncIntervalMinutes, load in *.
  destruct err as [e |], wake; unfold_m; unfold load; simpl; rewrite Hheap, Htimer;
    world_eq.
Qed.

(** The same round in the copy at [internal/store/scheduler.go], when
    the stop signal comes before the timer: the timer is armed and no
    synchronisation is made at all. *)
Lemma v1_run_iteration_cancelled (s : store.GitScheduler) (c : ptr) (w : World) :
  store.running s = true ->
  store.config s = Some c ->
  config.IsReadOnlyStorage (load c w) = true ->
  - max_interval_minutes <= config.SyncIntervalMinutes (load c w) <= max_interval_minutes ->
  store_v1.run_iteration s Cancelled w =
    Val Return
      (with_events
         (events w ++ [NewTimer (timer_for (config.SyncIntervalMinutes (load c w)));
                       TimerStop; Log Info "Git scheduler stopped"]) w).
Proof.
  intros Hrun Hc Hro Hm.
  unfold store_v1.run_iteration. rewrite Hrun, Hc. simpl.
  unfold read at 1. unfold bind at 1.
  unfold config.IsReadOnlyStorage in Hro. rewrite Hro.
  pose proof (timer_for_wrapped _ Hm) as Htimer.
  unfold config.SyncIntervalMinutes, load in *.
  unfold_m; unfold load; simpl. rewrite Htimer.
  world_eq.
Qed.

(** ** A concrete deployment *)

(** C1 on the copy at [internal/store/scheduler.go]: with read-only on,
    a synchronisation opens the repository, takes the worktree and pulls
    from [origin] without [Force]; it makes no fetch of its own, looks up
    no reference and makes no reset. The pull moves [HEAD] and stops at
    the file modified locally: the synchronisation returns its error and
    the file is still modified afterwards. *)
Theorem C1_scheduler_go_pull_keeps_local_changes :
  let w' := world_of (store_v1.sync s_running (w_read_only 10)) in
  store_v1.sync s_running (w_read_only 10) =
    Val (Some (Wrap "failed to pull changes"
                 (Wrap "failed to pull changes" ErrUnstagedChanges))) w' /\
  git_calls (events w') = [PlainOpen "/data/repo"; Worktree; Pull "origin" false] /\
  head (repo w') = commit_remote /\
  local_changes (repo w') = [Unstaged "auths/account.json"].
Proof. vm_compute. repeat split. Qed.

(** In every world the pull of that copy leaves a working copy with an
    unstaged modification as it finds it. *)
Lemma v1_pullChanges_keeps_local_changes (s : store.GitScheduler) (w : World) :
  existsb is_unstaged (local_changes (repo w)) = true ->
  local_changes (repo (world_of (store_v1.pullChanges s w))) = local_changes (repo w).
Proof.
  intros Hunstaged. unfold store_v1.pullChanges.
  destruct (store.tokenStore s) as [ts |]; [| reflexivity].
  unfold repoDirSnapshot. unfold_m. simpl.
  destruct (String.eqb (repoDir ts) ""); [reflexivity |]. simpl.
  destruct (open_error (git w)); [reflexivity |]. simpl.
  destruct (worktree_error (git w)); [reflexivity |]. simpl.
  destruct (pull_outcome (git w)) as [commit | | e]; [| reflexivity |].
  - unfold go_git.reset_repo. simpl. rewrite Hunstaged. reflexivity.
  - destruct e; reflexivity.
Qed.

(** It calls the library for nothing but the opening, the worktree and
    the pull, whatever the world. *)
Lemma v1_pullChanges_calls (s : store.GitScheduler) (w : World) :
  Forall (fun c => match c with
                   | PlainOpen _ | Worktree | Pull "origin" false => True
                   | _ => False
                   end)
         (git_calls (new_events w (world_of (store_v1.pullChanges s w)))).
Proof.
  unfold store_v1.pullChanges, new_events.
  destruct (store.tokenStore s) as [ts |];
    [| simpl; rewrite drop_all; constructor].
  unfold repoDirSnapshot. unfold_m. simpl.
  destruct (String.eqb (repoDir ts) ""); [simpl; rewrite drop_all; constructor |]. simpl.
  destruct (open_error (git w)); simpl;
    [rewrite drop_app_length; repeat constructor |].
  destruct (worktree_error (git w)); simpl;
    [rewrite <- app_assoc, drop_app_length; repeat constructor |].
  destruct (pull_outcome (git w)) as [commit | | e]; simpl.
  - destruct (existsb is_unstaged (local_changes (repo w)));
      simpl; rewrite <- ?app_assoc, drop_app_length; repeat constructor.
  - rewrite <- ?app_assoc, drop_app_length; repeat constructor.
  - destruct e; simpl; rewrite <- ?app_assoc, drop_app_length; repeat constructor.
Qed.


(** C2 on the copy at [internal/store/scheduler.go]: started with
    read-only on and an interval of ten minutes, the loop arms the
    ten-minute timer first. Stopped before the timer fires, it has made no
    synchronisation at all; when the timer fires, the synchronisation
    comes after the wait. *)
Theorem C2_scheduler_go_waits_before_sync :
  events (world_of (store_v1.run [tick s_running Cancelled] (w_read_only 10))) =
    [Log Info "Git scheduler started"; NewTimer (10 * Minute); TimerStop;
     Log Info "Git scheduler stopped"] /\
  exists rest,
    events (world_of (store_v1.run [tick s_running TimerFired] (w_read_only 10))) =
      Log Info "Git scheduler started" :: NewTimer (10 * Minute) :: sync_started :: rest.
Proof. split; [vm_compute; reflexivity | eexists; vm_compute; reflexivity]. Qed.

(** The round of [store] on the same deployment, the timer firing: the
    synchronisation comes before the ten-minute timer. *)
Lemma run_iteration_syncs_then_waits_witness :
  exists err w1 l,
    store.sync s_running (w_read_only 10) = Val err w1 /\
    events w1 = (events (w_read_only 10) ++ sync_started :: l)%list /\
    store.run_iteration s_running TimerFired (w_read_only 10) =
      Val Continue
        (with_events (events w1 ++ sync_failed err ++ [NewTimer (10 * Minute)]) w1).
Proof.
  apply (run_iteration_syncs_then_waits s_running ts0 0%nat TimerFired (w_read_only 10));
    [reflexivity | reflexivity | reflexivity | reflexivity |].
  vm_compute. split; discriminate.
Defined.

(** Beyond [max_interval_minutes] the multiplication wraps: an interval
    of 200000000 minutes arms a sixty-minute timer, one of 307445735
    minutes a timer of 26 seconds. *)
Lemma run_iteration_interval_overflow :
  In (NewTimer (60 * Minute))
     (events (world_of (store.run_iteration s_running Cancelled (w_read_only 200000000)))) /\
  In (NewTimer 26290448384)
     (events (world_of (store.run_iteration s_running Cancelled (w_read_only 307445735)))).
Proof. split; vm_compute; tauto. Qed.

(** ** Start, Stop and UpdateConfig *)

(** C5, as amended. [UpdateConfig] refuses a nil configuration and
    changes nothing. For a configuration [c]: with read-only on and the
    scheduler stopped it is the call [Start], which ends running with one
    loop launched when the token store is set, and returns the error
    "token store is nil" with the scheduler still stopped when it is not;
    with read-only off and the scheduler running on an open stop channel
    it is the call [Stop], which closes the channel and ends stopped;
    when the flag and the phase agree it only stores [c], launches
    nothing and leaves the world as it was. *)
Theorem C5_UpdateConfig_start_stop (s : store.GitScheduler) (c : ptr) (w : World) :
  let s1 := store.set_config (Some c) s in
  store.UpdateConfig None s w = Val (s, Some (Errorf "configuration is nil")) w /\
  (config.IsReadOnlyStorage (load c w) = true -> store.running s = false ->
     store.UpdateConfig (Some c) s w = store.Start s1 w /\
     (forall ts, store.tokenStore s = Some ts ->
        store.Start s1 w =
          Val (store.set_running true s1, None)
            (with_events
               (events w ++ [Log Info "Starting Git scheduler"; Go (store.stopCh s)]) w)) /\
     (store.tokenStore s = None ->
        store.Start s1 w = Val (s1, Some (Errorf "token store is nil")) w)) /\
  (config.IsReadOnlyStorage (load c w) = false -> store.running s = true ->
     store.stopCh s ∉ closed w ->
     store.UpdateConfig (Some c) s w =
       (let* s' := store.Stop s1 in ret (s', None)) w /\
     store.UpdateConfig (Some c) s w =
       Val (store.set_running false s1, None)
         (with_events
            (events w ++ [Close (store.stopCh s); Log Info "Git scheduler stopped"])
            (with_closed ({[store.stopCh s]} ∪ closed w) w))) /\
  (config.IsReadOnlyStorage (load c w) = store.running s ->
     store.UpdateConfig (Some c) s w = Val (s1, None) w).
Proof.
  cbv zeta. split; [reflexivity |]. split; [| split].
  - intros Hro Hrun. split; [| split].
    + unfold store.UpdateConfig, read, bind. rewrite Hro, Hrun. reflexivity.
    + intros ts Hts. unfold store.Start. simpl. rewrite Hrun.
      unfold_m. simpl. rewrite Hts. world_eq.
    + intros Hts. unfold store.Start. simpl. rewrite Hrun.
      unfold_m. simpl. rewrite Hts. reflexivity.
  - intros Hro Hrun Hopen.
    assert (Heq : store.UpdateConfig (Some c) s w =
                  (let* s' := store.Stop (store.set_config (Some c) s) in ret (s', None)) w).
    { unfold store.UpdateConfig, read, bind. rewrite Hro, Hrun. reflexivity. }
    split; [exact Heq |]. rewrite Heq.
    unfold store.Stop. simpl. rewrite Hrun. unfold_m. simpl.
    destruct (decide (store.stopCh s ∈ closed w)); [contradiction | world_eq].
  - intros Heq. unfold store.UpdateConfig, read, bind. rewrite Heq.
    destruct (store.running s); reflexivity.
Qed.

(** C5 as stated fails: with read-only on and the scheduler stopped,
    [UpdateConfig] does not always end running. *)
Lemma C5_UpdateConfig_counterexample :
  ~ (forall (s : store.GitScheduler) (c : ptr) (w : World),
       config.IsReadOnlyStorage (load c w) = true -> store.running s = false ->
       exists s' e w',
         store.UpdateConfig (Some c) s w = Val (s', e) w' /\ store.running s' = true).
Proof.
  intros Hclaim.
  destruct (Hclaim s_no_store 0%nat (w_read_only 10) eq_refl eq_refl)
    as (s' & e & w' & Hrun & Hphase).
  vm_compute in Hrun. injection Hrun as <- _ _. discriminate Hphase.
Qed.

(** With a token store, turning read-only on starts the scheduler. *)
Lemma C5_UpdateConfig_start_stop_witness :
  store.UpdateConfig (Some 0%nat) (store.set_running false s_running) (w_read_only 10) =
    Val (s_running, None)
      (with_events [Log Info "Starting Git scheduler"; Go 0%nat] (w_read_only 10)).
Proof.
  destruct (C5_UpdateConfig_start_stop (store.set_running false s_running) 0%nat
              (w_read_only 10)) as (_ & Hstart & _).
  destruct (Hstart eq_refl eq_refl) as (Hcall & Hok & _).
  exact (eq_trans Hcall (Hok ts0 eq_refl)).
Defined.

(** X3. [Start] makes a new stop channel only when the scheduler is running.
    After [Start], [Stop], [Start] the scheduler runs on the channel that
    [Stop] closed, and the next [Stop] closes it again. *)
Theorem Stop_after_restart_panics :
  exists w',
    (let* s0 := store.NewGitScheduler (Some 0%nat) (Some ts0) in
     let* '(s1, _) := store.Start s0 in
     let* s2 := store.Stop s1 in
     let* '(s3, _) := store.Start s2 in
     store.Stop s3) (w_read_only 10) = Panic "close of closed channel" w'.
Proof. eexists. vm_compute. reflexivity. Qed.

(** ** The management middleware *)

Ltac middleware_cases :=
  unfold management.Middleware, configured_secret, remote_allowed, banned_at,
    counter_before, management.fail, management.reset, key_not_set in *;
  cbv zeta in *;
  repeat (first
          [ progress simpl in *
          | match goal with
          | H : ?x = _ |- context [?x] => progress (rewrite H)
          | |- context [String.eqb ?s ?s] => rewrite (String.eqb_refl s)
          | |- context [match management.cfg ?h with _ => _ end] =>
              destruct (management.cfg h) eqn:?
          | |- context [if negb ?b then _ else _] => destruct b eqn:?
          | |- context [if ?a && _ then _ else _] => destruct a eqn:?
          | |- context [if ?a || _ then _ else _] => destruct a eqn:?
          | |- context [if ?b then _ else _] => destruct b eqn:?
          | |- context [match ?m !! ?k with _ => _ end] => destruct (m !! k) eqn:?
          | |- context [match management.blockedUntil ?a with _ => _ end] =>
              destruct (management.blockedUntil a) eqn:?
            end ]).

Section MiddlewareTheorems.
Context {bcrypt : Bcrypt}.

(** C10, as amended. Without a secret hash in the configuration and
    without an environment secret every request is refused with 403.
    For a loopback caller the answer is "remote management key not
    set" whatever key it presents and whatever local password is
    configured, and the handler is left as it was; so it is for a
    remote caller that is not banned when remote management is allowed.
    A remote caller that is not banned is told "remote management
    disabled" when remote management is not allowed, and a remote caller
    under a ban that has not expired gets the ban message with the time
    that remains, the handler being left as it was: both answers come
    before the test of the secrets. *)
Theorem C10_no_management_key (h : management.Handler) (c : management.Context)
    (now later : Z) (w : World) :
  configured_secret h w = "" ->
  management.envSecret h = "" ->
  (exists b, snd (management.Middleware h c now later w) =
             management.Abort {| management.status := management.StatusForbidden;
                                 management.body := b |}) /\
  (management.isLocal (management.ClientIP c) = true ->
     management.Middleware h c now later w = (h, management.Abort key_not_set)) /\
  (management.isLocal (management.ClientIP c) = false ->
     banned_at h (management.ClientIP c) now = false ->
     remote_allowed h w = true ->
     snd (management.Middleware h c now later w) = management.Abort key_not_set) /\
  (management.isLocal (management.ClientIP c) = false ->
     banned_at h (management.ClientIP c) now = false ->
     remote_allowed h w = false ->
     snd (management.Middleware h c now later w) = management.Abort remote_disabled) /\
  (management.isLocal (management.ClientIP c) = false ->
     forall ai until,
       management.failedAttempts h !! management.ClientIP c = Some ai ->
       management.blockedUntil ai = Some until ->
       now < until ->
       management.Middleware h c now later w =
         (h, management.Abort
               {| management.status := management.StatusForbidden;
                  management.body :=
                    management.HBanned (Duration_Round (Time_Sub until later) Second) |})).
Proof.
  intros Hhash Henv. split; [| split; [| split; [| split]]].
  - middleware_cases; eauto; congruence.
  - intros Hlocal. middleware_cases; congruence.
  - intros Hlocal Hban Hallow. middleware_cases; congruence.
  - intros Hlocal Hban Hallow. unfold remote_disabled. middleware_cases; congruence.
  - intros Hlocal ai until Hai Huntil Hnow. apply Z.ltb_lt in Hnow.
    unfold management.Middleware. rewrite Hlocal, Hai, Huntil, Hnow. simpl.
    destruct (management.cfg h); reflexivity.
Qed.

Lemma after_ban_check_lookup (h : management.Handler) (ip : string) :
  management.failedAttempts (after_ban_check h ip) !! ip =
    (fun ai => {| management.count := counter_before h ip;
                  management.blockedUntil := None |})
      <$> management.failedAttempts h !! ip.
Proof.
  unfold after_ban_check, counter_before.
  destruct (management.failedAttempts h !! ip) as [ai |] eqn:Hai; simpl; [| exact Hai].
  destruct ai as [n [until |]]; simpl.
  - apply lookup_insert_eq.
  - exact Hai.
Qed.

Lemma fail_lookup (h : management.Handler) (ip : string) (t : Z) :
  management.failedAttempts (management.fail ip t h) !! ip =
    Some (let n := wrap64 (from_option management.count 0
                             (management.failedAttempts h !! ip) + 1) in
          if management.maxFailures <=? n
          then {| management.count := 0;
                  management.blockedUntil := Some (t + management.banDuration) |}
          else {| management.count := n;
                  management.blockedUntil :=
                    management.failedAttempts h !! ip ≫= management.blockedUntil |}).
Proof.
  unfold management.fail. simpl. rewrite lookup_insert_eq.
  destruct (management.failedAttempts h !! ip) as [ai |]; simpl; reflexivity.
Qed.

Lemma reset_lookup (h : management.Handler) (ip : string) :
  management.failedAttempts (management.reset ip h) !! ip =
    (fun _ => no_attempts) <$> management.failedAttempts h !! ip.
Proof.
  unfold management.reset.
  destruct (management.failedAttempts h !! ip) as [ai |] eqn:Hai; simpl.
  - apply lookup_insert_eq.
  - exact Hai.
Qed.

(** What the middleware does with a request of a remote caller. *)
Lemma Middleware_remote (Q : management.Handler * management.Outcome -> Prop)
    (h : management.Handler) (c : management.Context) (now later : Z) (w : World) :
  let ip := management.ClientIP c in
  let h1 := after_ban_check h ip in
  management.isLocal ip = false ->
  banned_at h ip now = false ->
  (forall b, Q (h1, management.Abort {| management.status := management.StatusForbidden;
                                        management.body := b |})) ->
  (forall b, Q (management.fail ip later h1,
                management.Abort {| management.status := management.StatusUnauthorized;
                                    management.body := b |})) ->
  Q (management.reset ip h1, management.Next) ->
  Q (management.Middleware h c now later w).
Proof.
  cbv zeta. intros Hremote Hban H403 H401 Hnext.
  unfold management.Middleware. rewrite Hremote.
  unfold after_ban_check, banned_at in *.
  destruct (management.cfg h) as [p |];
    (destruct (management.failedAttempts h !! management.ClientIP c) as [ai |];
     [ destruct (management.blockedUntil ai) as [until |]; [rewrite Hban |] | ]);
    cbn [negb andb];
    repeat match goal with
           | |- Q (if ?b then _ else _) => destruct b
           end;
    first [ apply H403 | apply H401 | apply Hnext ].
Qed.

Lemma Middleware_banned (h : management.Handler) (c : management.Context)
    (now later : Z) (w : World) (ai : management.attemptInfo) (until : Z) :
  management.isLocal (management.ClientIP c) = false ->
  management.failedAttempts h !! management.ClientIP c = Some ai ->
  management.blockedUntil ai = Some until ->
  now < until ->
  management.Middleware h c now later w =
    (h, management.Abort
          {| management.status := management.StatusForbidden;
             management.body :=
               management.HBanned (Duration_Round (Time_Sub until later) Second) |}).
Proof.
  intros Hremote Hai Huntil Hnow. apply Z.ltb_lt in Hnow.
  unfold management.Middleware. rewrite Hremote, Hai, Huntil, Hnow. simpl.
  destruct (management.cfg h); reflexivity.
Qed.

Lemma not_banned_cases (h : management.Handler) (ip : string) (now : Z) :
  banned_at h ip now = false \/
  exists ai until,
    management.failedAttempts h !! ip = Some ai /\
    management.blockedUntil ai = Some until /\ now < until.
Proof.
  unfold banned_at.
  destruct (management.failedAttempts h !! ip) as [ai |]; [| left; reflexivity].
  destruct (management.blockedUntil ai) as [until |] eqn:Huntil; [| left; reflexivity].
  destruct (Z.ltb_spec now until); [right; eauto | left; reflexivity].
Qed.

Lemma counter_before_bounds (h : management.Handler) (ip : string) :
  attempts_ok h -> 0 <= counter_before h ip < management.maxFailures.
Proof.
  intros Hok. unfold counter_before.
  destruct (management.failedAttempts h !! ip) as [ai |] eqn:Hai;
    [| unfold management.maxFailures; lia].
  destruct (management.blockedUntil ai);
    [unfold management.maxFailures; lia | exact (Hok ip ai Hai)].
Qed.

(** C4. For a caller that is not local, with every counter of the map
    below the threshold: an answer 401 (a failed authentication) leaves
    the caller's counter one higher, or, when that reaches five, zero
    with a ban until thirty minutes after the clock read by [fail];
    while a ban has not expired every request of the caller is answered
    403 with the remaining time, whatever key it presents and whatever
    secrets are configured, and the handler is left as it was; and a
    request that is let through leaves a tracked caller with counter
    zero and no ban. *)
Theorem C4_attempt_tracking (h : management.Handler) (c : management.Context)
    (now later : Z) (w : World) :
  let ip := management.ClientIP c in
  let r := management.Middleware h c now later w in
  management.isLocal ip = false ->
  attempts_ok h ->
  ((exists b, snd r = management.Abort
                        {| management.status := management.StatusUnauthorized;
                           management.body := b |}) ->
     management.failedAttempts (fst r) !! ip =
       Some (if counter_before h ip + 1 <? management.maxFailures
             then {| management.count := counter_before h ip + 1;
                     management.blockedUntil := None |}
             else {| management.count := 0;
                     management.blockedUntil :=
                       Some (later + management.banDuration) |})) /\
  (forall ai until,
     management.failedAttempts h !! ip = Some ai ->
     management.blockedUntil ai = Some until ->
     now < until ->
     r = (h, management.Abort
               {| management.status := management.StatusForbidden;
                  management.body :=
                    management.HBanned
                      (Duration_Round (Time_Sub until later) Second) |})) /\
  (snd r = management.Next ->
     management.failedAttempts (fst r) !! ip =
       (fun _ => no_attempts) <$> management.failedAttempts h !! ip).
Proof.
  cbv zeta. intros Hremote Hok.
  pose proof (counter_before_bounds h (management.ClientIP c) Hok) as Hn.
  split; [| split].
  - destruct (not_banned_cases h (management.ClientIP c) now)
      as [Hfree | (ai & until & Hai & Huntil & Hnow)].
    + pattern (management.Middleware h c now later w).
      apply Middleware_remote; [exact Hremote | exact Hfree | ..].
      * intros b [b' Hb]. discriminate Hb.
      * intros b _. cbn [fst]. rewrite fail_lookup, after_ban_check_lookup.
        set (cb := counter_before h (management.ClientIP c)) in *.
        assert (Hcount :
                  from_option management.count 0
                    ((fun _ => {| management.count := cb;
                                  management.blockedUntil := None |})
                       <$> management.failedAttempts h !! management.ClientIP c) = cb).
        { subst cb. unfold counter_before.
          destruct (management.failedAttempts h !! management.ClientIP c); reflexivity. }
        assert (Hblocked :
                  ((fun _ => {| management.count := cb;
                                management.blockedUntil := None |})
                     <$> management.failedAttempts h !! management.ClientIP c)
                    ≫= management.blockedUntil = None).
        { destruct (management.failedAttempts h !! management.ClientIP c); reflexivity. }
        cbv zeta. rewrite Hcount, Hblocked.
        unfold management.maxFailures, wrap64 in *.
        rewrite Z.mod_small by lia.
        replace (cb + 1 + 2 ^ 63 - 2 ^ 63) with (cb + 1) by lia.
        destruct (Z.leb_spec 5 (cb + 1)), (Z.ltb_spec (cb + 1) 5); try lia; reflexivity.
      * intros [b Hb]. discriminate Hb.
    + rewrite (Middleware_banned h c now later w ai until Hremote Hai Huntil Hnow).
      intros [b Hb]. discriminate Hb.
  - intros ai until. apply Middleware_banned. exact Hremote.
  - destruct (not_banned_cases h (management.ClientIP c) now)
      as [Hfree | (ai & until & Hai & Huntil & Hnow)].
    + pattern (management.Middleware h c now later w).
      apply Middleware_remote; [exact Hremote | exact Hfree | ..].
      * intros b Hb. discriminate Hb.
      * intros b Hb. discriminate Hb.
      * intros _. cbn [fst]. rewrite reset_lookup, after_ban_check_lookup.
        destruct (management.failedAttempts h !! management.ClientIP c); reflexivity.
    + rewrite (Middleware_banned h c now later w ai until Hremote Hai Huntil Hnow).
      intros Hb. discriminate Hb.
Qed.

Lemma attempts_ok_insert (h : management.Handler) (ip : string)
    (ai : management.attemptInfo) :
  attempts_ok h ->
  0 <= management.count ai < management.maxFailures ->
  attempts_ok (management.set_failedAttempts
                 (<[ip := ai]> (management.failedAttempts h)) h).
Proof.
  intros Hok Hai ip' ai'. simpl.
  destruct (decide (ip = ip')) as [<- | Hne].
  - rewrite lookup_insert_eq. intros [= <-]. exact Hai.
  - rewrite lookup_insert_ne by exact Hne. apply Hok.
Qed.

Lemma attempts_ok_after_ban_check (h : management.Handler) (ip : string) :
  attempts_ok h -> attempts_ok (after_ban_check h ip).
Proof.
  intros Hok. unfold after_ban_check.
  destruct (management.failedAttempts h !! ip) as [ai |]; [| exact Hok].
  destruct (management.blockedUntil ai); [| exact Hok].
  apply attempts_ok_insert; [exact Hok |].
  unfold management.maxFailures. simpl. lia.
Qed.

Lemma attempts_ok_fail (h : management.Handler) (ip : string) (t : Z) :
  attempts_ok h -> attempts_ok (management.fail ip t h).
Proof.
  intros Hok. unfold management.fail.
  apply attempts_ok_insert; [exact Hok |].
  assert (Hn : 0 <= management.count
                      match management.failedAttempts h !! ip with
                      | Some aip => aip
                      | None => {| management.count := 0;
                                   management.blockedUntil := None |}
                      end < management.maxFailures).
  { destruct (management.failedAttempts h !! ip) as [ai |] eqn:Hai;
      [exact (Hok ip ai Hai) | unfold management.maxFailures; simpl; lia]. }
  revert Hn. generalize (management.count
                           match management.failedAttempts h !! ip with
                           | Some aip => aip
                           | None => {| management.count := 0;
                                        management.blockedUntil := None |}
                           end).
  intros n Hn. unfold management.maxFailures, wrap64 in *. simpl.
  rewrite Z.mod_small by lia.
  destruct (Z.leb_spec 5 (n + 1 + 2 ^ 63 - 2 ^ 63)); simpl; lia.
Qed.

Lemma attempts_ok_reset (h : management.Handler) (ip : string) :
  attempts_ok h -> attempts_ok (management.reset ip h).
Proof.
  intros Hok. unfold management.reset.
  destruct (management.failedAttempts h !! ip); [| exact Hok].
  apply attempts_ok_insert; [exact Hok |].
  unfold management.maxFailures. simpl. lia.
Qed.

Lemma Middleware_local_handler (h : management.Handler) (c : management.Context)
    (now later : Z) (w : World) :
  management.isLocal (management.ClientIP c) = true ->
  fst (management.Middleware h c now later w) = h.
Proof.
  intros Hlocal. unfold management.Middleware. rewrite Hlocal.
  destruct (management.cfg h) as [p |]; cbn [negb andb];
    repeat match goal with
           | |- fst (if ?b then _ else _) = _ => destruct b
           end; reflexivity.
Qed.

(** The counters stay below the threshold: the invariant of the map of
    failed attempts. *)
Lemma Middleware_attempts_ok (h : management.Handler) (c : management.Context)
    (now later : Z) (w : World) :
  attempts_ok h -> attempts_ok (fst (management.Middleware h c now later w)).
Proof.
  intros Hok.
  destruct (management.isLocal (management.ClientIP c)) eqn:Hlocal.
  - rewrite Middleware_local_handler by exact Hlocal. exact Hok.
  - destruct (not_banned_cases h (management.ClientIP c) now)
      as [Hfree | (ai & until & Hai & Huntil & Hnow)].
    + pattern (management.Middleware h c now later w).
      apply Middleware_remote; [exact Hlocal | exact Hfree | ..]; cbn [fst].
      * intros _. apply attempts_ok_after_ban_check, Hok.
      * intros _. apply attempts_ok_fail, attempts_ok_after_ban_check, Hok.
      * apply attempts_ok_reset, attempts_ok_after_ban_check, Hok.
    + rewrite (Middleware_banned h c now later w ai until Hlocal Hai Huntil Hnow).
      exact Hok.
Qed.
End MiddlewareTheorems.

Lemma NewHandler_attempts_ok (c : option ptr) (path env : string) :
  attempts_ok (management.NewHandler c path env).
Proof. intros ip ai Hai. simpl in Hai. rewrite lookup_empty in Hai. discriminate Hai. Qed.

(** ** A concrete server *)

Lemma serve_attempts_ok (reqs : list (string * Z)) (h : management.Handler) :
  attempts_ok h -> attempts_ok (fst (serve h reqs)).
Proof.
  revert h. induction reqs as [| [key t] reqs IH]; intros h Hok; [exact Hok |].
  simpl.
  pose proof (Middleware_attempts_ok (bcrypt := toy_bcrypt) h (request remote_ip key)
                t t w_remote Hok) as Hstep.
  destruct (management.Middleware h (request remote_ip key) t t w_remote) as [h1 o].
  specialize (IH h1 Hstep). destruct (serve h1 reqs) as [h2 os]. exact IH.
Qed.

(** The scenario of section 8: five wrong keys, then the right key one
    second later is refused with the ban message (29m59s to go); thirty
    minutes after the fifth failure the right key is let through and the
    counter is back to zero. *)
Lemma five_failures_then_ban :
  let wrong t := ("guess", t * Second) in
  let '(h, outcomes) :=
    serve h_remote [wrong 1; wrong 2; wrong 3; wrong 4; wrong 5;
                    ("s3cret", 6 * Second); ("s3cret", (5 + 1800) * Second)] in
  nth_error outcomes 5 =
    Some (management.Abort
            {| management.status := management.StatusForbidden;
               management.body := management.HBanned (1799 * Second) |}) /\
  nth_error outcomes 6 = Some management.Next /\
  management.failedAttempts h !! remote_ip = Some no_attempts.
Proof. vm_compute. repeat split. Qed.

(** The fifth failure in a row: the counter goes from four to zero and
    the ban runs for thirty minutes from the time of the failure. *)
Lemma C4_attempt_tracking_witness :
  let h4 := fst (serve h_remote [("a", 1); ("b", 2); ("c", 3); ("d", 4)]) in
  management.failedAttempts
    (fst (management.Middleware (bcrypt := toy_bcrypt) h4 (request remote_ip "e")
            5 5 w_remote)) !! remote_ip =
    Some {| management.count := 0;
            management.blockedUntil := Some (5 + 30 * Minute) |}.
Proof.
  cbv zeta.
  destruct (C4_attempt_tracking (bcrypt := toy_bcrypt)
              (fst (serve h_remote [("a", 1); ("b", 2); ("c", 3); ("d", 4)]))
              (request remote_ip "e") 5 5 w_remote) as (Hfail & _ & _).
  - reflexivity.
  - apply serve_attempts_ok, NewHandler_attempts_ok.
  - apply Hfail. eexists. vm_compute. reflexivity.
Defined.

(** C10 as stated fails: a remote caller of a server that does not allow
    remote management is told "remote management disabled". *)
Lemma C10_counterexample :
  ~ (forall (bcrypt : Bcrypt) (h : management.Handler) (c : management.Context)
            (now later : Z) (w : World),
       configured_secret h w = "" -> management.envSecret h = "" ->
       snd (management.Middleware h c now later w) = management.Abort key_not_set).
Proof.
  intros Hclaim.
  specialize (Hclaim toy_bcrypt h_remote (request remote_ip "s3cret") 0 0
                (w_read_only 10) eq_refl eq_refl).
  vm_compute in Hclaim. discriminate Hclaim.
Qed.

(** A loopback caller with the right local password is refused all the
    same when no management key is set. *)
Lemma C10_no_management_key_witness :
  management.Middleware (bcrypt := toy_bcrypt) h_local_password
    (request "127.0.0.1" "letmein") 0 0 (w_read_only 10) =
  (h_local_password, management.Abort key_not_set).
Proof.
  destruct (C10_no_management_key (bcrypt := toy_bcrypt) h_local_password
              (request "127.0.0.1" "letmein") 0 0 (w_read_only 10) eq_refl eq_refl)
    as (_ & Hlocal & _).
  exact (Hlocal eq_refl).
Defined.

(** ** The storage handlers *)



Section HandlerLemmas.
Context {json : config.JSON}.
Variable P : Event -> Prop.
Hypothesis P_log : forall lvl msg, P (Log lvl msg).
Hypothesis P_save : forall path, P (SaveConfig path).

Lemma SaveConfigPreserveComments_runs (path : string) (cfg : option ptr) :
  runs same_memory P (management.SaveConfigPreserveComments path cfg).
Proof.
  unfold management.SaveConfigPreserveComments.
  apply runs_bind; [exact same_memory_framing | apply runs_emit; auto with runs |].
  intros _ w. destruct (decide (path ∈ unsavable w)); [| destruct cfg];
    eexists _, _, []; rewrite app_nil_r; repeat split; auto.
Qed.

Lemma persistConfig_runs (h : management.Handler) :
  runs same_memory P (management.persistConfig h).
Proof.
  unfold management.persistConfig, management.persist.
  apply runs_bind; [exact same_memory_framing | | ].
  - apply runs_bind; [exact same_memory_framing |
                      apply SaveConfigPreserveComments_runs |].
    intros [e |]; apply runs_ret, same_memory_framing.
  - intros [ok r]. apply runs_ret, same_memory_framing.
Qed.

Lemma persistBothToJSONAfterUnlock_runs (readOnly : bool) (minutes : Z) :
  runs same_memory P (management.persistBothToJSONAfterUnlock readOnly minutes).
Proof.
  unfold management.persistBothToJSONAfterUnlock.
  apply runs_bind; [exact same_memory_framing | |].
  - intros w. destruct (ReadFile management.side_file (fs w)) as [data | err].
    + eexists _, _, []; rewrite app_nil_r; repeat split; auto.
    + apply runs_bind; [exact same_memory_framing | | ].
      * destruct (negb (IsNotExist err));
          [apply runs_log; auto with runs | apply runs_ret; auto with runs].
      * intros _. apply runs_ret; auto with runs.
  - intros data. destruct (config.Unmarshal data);
      [| apply runs_log; auto with runs].
    intros w. destruct (WriteFile management.side_file _ (fs w)) as [fs' | err].
    + eexists _, _, []; rewrite app_nil_r; repeat split; auto.
    + apply runs_log; auto with runs.
Qed.

Lemma persistReadOnlyToJSONAfterUnlock_runs (readOnly : bool) (h : management.Handler) :
  runs same_memory P (management.persistReadOnlyToJSONAfterUnlock readOnly h).
Proof.
  unfold management.persistReadOnlyToJSONAfterUnlock.
  apply runs_bind; [exact same_memory_framing | |].
  - destruct (management.cfg h); [apply runs_read | apply runs_ret]; auto with runs.
  - intros n. apply persistBothToJSONAfterUnlock_runs.
Qed.

Lemma persistSyncIntervalToJSONAfterUnlock_runs (minutes : Z) (h : management.Handler) :
  runs same_memory P (management.persistSyncIntervalToJSONAfterUnlock minutes h).
Proof.
  unfold management.persistSyncIntervalToJSONAfterUnlock.
  apply runs_bind; [exact same_memory_framing | |].
  - destruct (management.cfg h); [apply runs_read | apply runs_ret]; auto with runs.
  - intros b. apply persistBothToJSONAfterUnlock_runs.
Qed.
End HandlerLemmas.


Lemma all_events_log (lvl : Level) (msg : string) : all_events (Log lvl msg).
Proof. exact I. Qed.

Lemma all_events_save (path : string) : all_events (SaveConfig path).
Proof. exact I. Qed.

Lemma wrap64_range (z : Z) : min_int64 <= wrap64 z <= max_int64.
Proof.
  unfold wrap64, min_int64, max_int64.
  pose proof (Z.mod_pos_bound (z + 2 ^ 63) (2 ^ 64) ltac:(lia)). lia.
Qed.







Section StorageHandlers.
Context {json : config.JSON}.

Lemma read_only_tail_runs (P : Event -> Prop) (readOnly : bool) (h : management.Handler) :
  (forall lvl msg, P (Log lvl msg)) -> (forall path, P (SaveConfig path)) ->
  runs same_memory P
    (management.persistConfig h;;
     management.persistReadOnlyToJSONAfterUnlock readOnly h;;
     ret h).
Proof.
  intros Hlog Hsave.
  apply runs_bind; [exact same_memory_framing | apply persistConfig_runs; assumption |].
  intros _. apply runs_bind; [exact same_memory_framing | |].
  - apply persistReadOnlyToJSONAfterUnlock_runs; assumption.
  - intros _. apply runs_ret, same_memory_framing.
Qed.

Lemma sync_interval_tail_runs (P : Event -> Prop) (minutes : Z) (h : management.Handler) :
  (forall lvl msg, P (Log lvl msg)) -> (forall path, P (SaveConfig path)) ->
  runs same_memory P
    (management.persistConfig h;;
     management.persistSyncIntervalToJSONAfterUnlock minutes h;;
     ret h).
Proof.
  intros Hlog Hsave.
  apply runs_bind; [exact same_memory_framing | apply persistConfig_runs; assumption |].
  intros _. apply runs_bind; [exact same_memory_framing | |].
  - apply persistSyncIntervalToJSONAfterUnlock_runs; assumption.
  - intros _. apply runs_ret, same_memory_framing.
Qed.

Lemma load_same_heap (p : ptr) (w w' : World) : heap w' = heap w -> load p w' = load p w.
Proof. intros Hheap. unfold load. rewrite Hheap. reflexivity. Qed.




Lemma persistBothToJSONAfterUnlock_spec (readOnly : bool) (minutes : Z) (w : World) :
  exists w' l,
    management.persistBothToJSONAfterUnlock readOnly minutes w = Val tt w' /\
    events w' = (events w ++ l)%list /\
    Forall (fun e => is_log e = true) l /\
    heap w' = heap w /\ saved w' = saved w /\
    (side_file_ok (fs w) ->
       files (fs w') !! management.side_file =
         Some (config.MarshalIndent
                 {| config.ReadOnly := readOnly;
                    config.SyncIntervalMinutes_ := minutes |})).
Proof.
  unfold management.persistBothToJSONAfterUnlock, side_file_ok, ReadFile, WriteFile.
  unfold bind, log, emit, ret.
  destruct (decide (management.side_file ∈ unreadable (fs w))) as [Hr | Hr]; simpl.
  - destruct (config.Unmarshal config.default_document); simpl.
    + destruct (decide (management.side_file ∈ unwritable (fs w))) as [Hw | Hw]; simpl.
      * eexists _, [_; _].
        repeat split;
          [simpl; rewrite <- app_assoc; reflexivity | repeat constructor | tauto].
      * eexists _, [_]. repeat split; [repeat constructor | tauto].
    + eexists _, [_; _].
      repeat split;
        [simpl; rewrite <- app_assoc; reflexivity | repeat constructor | tauto].
  - destruct (files (fs w) !! management.side_file) as [data |]; simpl;
      (destruct (config.Unmarshal _) eqn:Hdoc; simpl;
       [ destruct (decide (management.side_file ∈ unwritable (fs w))) as [Hw | Hw]; simpl;
         [ eexists _, [_]; repeat split; [repeat constructor | tauto]
         | eexists _, []; rewrite app_nil_r; repeat split;
           [ constructor | intros _; simpl; apply lookup_insert_eq ] ]
       | eexists _, [_]; repeat split;
         [ repeat constructor | intros (_ & _ & [doc Hbad]); discriminate Hbad ] ]).
Qed.

Lemma persistConfig_spec (h : management.Handler) (p : ptr) (w : World) :
  management.cfg h = Some p ->
  exists ok w',
    management.persistConfig h w = Val ok w' /\
    events w' = (events w ++ [SaveConfig (management.configFilePath h)])%list /\
    heap w' = heap w /\ fs w' = fs w /\
    (management.configFilePath h ∉ unsavable w ->
       saved w' !! management.configFilePath h = Some (load p w)).
Proof.
  intros Hcfg.
  unfold management.persistConfig, management.persist,
    management.SaveConfigPreserveComments.
  rewrite Hcfg. unfold bind, emit, ret. simpl.
  destruct (decide (management.configFilePath h ∈ unsavable w)) as [Hin | Hout]; simpl.
  - eexists _, _. repeat split. intros Hbad. contradiction.
  - eexists _, _. repeat split. intros _. simpl. apply lookup_insert_eq.
Qed.

Lemma persistReadOnlyToJSONAfterUnlock_eq (readOnly : bool) (h : management.Handler)
    (p : ptr) (w : World) :
  management.cfg h = Some p ->
  management.persistReadOnlyToJSONAfterUnlock readOnly h w =
    management.persistBothToJSONAfterUnlock readOnly
      (config.SyncIntervalMinutes (load p w)) w.
Proof.
  intros Hcfg. unfold management.persistReadOnlyToJSONAfterUnlock.
  rewrite Hcfg. reflexivity.
Qed.

(** C9. Without a scheduler wired to the handler, a request that sets
    read-only to [true] is answered 200 whatever local changes the
    working copy holds: [HasPendingLocalChanges] is not asked, the flag
    of the configuration in memory is set, the configuration is saved
    to the main configuration file (when that can be written), and the
    side file gets the new flag with the current interval (when it can
    be rewritten). *)
Theorem C9_nil_scheduler_skips_guard (h : management.Handler) (c : management.Context)
    (p : ptr) (w : World) :
  management.scheduler h = None ->
  management.cfg h = Some p ->
  management.parseBoolField c "read_only" "value" = (true, true) ->
  exists w',
    management.PutStorageReadOnly h c w =
      Val (h, {| management.status := management.StatusOK;
                 management.body := management.HReadOnly true |}) w' /\
    config.IsReadOnlyStorage (load p w') = true /\
    Forall (fun e => is_query e = false) (new_events w w') /\
    In (SaveConfig (management.configFilePath h)) (new_events w w') /\
    (management.configFilePath h ∉ unsavable w ->
       saved w' !! management.configFilePath h = Some (load p w')) /\
    (side_file_ok (fs w) ->
       files (fs w') !! management.side_file =
         Some (config.MarshalIndent
                 {| config.ReadOnly := true;
                    config.SyncIntervalMinutes_ :=
                      config.SyncIntervalMinutes (load p w) |})).
Proof.
  intros Hs Hcfg Hparse.
  unfold management.PutStorageReadOnly. rewrite Hparse. cbn [negb].
  unfold management.ensureCanEnableReadOnly. rewrite Hs.
  unfold management.updateStorageReadOnly. rewrite Hcfg, Hs.
  unfold bind, ret, read, update. cbv beta.
  set (w1 := with_heap _ w).
  assert (Hlogged : exists w2 l0,
             (if negb (eqb (config.IsReadOnlyStorage (load p w)) true)
              then log Info "Storage read-only mode enabled"
              else fun w0 : World => Val tt w0) w1 = Val tt w2 /\
             events w2 = (events w ++ l0)%list /\
             Forall (fun e => is_log e = true) l0 /\
             heap w2 = heap w1 /\ fs w2 = fs w /\ saved w2 = saved w /\
             unsavable w2 = unsavable w).
  { destruct (negb _).
    - eexists _, [_]. repeat split. repeat constructor.
    - eexists _, []. rewrite app_nil_r. repeat split. constructor. }
  destruct Hlogged as (w2 & l0 & -> & Hev2 & Hlog2 & Hheap2 & Hfs2 & Hsaved2 & Hun2).
  destruct (persistConfig_spec h p w2 Hcfg)
    as (ok & w3 & Hrun3 & Hev3 & Hheap3 & Hfs3 & Hsaved3).
  rewrite Hrun3.
  rewrite (persistReadOnlyToJSONAfterUnlock_eq true h p w3 Hcfg).
  destruct (persistBothToJSONAfterUnlock_spec true
              (config.SyncIntervalMinutes (load p w3)) w3)
    as (w4 & l4 & Hrun4 & Hev4 & Hlog4 & Hheap4 & Hsaved4 & Hfile4).
  rewrite Hrun4.
  assert (Hload1 : load p w1 = config.SetReadOnlyStorage true (load p w)).
  { subst w1. unfold load. simpl. rewrite lookup_insert_eq. reflexivity. }
  assert (Hload3 : load p w3 = load p w1).
  { unfold load. rewrite Hheap3, Hheap2. reflexivity. }
  assert (Hload4 : load p w4 = load p w1).
  { unfold load. rewrite Hheap4, Hheap3, Hheap2. reflexivity. }
  assert (Hnew : new_events w w4 =
                 (l0 ++ [SaveConfig (management.configFilePath h)] ++ l4)%list).
  { apply new_events_app. rewrite Hev4, Hev3, Hev2, <- !app_assoc. reflexivity. }
  exists w4. split; [reflexivity |].
  split; [rewrite Hload4, Hload1; reflexivity |].
  split; [| split; [| split]].
  - rewrite Hnew. rewrite !Forall_app. repeat split.
    + eapply Forall_impl; [exact Hlog2 |]. intros [] He; (reflexivity || discriminate He).
    + repeat constructor.
    + eapply Forall_impl; [exact Hlog4 |]. intros [] He; (reflexivity || discriminate He).
  - rewrite Hnew. apply in_or_app. right. left. reflexivity.
  - intros Hsavable. rewrite Hsaved4, Hload4, <- Hload3.
    replace (load p w3) with (load p w2) by (unfold load; rewrite Hheap3; reflexivity).
    apply Hsaved3. rewrite Hun2. exact Hsavable.
  - intros Hside. rewrite Hload3, Hload1 in Hfile4. apply Hfile4.
    rewrite Hfs3, Hfs2. exact Hside.
Qed.

Section Interval.
Context {platform : Platform}.




End Interval.
End StorageHandlers.

(** ** Concrete requests to the storage handlers *)


(** Without a scheduler the same request goes through, although the
    working copy of [w_writable] has a local change. *)
Lemma C9_nil_scheduler_skips_guard_witness :
  exists w',
    management.PutStorageReadOnly (json := encoding_json.json) h_unwired enable_request
      w_writable =
      Val (h_unwired, {| management.status := management.StatusOK;
                         management.body := management.HReadOnly true |}) w' /\
    config.IsReadOnlyStorage (load 0%nat w') = true /\
    files (fs w') !! management.side_file =
      Some (encoding_json.MarshalIndent
              {| config.ReadOnly := true; config.SyncIntervalMinutes_ := 5 |}).
Proof.
  destruct (C9_nil_scheduler_skips_guard (json := encoding_json.json)
              h_unwired enable_request 0%nat w_writable eq_refl eq_refl eq_refl)
    as (w' & Hrun & Hflag & _ & _ & _ & Hside).
  exists w'. split; [exact Hrun |]. split; [exact Hflag |].
  apply Hside. repeat split.
  - vm_compute. intros Hin. discriminate Hin.
  - vm_compute. intros Hin. discriminate Hin.
  - vm_compute. eauto.
Defined.


(** The largest [int] is decoded to [2^63], which [int] does not hold:
    on amd64 the request is refused with the message for numbers below
    the minimum. *)
Lemma PutStorageSyncInterval_max_int_amd64 :
  option_map float64_value (ParseFloat 9223372036854775807) =
    Some (inject_Z (2 ^ 63)) /\
  management.PutStorageSyncInterval (json := encoding_json.json) (platform := amd64)
    h_unwired (interval_request 9223372036854775807) w_writable =
  Val (h_unwired, bad_request "sync_interval_minutes must be at least 1") w_writable.
Proof. split; vm_compute; reflexivity. Qed.


(** * Further properties of the code *)

(** ** The directory of a path *)

Section GetDir.
Context {os : OS}.

Lemma get_no_separator (name : string) (i : nat) (c : ascii) :
  has_separator name = false -> String.get i name = Some c -> is_separator c = false.
Proof.
  revert i. induction name as [| a name IH]; intros i Hno Hget; [destruct i; discriminate |].
  simpl in Hno. apply orb_false_iff in Hno as [Ha Hrest].
  destruct i as [| i]; simpl in Hget.
  - injection Hget as <-. exact Ha.
  - exact (IH i Hrest Hget).
Qed.

Lemma get_within (s : string) (i : nat) :
  (i < String.length s)%nat -> exists c, String.get i s = Some c.
Proof.
  revert i. induction s as [| a s IH]; intros i Hi; simpl in Hi; [lia |].
  destruct i as [| i]; simpl; [eauto |]. apply IH. lia.
Qed.

Lemma getDirFromPath_loop_skips (prefix name : string) (k : nat) :
  has_separator name = false -> (k <= String.length name)%nat ->
  config.getDirFromPath_loop (prefix +:+ name) (String.length prefix + k) =
  config.getDirFromPath_loop (prefix +:+ name) (String.length prefix).
Proof.
  intros Hno. induction k as [| k IH]; intros Hk; [rewrite Nat.add_0_r; reflexivity |].
  rewrite Nat.add_succ_r. simpl.
  destruct (get_within name k ltac:(lia)) as [c Hc].
  rewrite Nat.add_comm, <- append_correct2, Hc.
  pose proof (get_no_separator name k c Hno Hc) as Hsep.
  unfold is_separator in Hsep. rewrite Hsep.
  rewrite Nat.add_comm. apply IH. lia.
Qed.

Lemma substring_prefix (a b : string) : String.substring 0 (String.length a) (a +:+ b) = a.
Proof.
  induction a as [| c a IH]; simpl; [destruct b; reflexivity |]. rewrite IH. reflexivity.
Qed.

Lemma length_append (a b : string) :
  String.length (a +:+ b) = (String.length a + String.length b)%nat.
Proof. induction a as [| c a IH]; simpl; [reflexivity | rewrite IH; reflexivity]. Qed.

Lemma append_singleton (a : string) (c : ascii) (b : string) :
  (a +:+ String c "") +:+ b = a +:+ String c b.
Proof.
  induction a as [| x a IH]; [reflexivity |].
  change (String x ((a +:+ String c "") +:+ b) = String x (a +:+ String c b)).
  rewrite IH. reflexivity.
Qed.

Lemma get_after_prefix (a : string) (c : ascii) (b : string) :
  String.get (String.length a) (a +:+ String c b) = Some c.
Proof. induction a as [| x a IH]; simpl; [reflexivity | exact IH]. Qed.

Lemma getDirFromPath_loop_at_separator (dir : string) (c : ascii) (rest : string) :
  is_separator c = true ->
  config.getDirFromPath_loop (dir +:+ String c rest) (Datatypes.S (String.length dir)) = dir.
Proof.
  intros Hsep. simpl. rewrite get_after_prefix.
  unfold is_separator in Hsep. rewrite Hsep. apply substring_prefix.
Qed.

(** X4. [getDirFromPath] cuts a path at its last separator: a path
    without a separator gives ["."], and [dir], a separator and a name
    without a separator give [dir] (the empty string for a file directly
    under the root). *)
Theorem getDirFromPath_cuts_at_last_separator (dir name : string) (c : ascii) :
  has_separator name = false ->
  config.getDirFromPath name = "." /\
  (is_separator c = true -> config.getDirFromPath (dir +:+ String c name) = dir).
Proof.
  intros Hno. split.
  - unfold config.getDirFromPath.
    exact (getDirFromPath_loop_skips "" name (String.length name) Hno (le_n _)).
  - intros Hsep. unfold config.getDirFromPath.
    rewrite <- append_singleton, length_append.
    rewrite (getDirFromPath_loop_skips _ name (String.length name) Hno (le_n _)).
    rewrite length_append. simpl String.length. rewrite Nat.add_1_r.
    rewrite append_singleton. apply getDirFromPath_loop_at_separator. exact Hsep.
Qed.
End GetDir.

(** The side file of the handler lies in [data]; a file under the root
    has the empty directory; a bare name has the directory [.]. *)
Lemma getDirFromPath_cuts_at_last_separator_witness :
  config.getDirFromPath (os := unix) "read_only_storage.json" = "." /\
  config.getDirFromPath (os := unix) management.side_file = "data" /\
  config.getDirFromPath (os := unix) "/read_only_storage.json" = "" /\
  config.getDirFromPath (os := windows) "C:\data\read_only_storage.json" = "C:\data".
Proof.
  destruct (getDirFromPath_cuts_at_last_separator (os := unix)
              "data" "read_only_storage.json" "/"%char eq_refl) as [Hbare Hdata].
  destruct (getDirFromPath_cuts_at_last_separator (os := unix)
              "" "read_only_storage.json" "/"%char eq_refl) as [_ Hroot].
  destruct (getDirFromPath_cuts_at_last_separator (os := windows)
              "C:\data" "read_only_storage.json" "\"%char eq_refl) as [_ Hwin].
  split; [exact Hbare |]. split; [exact (Hdata eq_refl) |].
  split; [exact (Hroot eq_refl) | exact (Hwin eq_refl)].
Defined.

(** ** The watcher of the side file *)

Lemma land_pow2 (op n : Z) :
  0 <= n -> Z.land op (2 ^ n) = if Z.testbit op n then 2 ^ n else 0.
Proof.
  intros Hn. apply Z.bits_inj'. intros i Hi.
  rewrite Z.land_spec, Z.pow2_bits_eqb by exact Hn.
  destruct (Z.eqb_spec n i) as [<- | Hne].
  - destruct (Z.testbit op n); [rewrite Z.pow2_bits_true by exact Hn; reflexivity |].
    rewrite Z.bits_0. reflexivity.
  - rewrite andb_false_r. destruct (Z.testbit op n);
      [rewrite Z.pow2_bits_false by exact Hne | rewrite Z.bits_0]; reflexivity.
Qed.

Lemma has_op_Write (op : Z) : config.has_op op config.fsnotify_Write = Z.testbit op 1.
Proof.
  unfold config.has_op, config.fsnotify_Write.
  change 2 with (2 ^ 1). rewrite land_pow2 by lia.
  destruct (Z.testbit op 1); reflexivity.
Qed.

Lemma has_op_Create (op : Z) : config.has_op op config.fsnotify_Create = Z.testbit op 0.
Proof.
  unfold config.has_op, config.fsnotify_Create.
  change 1 with (2 ^ 0). rewrite land_pow2 by lia.
  destruct (Z.testbit op 0); reflexivity.
Qed.

Section WatcherTheorems.
Context {json : config.JSON}.
Context {S : Type} {setter_S : config.ReadOnlyStorageSetter S}.

Lemma watcher_round_unrelated (setter : S) (path : string) (fs : FS)
    (msg : config.WatcherMsg) :
  unrelated path msg ->
  fst (fst (config.watcher_round setter path fs msg)) = setter /\
  Forall (fun l => is_reload_line l = false) (snd (fst (config.watcher_round setter path fs msg))).
Proof.
  destruct msg as [name op | | err | |]; simpl; intros Hun;
    try (split; [reflexivity | repeat constructor]).
  rewrite has_op_Write, has_op_Create.
  destruct Hun as [Hname | Hop].
  - apply String.eqb_neq in Hname. rewrite Hname. simpl. split; [reflexivity | constructor].
  - unfold writes_or_creates in Hop.
    destruct (Z.testbit op 1); [exfalso; apply Hop; left; reflexivity |].
    destruct (Z.testbit op 0); [exfalso; apply Hop; right; reflexivity |].
    rewrite andb_false_r. simpl. split; [reflexivity | constructor].
Qed.

(** X5. The watcher watches a whole directory, and of what it receives
    only a [Write] or [Create] event named exactly [path] reloads the
    side file: over any run of messages that are events for other names,
    events without the [Write] and [Create] bits ([Remove], [Rename],
    [Chmod]), watcher errors or the end of the goroutine, the setter is
    left as it was and nothing is printed about a reload. *)
Theorem watcher_ignores_unrelated_events (setter : S) (path : string)
    (rounds : list (FS * config.WatcherMsg)) :
  Forall (fun r => unrelated path (snd r)) rounds ->
  fst (fst (config.watcher_loop setter path rounds)) = setter /\
  Forall (fun l => is_reload_line l = false)
         (snd (fst (config.watcher_loop setter path rounds))).
Proof.
  induction rounds as [| [fs msg] rounds IH]; intros Hall; simpl.
  - split; [reflexivity | constructor].
  - inversion Hall as [| r rs Hmsg Hrest]; subst. simpl in Hmsg.
    destruct (watcher_round_unrelated setter path fs msg Hmsg) as [Hset Hout].
    destruct (config.watcher_round setter path fs msg) as [[setter1 out] returned].
    simpl in Hset, Hout. subst setter1.
    destruct returned; simpl; [split; [reflexivity | exact Hout] |].
    destruct (IH Hrest) as [Hset' Hout'].
    destruct (config.watcher_loop setter path rounds) as [[setter2 out'] returned'].
    simpl in *. split; [exact Hset' | apply Forall_app; split; assumption].
Qed.

(** X6. The cancellation of the context, or a channel of the watcher
    found closed, ends the goroutine: what comes after it is never
    handled (no reload, no line) and the goroutine has returned, which
    closes the watcher. A cancellation is announced by a last line, a
    closed channel is not. *)
Theorem watcher_stops_at_cancellation (setter : S) (path : string)
    (before after : list (FS * config.WatcherMsg)) (fs : FS) (msg : config.WatcherMsg) :
  msg = config.CtxDone \/ msg = config.EventsClosed \/ msg = config.ErrorsClosed ->
  let r := config.watcher_loop setter path (before ++ (fs, msg) :: after)%list in
  r = config.watcher_loop setter path (before ++ [(fs, msg)])%list /\
  snd r = true /\
  (forall setter' out, config.watcher_loop setter path before = (setter', out, false) ->
     r = (setter', (out ++ last_line path msg)%list, true)).
Proof.
  intros Hend. cbv zeta.
  assert (Hround : forall s0, config.watcher_round s0 path fs msg =
                              (s0, last_line path msg, true)).
  { intros s0. destruct Hend as [-> | [-> | ->]]; reflexivity. }
  revert setter.
  induction before as [| [fs0 msg0] before IH]; intros setter; simpl.
  - rewrite Hround. split; [reflexivity |]. split; [reflexivity |].
    intros setter' out [= <- <-]. reflexivity.
  - destruct (config.watcher_round setter path fs0 msg0) as [[setter1 out1] returned].
    destruct returned.
    + split; [reflexivity |]. split; [reflexivity |]. intros setter' out H. discriminate H.
    + destruct (IH setter1) as (Heq & Hret & Hlast).
      rewrite Heq.
      destruct (config.watcher_loop setter1 path (before ++ [(fs, msg)])%list)
        as [[setter2 out2] returned2] eqn:Hloop.
      rewrite Heq in Hret. simpl in Hret. subst returned2.
      split; [reflexivity |]. split; [reflexivity |].
      intros setter' out Hbefore.
      destruct (config.watcher_loop setter1 path before) as [[setter3 out3] returned3].
      injection Hbefore as <- <- ->.
      rewrite Heq in Hlast. specialize (Hlast _ _ eq_refl).
      injection Hlast as -> ->. rewrite app_assoc. reflexivity.
Qed.

(** X30. [StartReadOnlyStorageWatcher] never leaks the watcher it made
    and never starts the goroutine on a failure: it returns nil exactly
    when the goroutine has been launched, a watcher that could not be
    given its directory is closed before the error is returned, and the
    one directory it watches is the one [getDirFromPath] cuts out of the
    path (the directory, not the file). *)
Theorem StartReadOnlyStorageWatcher_hands_over_or_closes {os : OS}
    (lib : config.Fsnotify) (path : string) :
  let r := config.StartReadOnlyStorageWatcher lib path in
  (fst r = None <-> In config.WatcherGo (snd r)) /\
  (In config.WatcherGo (snd r) -> ~ In config.WatcherClose (snd r)) /\
  (config.NewWatcher_error lib = None -> is_Some (fst r) ->
     In config.WatcherClose (snd r)) /\
  (forall dir, In (config.WatcherAdd dir) (snd r) -> dir = config.getDirFromPath path).
Proof.
  cbv zeta. unfold config.StartReadOnlyStorageWatcher.
  destruct (config.NewWatcher_error lib) as [e |].
  - simpl. repeat split.
    + intros H. discriminate H.
    + intros [H | []]. discriminate H.
    + intros [H | []]. discriminate H.
    + intros H. discriminate H.
    + intros dir [H | []]. discriminate H.
  - destruct (config.Add_error lib (config.getDirFromPath path)) as [e |]; simpl.
    + repeat split.
      * intros H. discriminate H.
      * intros [H | [H | [H | []]]]; discriminate H.
      * intros [H | [H | [H | []]]]; discriminate H.
      * intros _ _. right. right. left. reflexivity.
      * intros dir [H | [H | [H | []]]]; try discriminate H.
        injection H as <-. reflexivity.
    + repeat split.
      * intros _. right. right. left. reflexivity.
      * intros _ [H | [H | [H | []]]]; discriminate H.
      * intros _ [x H]. discriminate H.
      * intros dir [H | [H | [H | []]]]; try discriminate H.
        injection H as <-. reflexivity.
Qed.
End WatcherTheorems.

(** ** Persisting and reloading the side file *)

Section SideFileComposition.
Context {json : config.JSON}.

(** After a successful [PersistReadOnlyState] the file holds the
    encoding of the two values. *)
Lemma PersistReadOnlyState_written (readOnly : bool) (syncMinutes : Z) (path : string)
    (fs : FS) :
  snd (config.PersistReadOnlyState readOnly syncMinutes path fs) = None ->
  holds path (fst (config.PersistReadOnlyState readOnly syncMinutes path fs))
    (config.MarshalIndent (document readOnly syncMinutes)) /\
  (path ∉ unwritable fs) /\
  fst (config.PersistReadOnlyState readOnly syncMinutes path fs) =
    {| files := <[path := config.MarshalIndent (document readOnly syncMinutes)]> (files fs);
       unreadable := unreadable fs; unwritable := unwritable fs |}.
Proof.
  unfold holds, config.PersistReadOnlyState, document.
  destruct (ReadFile path fs) as [data | err] eqn:Hread.
  - destruct (config.Unmarshal data); [| discriminate].
    destruct (WriteFile path _ fs) as [fs' | e] eqn:Hwrite; [| discriminate].
    intros _. simpl. split.
    + eapply ReadFile_after_write; [exact Hwrite |].
      eapply ReadFile_data_readable; exact Hread.
    + unfold WriteFile in Hwrite.
      destruct (decide (path ∈ unwritable fs)); [discriminate |].
      injection Hwrite as <-. split; [assumption | reflexivity].
  - destruct (IsNotExist err) eqn:Hne; simpl; [| discriminate].
    destruct (config.Unmarshal config.default_document); [| discriminate].
    destruct (WriteFile path _ fs) as [fs' | e] eqn:Hwrite; [| discriminate].
    intros _. simpl. split.
    + eapply ReadFile_after_write; [exact Hwrite |].
      eapply ReadFile_readable; [exact Hread | exact Hne].
    + unfold WriteFile in Hwrite.
      destruct (decide (path ∈ unwritable fs)); [discriminate |].
      injection Hwrite as <-. split; [assumption | reflexivity].
Qed.

(** X7. What the watcher does on a [Write] or [Create] event for the
    side file. When the file is what a successful [PersistReadOnlyState]
    has just written, the configuration takes the persisted read-only
    flag, and the persisted interval when that is positive, and the
    reload is announced. When the file holds something that does not
    decode (a write caught half-way, say), read-only is switched off in
    memory and a warning is printed. *)
Theorem watcher_reload (c : config.Config) (path : string) (op : Z) :
  writes_or_creates op ->
  (forall readOnly syncMinutes fs,
     snd (config.PersistReadOnlyState readOnly syncMinutes path fs) = None ->
     config.Unmarshal (config.MarshalIndent (document readOnly syncMinutes)) =
       Some (document readOnly syncMinutes) ->
     exists c',
       config.watcher_round c path
         (fst (config.PersistReadOnlyState readOnly syncMinutes path fs))
         (config.EventMsg path op) = (c', [config.Reloaded path], false) /\
       config.IsReadOnlyStorage c' = readOnly /\
       config.SyncIntervalMinutes c' =
         (if 0 <? syncMinutes then syncMinutes else config.SyncIntervalMinutes c)) /\
  (forall fs data,
     holds path fs data -> config.Unmarshal data = None ->
     exists c' err,
       config.watcher_round c path fs (config.EventMsg path op) =
         (c', [config.ReloadFailed err], false) /\
       config.IsReadOnlyStorage c' = false /\
       config.SyncIntervalMinutes c' = config.SyncIntervalMinutes c).
Proof.
  intros Hop.
  assert (Hgo : String.eqb path path
                && (config.has_op op config.fsnotify_Write
                    || config.has_op op config.fsnotify_Create) = true).
  { rewrite String.eqb_refl, has_op_Write, has_op_Create.
    destruct Hop as [-> | ->]; [reflexivity | apply orb_true_r]. }
  split.
  - intros readOnly syncMinutes fs Hok Hrt.
    destruct (PersistReadOnlyState_written readOnly syncMinutes path fs Hok) as (Hfile & _).
    pose proof (LoadReadOnlyStorageConfig_decoded c path _ _ _ Hfile Hrt) as Hload.
    cbv zeta in Hload. destruct Hload as (Hro & Hint & Herr).
    unfold config.watcher_round. rewrite Hgo.
    destruct (config.LoadReadOnlyStorageConfig c path _) as [c' e]. simpl in *. subst e.
    exists c'. split; [reflexivity |]. split; [exact Hro | exact Hint].
  - intros fs data Hdata Hbad.
    unfold config.watcher_round. rewrite Hgo.
    unfold config.LoadReadOnlyStorageConfig. unfold holds in Hdata. rewrite Hdata, Hbad.
    eexists _, _. split; [reflexivity |]. split; reflexivity.
Qed.

(** X8. Loading the side file twice is loading it once: a second
    [LoadReadOnlyStorageConfig] from the same file returns the same
    error and leaves the configuration of the first. *)
Theorem LoadReadOnlyStorageConfig_idempotent (c : config.Config) (path : string) (fs : FS) :
  config.LoadReadOnlyStorageConfig
    (fst (config.LoadReadOnlyStorageConfig c path fs)) path fs =
  config.LoadReadOnlyStorageConfig c path fs.
Proof.
  unfold config.LoadReadOnlyStorageConfig.
  destruct (ReadFile path fs) as [data | err].
  - destruct (config.Unmarshal data) as [doc |]; [| reflexivity].
    destruct (0 <? config.SyncIntervalMinutes_ doc); reflexivity.
  - destruct (IsNotExist err); reflexivity.
Qed.

(** X9. [PersistReadOnlyState] overwrites: once a call has succeeded
    (and what it wrote decodes), a second call on the result succeeds and
    gives the file system the second call alone would have given; the
    values of the first call leave no trace, and no other file is
    touched. *)
Theorem PersistReadOnlyState_last_write_wins (r1 r2 : bool) (n1 n2 : Z) (path : string)
    (fs : FS) :
  snd (config.PersistReadOnlyState r1 n1 path fs) = None ->
  is_Some (config.Unmarshal (config.MarshalIndent (document r1 n1))) ->
  config.PersistReadOnlyState r2 n2 path (fst (config.PersistReadOnlyState r1 n1 path fs)) =
    config.PersistReadOnlyState r2 n2 path fs /\
  snd (config.PersistReadOnlyState r2 n2 path fs) = None /\
  (forall q, q <> path ->
     files (fst (config.PersistReadOnlyState r1 n1 path fs)) !! q = files fs !! q).
Proof.
  intros Hok [doc1 Hdoc1].
  destruct (PersistReadOnlyState_written r1 n1 path fs Hok) as (Hfile & Hw & Hfs).
  assert (Hsecond : config.PersistReadOnlyState r2 n2 path
                      (fst (config.PersistReadOnlyState r1 n1 path fs)) =
                    ({| files := <[path := config.MarshalIndent (document r2 n2)]> (files fs);
                        unreadable := unreadable fs; unwritable := unwritable fs |}, None)).
  { unfold holds in Hfile. unfold config.PersistReadOnlyState at 1.
    rewrite Hfile, Hdoc1. rewrite Hfs. unfold WriteFile. simpl.
    destruct (decide (path ∈ unwritable fs)); [contradiction |].
    rewrite insert_insert_eq. reflexivity. }
  assert (Hdirect : config.PersistReadOnlyState r2 n2 path fs =
                    ({| files := <[path := config.MarshalIndent (document r2 n2)]> (files fs);
                        unreadable := unreadable fs; unwritable := unwritable fs |}, None)).
  { revert Hok. unfold config.PersistReadOnlyState, WriteFile.
    destruct (ReadFile path fs) as [data | err].
    - destruct (config.Unmarshal data); [| discriminate].
      destruct (decide (path ∈ unwritable fs)); [contradiction | reflexivity].
    - destruct (IsNotExist err); simpl; [| discriminate].
      destruct (config.Unmarshal config.default_document); [| discriminate].
      destruct (decide (path ∈ unwritable fs)); [contradiction | reflexivity]. }
  split; [rewrite Hsecond, Hdirect; reflexivity |].
  split; [rewrite Hdirect; reflexivity |].
  intros q Hq. rewrite Hfs. simpl. apply lookup_insert_ne. congruence.
Qed.

(** X10. A side file that does not decode is never repaired: both
    [PersistReadOnlyState] and the handler's own
    [persistBothToJSONAfterUnlock] give up before writing, whatever
    values they are asked to persist, so the file stays as it is, and
    loading it keeps answering read-only [false] with an error. *)
Theorem undecodable_side_file_is_never_rewritten (data : string) (readOnly : bool)
    (minutes : Z) (w : World) (c : config.Config) :
  holds management.side_file (fs w) data ->
  config.Unmarshal data = None ->
  (exists e, config.PersistReadOnlyState readOnly minutes management.side_file (fs w) =
             (fs w, Some e)) /\
  management.persistBothToJSONAfterUnlock readOnly minutes w =
    Val tt (with_events
              (events w ++ [Log Error_ "Failed to parse read_only_storage.json"]) w) /\
  config.IsReadOnlyStorage
    (fst (config.LoadReadOnlyStorageConfig c management.side_file (fs w))) = false /\
  is_Some (snd (config.LoadReadOnlyStorageConfig c management.side_file (fs w))).
Proof.
  unfold holds. intros Hdata Hbad. split; [| split; [| split]].
  - unfold config.PersistReadOnlyState. rewrite Hdata, Hbad. eauto.
  - unfold management.persistBothToJSONAfterUnlock, bind. rewrite Hdata, Hbad. reflexivity.
  - unfold config.LoadReadOnlyStorageConfig. rewrite Hdata, Hbad. reflexivity.
  - unfold config.LoadReadOnlyStorageConfig. rewrite Hdata, Hbad. simpl. eauto.
Qed.

(** X11. The handler carries its own copy of the persistence code. On
    a side file that can be read, or that is missing, it leaves the file
    system that [PersistReadOnlyState] computes for the same values, and
    it always returns. On a file that exists and cannot be read the two
    differ: [PersistReadOnlyState] returns the error and writes nothing,
    the handler logs it and writes a fresh document over the file. *)
Theorem persistBothToJSONAfterUnlock_and_PersistReadOnlyState (readOnly : bool)
    (minutes : Z) (w : World) :
  exists w',
    management.persistBothToJSONAfterUnlock readOnly minutes w = Val tt w' /\
    heap w' = heap w /\ saved w' = saved w /\ closed w' = closed w /\
    (management.side_file ∉ unreadable (fs w) ->
       fs w' = fst (config.PersistReadOnlyState readOnly minutes
                      management.side_file (fs w))) /\
    (management.side_file ∈ unreadable (fs w) ->
       is_Some (snd (config.PersistReadOnlyState readOnly minutes
                       management.side_file (fs w))) /\
       fst (config.PersistReadOnlyState readOnly minutes management.side_file (fs w)) =
         fs w /\
       (management.side_file ∉ unwritable (fs w) ->
        is_Some (config.Unmarshal config.default_document) ->
        files (fs w') !! management.side_file =
          Some (config.MarshalIndent (document readOnly minutes)))).
Proof.
  unfold management.persistBothToJSONAfterUnlock, config.PersistReadOnlyState,
    ReadFile, WriteFile, document.
  unfold bind, log, emit, ret.
  destruct (decide (management.side_file ∈ unreadable (fs w))) as [Hr | Hr]; simpl.
  - destruct (config.Unmarshal config.default_document) eqn:Hdef; simpl.
    + destruct (decide (management.side_file ∈ unwritable (fs w))) as [Hw | Hw]; simpl.
      * eexists. repeat split; eauto; try contradiction.
      * eexists. repeat split; eauto; try contradiction.
        intros _ _. simpl. apply lookup_insert_eq.
    + eexists. repeat split; eauto; try contradiction.
      intros _ [doc Hdoc]. discriminate Hdoc.
  - destruct (files (fs w) !! management.side_file) as [data |]; simpl;
      (destruct (config.Unmarshal _); simpl;
       [ destruct (decide (management.side_file ∈ unwritable (fs w))); simpl |]);
      eexists; repeat split; eauto; try contradiction.
Qed.
End SideFileComposition.

(** ** The scheduler: failures, callbacks, restarts *)

Lemma callbacks_quiet (l : list Event) :
  Forall (fun e => is_git_or_log e = true) l ->
  callbacks l = [] /\ Forall (fun e => e <> EnsureRepository) l.
Proof.
  induction 1 as [| e l He _ [IHc IHe]]; [split; [reflexivity | constructor] |].
  split.
  - destruct e; try discriminate He; exact IHc.
  - constructor; [destruct e; discriminate | exact IHe].
Qed.

Lemma pullChanges_runs_quiet (s : store.GitScheduler) (ts : GitTokenStore) :
  store.tokenStore s = Some ts ->
  runs frame (fun e => is_git_or_log e = true) (store.pullChanges s).
Proof.
  intros Hts. unfold store.pullChanges. rewrite Hts. unfold deref.
  repeat runs_step; reflexivity.
Qed.

(** X12. One [sync] of a scheduler that has a configuration and a token
    store always returns. The completion callback (the reload of the auth
    tokens) is invoked exactly when read-only is on and both
    [EnsureRepository] and [pullChanges] succeeded, once, and with
    read-only off the call returns nil without asking the token store or
    the Git library for anything. *)
Theorem sync_callback_only_after_success (s : store.GitScheduler) (ts : GitTokenStore)
    (c : ptr) (w : World) :
  store.tokenStore s = Some ts ->
  store.config s = Some c ->
  exists err w',
    store.sync s w = Val err w' /\
    callbacks (new_events w w') =
      (if config.IsReadOnlyStorage (load c w)
       then match err with
            | None => option_list (store.onSyncComplete s)
            | Some _ => []
            end
       else []) /\
    (config.IsReadOnlyStorage (load c w) = false ->
       err = None /\
       w' = with_events
              (events w ++ [sync_started;
                            Log Info "Git scheduler: read-only mode disabled, skipping sync"])
              w).
Proof.
  intros Hts Hc. unfold store.sync. rewrite Hts, Hc. unfold deref.
  unfold bind at 1. unfold log at 1, emit at 1.
  unfold bind at 1. unfold ret at 1.
  unfold bind at 1. unfold read at 1.
  change (load c (with_events _ w)) with (load c w).
  destruct (config.IsReadOnlyStorage (load c w)) eqn:Hro.
  - unfold bind at 1. unfold ret at 1.
    unfold bind at 1. unfold EnsureRepository_, bind at 1, emit at 1, ret at 1.
    destruct (ensureRepository ts) as [e |].
    + eexists _, _. split; [reflexivity |]. split; [| discriminate].
      erewrite new_events_app by (simpl; rewrite <- app_assoc; reflexivity). reflexivity.
    + unfold bind at 1.
      match goal with
      | |- context [store.pullChanges s ?w0] =>
          destruct (pullChanges_runs_quiet s ts Hts w0)
            as (perr & w2 & l2 & Hrun & Hev & Hquiet & _)
      end.
      rewrite Hrun. simpl in Hev.
      destruct (callbacks_quiet l2 Hquiet) as [Hcb _].
      destruct perr as [e |].
      * eexists _, _. split; [reflexivity |]. split; [| discriminate].
        erewrite new_events_app by (rewrite Hev, <- !app_assoc; reflexivity).
        unfold callbacks in *. rewrite omap_app. simpl. exact Hcb.
      * destruct (store.onSyncComplete s) as [id |]; unfold_m; simpl;
          (eexists _, _; split; [reflexivity |]; split; [| discriminate]);
          (erewrite new_events_app by (simpl; rewrite Hev, <- !app_assoc; reflexivity));
          unfold callbacks in *; rewrite !omap_app, Hcb; reflexivity.
  - unfold_m. simpl. eexists _, _. split; [reflexivity |]. split.
    + erewrite new_events_app by (simpl; rewrite <- app_assoc; reflexivity). reflexivity.
    + intros _. split; [reflexivity |]. unfold sync_started, with_events. simpl.
      rewrite <- app_assoc. reflexivity.
Qed.

(** ** Start and Stop *)

(** X14. [Start] on a scheduler that is running (on an open stop
    channel) is a restart: the old channel is closed, which ends the old
    loop, and a fresh one is made. With a configuration and a token store
    one new loop is launched on the fresh channel. Without one of them
    [Start] returns its error after the old loop has been told to stop:
    the scheduler that was running is left stopped. *)
Theorem Start_on_a_running_scheduler (s : store.GitScheduler) (w : World) :
  store.running s = true ->
  store.stopCh s ∉ closed w ->
  exists s' err w',
    store.Start s w = Val (s', err) w' /\
    closings (new_events w w') = [store.stopCh s] /\
    closed w' = {[store.stopCh s]} ∪ closed w /\
    store.stopCh s' = next_chan w /\
    (is_Some (store.config s) -> is_Some (store.tokenStore s) ->
       err = None /\ store.running s' = true /\
       launches (new_events w w') = [next_chan w]) /\
    (store.config s = None \/ store.tokenStore s = None ->
       is_Some err /\ store.running s' = false /\ launches (new_events w w') = []).
Proof.
  intros Hrun Hopen. unfold store.Start. rewrite Hrun. unfold_m. simpl.
  destruct (decide (store.stopCh s ∈ closed w)) as [Hin | _]; [contradiction |]. simpl.
  assert (Hnew : forall (w' : World) (l : list Event),
             events w' = (events w ++ l)%list -> new_events w w' = l)
    by (intros w' l; apply new_events_app).
  destruct (store.config s) as [c |], (store.tokenStore s) as [ts |]; simpl;
    eexists _, _, _; (split; [reflexivity |]);
    (split; [erewrite Hnew by (simpl; rewrite <- ?app_assoc; reflexivity); reflexivity |]);
    (split; [reflexivity |]); (split; [reflexivity |]);
    (erewrite Hnew by (simpl; rewrite <- ?app_assoc; reflexivity)).
  - split; [intros _ _; repeat split | intros [Hc | Ht]; discriminate].
  - split; [intros _ [? Ht]; discriminate Ht | intros _; repeat split; eauto].
  - split; [intros [? Hc]; discriminate Hc | intros _; repeat split; eauto].
  - split; [intros [? Hc]; discriminate Hc | intros _; repeat split; eauto].
Qed.

(** X15. [Stop] is idempotent: after a [Stop] that returns, the
    scheduler is stopped and a second [Stop] changes nothing at all, not
    even the log. *)
Theorem Stop_is_idempotent (s : store.GitScheduler) (w : World) :
  store.running s = false \/ store.stopCh s ∉ closed w ->
  exists s' w',
    store.Stop s w = Val s' w' /\
    store.running s' = false /\
    store.Stop s' w' = Val s' w'.
Proof.
  intros Hsafe. unfold store.Stop at 1.
  destruct (store.running s) eqn:Hrun; simpl.
  - destruct Hsafe as [Hbad | Hopen]; [discriminate Hbad |].
    unfold_m. simpl.
    destruct (decide (store.stopCh s ∈ closed w)) as [Hin | _]; [contradiction |].
    eexists _, _. split; [reflexivity |]. split; reflexivity.
  - exists s, w. split; [reflexivity |]. split; [exact Hrun |].
    unfold store.Stop. rewrite Hrun. reflexivity.
Qed.

(** X16. [Start] and the read-only flag in the two copies of the
    scheduler. On a stopped scheduler with a configuration and a token
    store, [Start] of [store] launches the loop whatever the flag says
    (the loop then idles while read-only is off); [Start] of the copy at
    [internal/store/scheduler.go] launches it only with read-only on, and
    with read-only off returns nil with the scheduler still stopped. *)
Theorem Start_and_the_read_only_flag (s : store.GitScheduler) (c : ptr)
    (ts : GitTokenStore) (w : World) :
  store.running s = false ->
  store.config s = Some c ->
  store.tokenStore s = Some ts ->
  store.Start s w =
    Val (store.set_running true s, None)
      (with_events (events w ++ [Log Info "Starting Git scheduler"; Go (store.stopCh s)]) w) /\
  store_v1.Start s w =
    (if config.IsReadOnlyStorage (load c w) then store.Start s w
     else Val (s, None)
            (with_events
               (events w ++
                [Log Info "Git scheduler: read-only mode is disabled, not starting scheduler"])
               w)).
Proof.
  intros Hrun Hc Hts.
  assert (Hstart : store.Start s w =
            Val (store.set_running true s, None)
              (with_events
                 (events w ++ [Log Info "Starting Git scheduler"; Go (store.stopCh s)]) w)).
  { unfold store.Start. rewrite Hrun. unfold_m. simpl. rewrite Hc, Hts. world_eq. }
  split; [exact Hstart |].
  rewrite Hstart. unfold store_v1.Start. rewrite Hrun. unfold_m. simpl. rewrite Hc, Hts.
  unfold config.IsReadOnlyStorage.
  destruct (config.readOnlyStorage (load c w)); simpl; [world_eq | reflexivity].
Qed.

Ltac resolve_lookups m :=
  destruct (m !! "refs/remotes/origin/HEAD") eqn:HHEAD;
  [ | destruct (m !! "refs/remotes/origin/main") eqn:Hmain;
      [ | destruct (m !! "refs/remotes/origin/master") eqn:Hmaster ] ].

(** X17. A [pullChanges] that fails before its reset leaves the working
    copy alone: whenever it returns an error (no repository directory,
    the repository does not open, the fetch fails, no remote branch
    resolves, no worktree), the commit checked out and the local
    modifications are what they were and no reset has been asked for.
    Without a repository directory it does not call the Git library at
    all. *)
Theorem pullChanges_failure_keeps_the_working_copy (s : store.GitScheduler)
    (ts : GitTokenStore) (w : World) :
  store.tokenStore s = Some ts ->
  reset_error (git w) = None ->
  exists r w',
    store.pullChanges s w = Val r w' /\
    (is_Some r ->
       head (repo w') = head (repo w) /\
       local_changes (repo w') = local_changes (repo w) /\
       Forall (fun c => is_reset c = false) (git_calls (new_events w w'))) /\
    (repoDir ts = "" ->
       r = Some (Errorf "repository directory not configured") /\ w' = w).
Proof.
  intros Hts Hreset.
  assert (Hnew : forall (w' : World) (l : list Event),
             events w' = (events w ++ l)%list -> new_events w w' = l)
    by (intros w' l; apply new_events_app).
  unfold store.pullChanges. rewrite Hts. unfold repoDirSnapshot.
  unfold deref. unfold bind at 1. unfold ret at 1. cbv beta.
  destruct (String.eqb (repoDir ts) "") eqn:Hdir.
  - exists (Some (Errorf "repository directory not configured")), w.
    split; [reflexivity |]. split; [| intros _; split; reflexivity].
    intros _. rewrite (Hnew w []) by (rewrite app_nil_r; reflexivity).
    repeat split. constructor.
  - apply String.eqb_neq in Hdir.
    unfold_m.
    destruct (open_error (git w)) as [eo |] eqn:Hopen;
      [ eval_m; eexists _, _; split; [reflexivity |]; split; [| contradiction];
        intros _; erewrite Hnew by (simpl; rewrite <- ?app_assoc; reflexivity);
        repeat split; repeat constructor |].
    destruct (worktree_error (git w)) as [ew |] eqn:Hwt;
    (destruct (fetch_outcome (git w)) as [updates | | e] eqn:Hf;
      [ resolve_lookups (updates ∪ refs (repo w))
      | resolve_lookups (refs (repo w))
      | destruct e as [msg | msg cause | | | | what | |];
        [ | | | | | | resolve_lookups (refs (repo w)) | ] ];
      eval_m; eexists _, _; (split; [reflexivity |]); (split; [| contradiction]);
      intros [e0 He0]; try discriminate He0;
      erewrite Hnew by (simpl; rewrite <- ?app_assoc; reflexivity);
      repeat split; repeat constructor).
Qed.

(** ** The middleware: who is let through *)

Section MiddlewareAccess.
Context {bcrypt : Bcrypt}.

(** X18. The middleware lets a request through only on a valid
    credential. Whenever it calls [Next], the key presented is not empty,
    a management secret is configured (hash or environment), a remote
    caller is allowed and not banned, and the key is the local password
    (set, and the caller local), or the environment secret, or a password
    the configured hash accepts. *)
Theorem Middleware_admits_only_valid_credentials (h : management.Handler)
    (c : management.Context) (now later : Z) (w : World) :
  snd (management.Middleware h c now later w) = management.Next ->
  let ip := management.ClientIP c in
  let key := management.provided_key c in
  key <> "" /\
  (configured_secret h w <> "" \/ management.envSecret h <> "") /\
  (management.isLocal ip = false ->
     remote_allowed h w = true /\ banned_at h ip now = false) /\
  ((management.isLocal ip = true /\ management.localPassword h <> "" /\
    key = management.localPassword h) \/
   (management.envSecret h <> "" /\ key = management.envSecret h) \/
   (configured_secret h w <> "" /\
    CompareHashAndPassword (configured_secret h w) key = true)).
Proof.
  cbv zeta. unfold configured_secret, remote_allowed, banned_at.
  unfold management.Middleware, ConstantTimeCompare.
  set (key := management.provided_key c).
  set (ip := management.ClientIP c).
  intros Hnext.
  destruct (management.cfg h) as [p |]; cbv zeta beta iota in Hnext |- *;
    repeat match type of Hnext with
           | context [match management.failedAttempts h !! ip with _ => _ end] =>
               destruct (management.failedAttempts h !! ip) as [ai |] eqn:?
           | context [match management.blockedUntil ?a with _ => _ end] =>
               destruct (management.blockedUntil a) as [until |] eqn:?
           | context [if ?b then _ else _] =>
               destruct b eqn:?; cbn [negb andb orb snd fst] in Hnext;
               try discriminate Hnext
           end;
    simpl in *; try congruence;
    repeat match goal with
           | H : (_ && _)%bool = true |- _ => apply andb_true_iff in H as [? ?]
           | H : (_ || _)%bool = false |- _ => apply orb_false_iff in H as [? ?]
           | H : negb _ = true |- _ => apply negb_true_iff in H
           | H : negb _ = false |- _ => apply negb_false_iff in H
           | H : (_ && _)%bool = false |- _ => apply andb_false_iff in H as [H | H]
           | H : (_ || _)%bool = true |- _ => apply orb_true_iff in H as [H | H]
           | H : String.eqb _ _ = true |- _ => apply String.eqb_eq in H
           | H : String.eqb _ _ = false |- _ => apply String.eqb_neq in H
           end;
    try congruence;
    (split; [assumption |]);
    (split; [first [left; assumption | right; assumption | left; congruence
                   | right; congruence] |]);
    (split; [intros ?; first [congruence | split; first [assumption | reflexivity]] |]);
    first [ left; repeat split; assumption
          | right; left; split; first [assumption | congruence]
          | right; right; split; assumption ].
Qed.

(** X19. With an environment secret the handler allows remote
    management whatever the configuration says ([NewHandler] sets the
    override), so the environment secret opens the management API to any
    caller that is not banned: local or remote, with or without a
    configuration, with remote management allowed in it or not. *)
Theorem Middleware_accepts_the_environment_secret (h : management.Handler)
    (c : management.Context) (now later : Z) (w : World) :
  management.envSecret h <> "" ->
  management.allowRemoteOverride h = true ->
  management.provided_key c = management.envSecret h ->
  (management.isLocal (management.ClientIP c) = false ->
     banned_at h (management.ClientIP c) now = false) ->
  snd (management.Middleware h c now later w) = management.Next.
Proof.
  intros Henv Hallow Hkey Hban. apply String.eqb_neq in Henv.
  unfold management.Middleware, banned_at, ConstantTimeCompare in *.
  destruct (management.isLocal (management.ClientIP c)) eqn:Hlocal;
    [| specialize (Hban eq_refl)];
    destruct (management.cfg h) as [p |]; cbv zeta beta iota;
    rewrite ?Hallow, ?Hkey, ?Henv, ?String.eqb_refl, ?andb_false_r;
    cbn [negb andb orb];
    repeat match goal with
           | |- context [match management.failedAttempts h !! ?ip with _ => _ end] =>
               destruct (management.failedAttempts h !! ip) as [ai |]
           | |- context [match management.blockedUntil ?a with _ => _ end] =>
               destruct (management.blockedUntil a) as [until |]
           | H : ?b = false |- context [if ?b then _ else _] => rewrite H
           | |- context [if ?b then _ else _] => destruct b
           end;
    cbn [snd]; simpl; try rewrite Henv; try reflexivity.
Qed.

Lemma same_but_attempts_of_refl (ip : string) (h : management.Handler) :
  same_but_attempts_of ip h h.
Proof. repeat split. Qed.

Lemma same_but_attempts_of_trans (ip : string) (h1 h2 h3 : management.Handler) :
  same_but_attempts_of ip h1 h2 -> same_but_attempts_of ip h2 h3 ->
  same_but_attempts_of ip h1 h3.
Proof.
  unfold same_but_attempts_of.
  intros (A1 & A2 & A3 & A4 & A5 & A6 & A7) (B1 & B2 & B3 & B4 & B5 & B6 & B7).
  repeat split; try congruence. intros ip' Hne. rewrite B7, A7 by exact Hne. reflexivity.
Qed.

Lemma same_but_attempts_of_insert (ip : string) (h : management.Handler)
    (ai : management.attemptInfo) :
  same_but_attempts_of ip h
    (management.set_failedAttempts (<[ip := ai]> (management.failedAttempts h)) h).
Proof.
  repeat split. intros ip' Hne. simpl. apply lookup_insert_ne. congruence.
Qed.

Lemma same_but_attempts_of_after_ban_check (ip : string) (h : management.Handler) :
  same_but_attempts_of ip h (after_ban_check h ip).
Proof.
  unfold after_ban_check.
  destruct (management.failedAttempts h !! ip) as [ai |];
    [destruct (management.blockedUntil ai) |];
    first [apply same_but_attempts_of_insert | apply same_but_attempts_of_refl].
Qed.

Lemma same_but_attempts_of_fail (ip : string) (t : Z) (h : management.Handler) :
  same_but_attempts_of ip h (management.fail ip t h).
Proof. unfold management.fail. cbv zeta. apply same_but_attempts_of_insert. Qed.

Lemma same_but_attempts_of_reset (ip : string) (h : management.Handler) :
  same_but_attempts_of ip h (management.reset ip h).
Proof.
  unfold management.reset. destruct (management.failedAttempts h !! ip);
    first [apply same_but_attempts_of_insert | apply same_but_attempts_of_refl].
Qed.

(** X20. A request changes nothing of the handler but the attempts
    recorded for the address it comes from: the configuration reference,
    the secrets, the scheduler and the records of every other address
    are as before, and a request from the loopback address leaves the
    whole handler as it was (local callers are never counted and never
    banned). *)
Theorem Middleware_touches_only_the_caller (h : management.Handler)
    (c : management.Context) (now later : Z) (w : World) :
  same_but_attempts_of (management.ClientIP c) h
    (fst (management.Middleware h c now later w)) /\
  (management.isLocal (management.ClientIP c) = true ->
     fst (management.Middleware h c now later w) = h).
Proof.
  split; [| apply Middleware_local_handler].
  destruct (management.isLocal (management.ClientIP c)) eqn:Hlocal.
  - rewrite Middleware_local_handler by exact Hlocal. apply same_but_attempts_of_refl.
  - destruct (not_banned_cases h (management.ClientIP c) now)
      as [Hfree | (ai & until & Hai & Huntil & Hnow)].
    + pattern (management.Middleware h c now later w).
      apply Middleware_remote; [exact Hlocal | exact Hfree | ..]; cbn [fst].
      * intros _. apply same_but_attempts_of_after_ban_check.
      * intros _. eapply same_but_attempts_of_trans;
          [apply same_but_attempts_of_after_ban_check | apply same_but_attempts_of_fail].
      * eapply same_but_attempts_of_trans;
          [apply same_but_attempts_of_after_ban_check | apply same_but_attempts_of_reset].
    + rewrite (Middleware_banned h c now later w ai until Hlocal Hai Huntil Hnow).
      apply same_but_attempts_of_refl.
Qed.

(** X21. However many requests are served, from whatever addresses and
    with whatever keys, every failure counter stored in a handler made
    by [NewHandler] stays between 0 and 4: a fifth failure is never
    stored as a count, it becomes a ban with the count back at zero. *)
Theorem counters_stay_below_the_threshold (cfgp : option ptr) (path env : string)
    (reqs : list (management.Context * Z * Z * World)) :
  attempts_ok (handle_all (management.NewHandler cfgp path env) reqs).
Proof.
  generalize (NewHandler_attempts_ok cfgp path env).
  generalize (management.NewHandler cfgp path env).
  induction reqs as [| [[[c now] later] w] reqs IH]; intros h Hok; [exact Hok |].
  simpl. apply IH. apply Middleware_attempts_ok. exact Hok.
Qed.
End MiddlewareAccess.

(** ** The key a request presents *)

Lemma SplitN_space_2_scheme (scheme rest : string) :
  has_space scheme = false ->
  SplitN_space_2 (scheme +:+ String " " rest) = Some (scheme, rest).
Proof.
  induction scheme as [| a scheme IH]; intros Hno; [reflexivity |].
  simpl in Hno. apply orb_false_iff in Hno as [Ha Hrest].
  change (String a scheme +:+ String " " rest) with (String a (scheme +:+ String " " rest)).
  simpl. rewrite Ha, (IH Hrest). reflexivity.
Qed.

Lemma SplitN_space_2_no_space (s : string) :
  has_space s = false -> SplitN_space_2 s = None.
Proof.
  induction s as [| a s IH]; intros Hno; [reflexivity |].
  simpl in Hno. apply orb_false_iff in Hno as [Ha Hrest].
  simpl. rewrite Ha, (IH Hrest). reflexivity.
Qed.

Lemma append_space_not_empty (a b : string) : a +:+ String " " b <> "".
Proof. destruct a; discriminate. Qed.

(** X22. The key a request presents. A header [Authorization] whose
    first word is [bearer] in any letter case presents the text after the
    first space; with any other first word the whole header is the key;
    a header without a space is the key as it stands. The header
    [X-Management-Key] is used only when that leaves nothing: no
    [Authorization] header, or a [Bearer] with nothing after it. *)
Theorem provided_key_of_headers (ip scheme token header key : string) :
  has_space scheme = false ->
  has_space header = false ->
  (ToLower scheme = "bearer" -> token <> "" ->
     management.provided_key (with_headers ip (scheme +:+ String " " token) key) = token) /\
  (ToLower scheme = "bearer" ->
     management.provided_key (with_headers ip (scheme +:+ String " " "") key) = key) /\
  (ToLower scheme <> "bearer" ->
     management.provided_key (with_headers ip (scheme +:+ String " " token) key) =
       scheme +:+ String " " token) /\
  (header <> "" -> management.provided_key (with_headers ip header key) = header) /\
  management.provided_key (with_headers ip "" key) = key.
Proof.
  intros Hscheme Hheader. unfold management.provided_key, with_headers. simpl.
  repeat split.
  - intros Hbearer Htoken.
    pose proof (append_space_not_empty scheme token) as Hne.
    apply String.eqb_neq in Hne, Htoken. rewrite Hne. simpl.
    rewrite SplitN_space_2_scheme, Hbearer by exact Hscheme. simpl. rewrite Htoken.
    reflexivity.
  - intros Hbearer.
    pose proof (append_space_not_empty scheme "") as Hne.
    apply String.eqb_neq in Hne. rewrite Hne. simpl.
    rewrite SplitN_space_2_scheme, Hbearer by exact Hscheme. reflexivity.
  - intros Hother.
    pose proof (append_space_not_empty scheme token) as Hne.
    apply String.eqb_neq in Hne, Hother. rewrite Hne. simpl.
    rewrite SplitN_space_2_scheme, Hother, Hne by exact Hscheme. reflexivity.
  - intros Hne. apply String.eqb_neq in Hne. rewrite Hne. simpl.
    rewrite SplitN_space_2_no_space, Hne by exact Hheader. reflexivity.
Qed.

(** ** The storage handlers and the scheduler *)

Lemma launches_app (l1 l2 : list Event) :
  launches (l1 ++ l2) = (launches l1 ++ launches l2)%list.
Proof. apply omap_app. Qed.

Lemma closings_app (l1 l2 : list Event) :
  closings (l1 ++ l2) = (closings l1 ++ closings l2)%list.
Proof. apply omap_app. Qed.

Lemma persist_events_quiet (l : list Event) :
  Forall (fun e => is_persist_event e = true) l ->
  launches l = [] /\ closings l = [] /\ Forall (fun e => is_query e = false) l.
Proof.
  induction 1 as [| e l He _ (IH1 & IH2 & IH3)]; [repeat split; constructor |].
  destruct e; try discriminate He; repeat split; try assumption;
    constructor; try reflexivity; assumption.
Qed.

Lemma scheduler_events_no_query (l : list Event) :
  Forall (fun e => is_scheduler_event e = true) l ->
  Forall (fun e => is_query e = false) l.
Proof.
  intros Hl. eapply Forall_impl; [exact Hl |].
  intros e He. destruct e; try discriminate He; reflexivity.
Qed.

(** [UpdateConfig] with a configuration, case by case: what becomes of
    the scheduler, what is launched and what is closed. It returns when
    it has no channel to close, or the channel is open. *)
Lemma UpdateConfig_spec (s : store.GitScheduler) (p : ptr) (w : World) :
  (config.IsReadOnlyStorage (load p w) = true \/
   (store.running s = true -> store.stopCh s ∉ closed w)) ->
  let ro := config.IsReadOnlyStorage (load p w) in
  exists s' e w' l,
    store.UpdateConfig (Some p) s w = Val (s', e) w' /\
    events w' = (events w ++ l)%list /\
    Forall (fun e => is_scheduler_event e = true) l /\
    heap w' = heap w /\ fs w' = fs w /\ saved w' = saved w /\
    unsavable w' = unsavable w /\
    store.config s' = Some p /\
    store.stopCh s' = store.stopCh s /\
    store.tokenStore s' = store.tokenStore s /\
    store.running s' = ro && (store.running s || has_token_store s) /\
    launches l =
      (if ro && negb (store.running s) && has_token_store s then [store.stopCh s] else []) /\
    closings l = (if negb ro && store.running s then [store.stopCh s] else []) /\
    closed w' =
      (if negb ro && store.running s then {[store.stopCh s]} ∪ closed w else closed w).
Proof.
  intros Hsafe. cbv zeta. unfold store.UpdateConfig, read, bind, has_token_store. cbv beta.
  destruct (config.IsReadOnlyStorage (load p w)) eqn:Hro,
           (store.running s) eqn:Hrun; simpl.
  - eexists _, _, _, []. rewrite app_nil_r.
    repeat split; try reflexivity; try assumption; constructor.
  - unfold store.Start. simpl. rewrite Hrun. unfold_m. simpl.
    destruct (store.tokenStore s) eqn:Hts; simpl.
    + eexists _, _, _, [_; _].
      split; [reflexivity |]. split; [simpl; rewrite <- app_assoc; reflexivity |].
      repeat split; try reflexivity; try assumption; repeat constructor.
    + eexists _, _, _, []. rewrite app_nil_r.
      repeat split; try reflexivity; try assumption; constructor.
  - destruct Hsafe as [Hbad | Hopen]; [discriminate Hbad |].
    unfold store.Stop. simpl. rewrite Hrun. unfold_m. simpl.
    destruct (decide (store.stopCh s ∈ closed w)) as [Hin | _];
      [exfalso; exact (Hopen eq_refl Hin) |].
    eexists _, _, _, [_; _].
    split; [reflexivity |]. split; [simpl; rewrite <- app_assoc; reflexivity |].
    repeat split; try reflexivity; try assumption; repeat constructor.
  - eexists _, _, _, []. rewrite app_nil_r.
    repeat split; try reflexivity; try assumption; constructor.
Qed.

Section HandlerSpecs.
Context {json : config.JSON}.

Lemma persistBothToJSONAfterUnlock_unreadable (readOnly : bool) (minutes : Z)
    (w w' : World) :
  management.persistBothToJSONAfterUnlock readOnly minutes w = Val tt w' ->
  unreadable (fs w') = unreadable (fs w).
Proof.
  unfold management.persistBothToJSONAfterUnlock, ReadFile, WriteFile.
  unfold bind, log, emit, ret.
  destruct (decide (management.side_file ∈ unreadable (fs w))); simpl;
    [| destruct (files (fs w) !! management.side_file); simpl];
    (destruct (config.Unmarshal _); simpl;
     [destruct (decide (management.side_file ∈ unwritable (fs w))); simpl |]);
    intros [= <-]; reflexivity.
Qed.

(** The two writes that end an update: the main configuration file,
    then the side file with the two values given. *)
Lemma persist_tail_spec (h : management.Handler) (p : ptr) (readOnly : bool)
    (minutes : Z) (w : World) :
  management.cfg h = Some p ->
  exists w' l,
    (management.persistConfig h;;
     management.persistBothToJSONAfterUnlock readOnly minutes;;
     ret h) w = Val h w' /\
    events w' = (events w ++ l)%list /\
    Forall (fun e => is_persist_event e = true) l /\
    In (SaveConfig (management.configFilePath h)) l /\
    heap w' = heap w /\ closed w' = closed w /\
    (management.configFilePath h ∉ unsavable w ->
       saved w' !! management.configFilePath h = Some (load p w)) /\
    (side_file_ok (fs w) ->
       holds management.side_file (fs w')
         (config.MarshalIndent (document readOnly minutes))).
Proof.
  intros Hcfg.
  destruct (persistConfig_spec h p w Hcfg) as (ok & w1 & Hrun1 & Hev1 & Hheap1 & Hfs1 & Hsaved1).
  destruct (persistConfig_runs all_events all_events_save h w)
    as (ok' & w1' & l1' & Hrun1' & _ & _ & _ & Hclosed1 & _).
  rewrite Hrun1 in Hrun1'. injection Hrun1' as _ <-.
  destruct (persistBothToJSONAfterUnlock_spec readOnly minutes w1)
    as (w2 & l2 & Hrun2 & Hev2 & Hlog2 & Hheap2 & Hsaved2 & Hfile2).
  destruct (persistBothToJSONAfterUnlock_runs all_events all_events_log readOnly minutes w1)
    as (u & w2' & l2' & Hrun2' & _ & _ & _ & Hclosed2 & _).
  rewrite Hrun2 in Hrun2'. injection Hrun2' as <-.
  exists w2, (SaveConfig (management.configFilePath h) :: l2).
  unfold bind. rewrite Hrun1, Hrun2. unfold ret.
  split; [reflexivity |].
  split; [rewrite Hev2, Hev1, <- app_assoc; reflexivity |].
  split; [constructor; [reflexivity |];
          eapply Forall_impl; [exact Hlog2 |];
          intros e He; destruct e; try discriminate He; reflexivity |].
  split; [left; reflexivity |].
  split; [congruence |]. split; [congruence |].
  split; [intros Hsave; rewrite Hsaved2; exact (Hsaved1 Hsave) |].
  intros Hok. rewrite Hfs1 in Hfile2. specialize (Hfile2 Hok).
  pose proof (persistBothToJSONAfterUnlock_unreadable _ _ _ _ Hrun2) as Hunr.
  rewrite Hfs1 in Hunr. destruct Hok as (Hr & _).
  unfold holds, ReadFile. rewrite Hunr.
  destruct (decide (management.side_file ∈ unreadable (fs w))); [contradiction |].
  rewrite Hfile2. reflexivity.
Qed.

Lemma persistSyncIntervalToJSONAfterUnlock_eq (minutes : Z) (h : management.Handler)
    (p : ptr) (w : World) :
  management.cfg h = Some p ->
  management.persistSyncIntervalToJSONAfterUnlock minutes h w =
    management.persistBothToJSONAfterUnlock
      (config.IsReadOnlyStorage (load p w)) minutes w.
Proof.
  intros Hcfg. unfold management.persistSyncIntervalToJSONAfterUnlock.
  rewrite Hcfg. reflexivity.
Qed.

Lemma read_only_tail_eq (h : management.Handler) (p : ptr) (readOnly : bool) (w : World) :
  management.cfg h = Some p ->
  (management.persistConfig h;;
   management.persistReadOnlyToJSONAfterUnlock readOnly h;;
   ret h) w =
  (management.persistConfig h;;
   management.persistBothToJSONAfterUnlock readOnly
     (config.SyncIntervalMinutes (load p w));;
   ret h) w.
Proof.
  intros Hcfg.
  destruct (persistConfig_spec h p w Hcfg) as (ok & w1 & Hrun1 & _ & Hheap1 & _).
  unfold bind at 1 3. rewrite Hrun1. unfold bind.
  rewrite (persistReadOnlyToJSONAfterUnlock_eq readOnly h p w1 Hcfg).
  rewrite (load_same_heap p w w1 Hheap1). reflexivity.
Qed.

Lemma sync_interval_tail_eq (h : management.Handler) (p : ptr) (minutes : Z) (w : World) :
  management.cfg h = Some p ->
  (management.persistConfig h;;
   management.persistSyncIntervalToJSONAfterUnlock minutes h;;
   ret h) w =
  (management.persistConfig h;;
   management.persistBothToJSONAfterUnlock
     (config.IsReadOnlyStorage (load p w)) minutes;;
   ret h) w.
Proof.
  intros Hcfg.
  destruct (persistConfig_spec h p w Hcfg) as (ok & w1 & Hrun1 & _ & Hheap1 & _).
  unfold bind at 1 3. rewrite Hrun1. unfold bind.
  rewrite (persistSyncIntervalToJSONAfterUnlock_eq minutes h p w1 Hcfg).
  rewrite (load_same_heap p w w1 Hheap1). reflexivity.
Qed.

(** The part of an update under the lock, once the configuration at [p]
    has been changed into [c']: the scheduler is told, and a line may be
    logged. *)
Lemma locked_part_spec (h : management.Handler) (p : ptr) (c' : config.Config)
    (line : M unit) (w : World) :
  management.cfg h = Some p ->
  runs frame (fun e => is_log e = true) line ->
  let w1 := with_heap (fun hp => <[p := c']> hp) w in
  (config.IsReadOnlyStorage c' = true \/ stop_signal_live h w) ->
  exists h1 w3 l,
    (let* h :=
       match management.scheduler h with
       | Some s =>
           let* '(s, _) := store.UpdateConfig (Some p) s in
           ret (management.SetScheduler (Some s) h)
       | None => ret h
       end in
     line;; ret h) w1 = Val h1 w3 /\
    events w3 = (events w ++ l)%list /\
    Forall (fun e => is_query e = false) l /\
    management.cfg h1 = Some p /\
    management.configFilePath h1 = management.configFilePath h /\
    heap w3 = <[p := c']> (heap w) /\ fs w3 = fs w /\ saved w3 = saved w /\
    unsavable w3 = unsavable w /\
    scheduler_updated h h1 p (config.IsReadOnlyStorage c') l w w3.
Proof.
  intros Hcfg Hline w1 Hsafe.
  assert (Hload : load p w1 = c').
  { subst w1. unfold load. simpl. rewrite lookup_insert_eq. reflexivity. }
  unfold scheduler_updated.
  destruct (management.scheduler h) as [s |] eqn:Hs.
  - assert (Hsafe1 : config.IsReadOnlyStorage (load p w1) = true \/
                     (store.running s = true -> store.stopCh s ∉ closed w1)).
    { rewrite Hload. destruct Hsafe as [Hro | Hlive]; [left; exact Hro |].
      right. exact (Hlive s Hs). }
    destruct (UpdateConfig_spec s p w1 Hsafe1)
      as (s' & e & w2 & l2 & Hrun2 & Hev2 & Hsched2 & Hheap2 & Hfs2 & Hsaved2 & Huns2 &
          Hc2 & Hch2 & Hts2 & Hrunning2 & Hlaunch2 & Hclose2 & Hclosed2).
    rewrite Hload in Hrunning2, Hlaunch2, Hclose2, Hclosed2.
    destruct (Hline w2) as (u & w3 & l3 & Hrun3 & Hev3 & Hlog3 & Hfr3).
    destruct Hfr3 as (Hheap3 & Hfs3 & Hsaved3 & Huns3 & Hclosed3 & _).
    assert (Hquiet3 : launches l3 = [] /\ closings l3 = [] /\
                      Forall (fun e => is_query e = false) l3).
    { apply persist_events_quiet. eapply Forall_impl; [exact Hlog3 |].
      intros e0 He0. destruct e0; try discriminate He0; reflexivity. }
    destruct Hquiet3 as (Hl3 & Hc3 & Hq3).
    eexists _, w3, (l2 ++ l3)%list.
    unfold bind at 1. unfold bind at 1. rewrite Hrun2. unfold ret at 1.
    unfold bind at 1. rewrite Hrun3. unfold ret.
    split; [reflexivity |].
    split; [rewrite Hev3, Hev2, <- app_assoc; reflexivity |].
    split; [apply Forall_app; split; [apply scheduler_events_no_query; exact Hsched2 |
                                      exact Hq3] |].
    split; [exact Hcfg |]. split; [reflexivity |].
    split; [rewrite Hheap3, Hheap2; reflexivity |].
    split; [rewrite Hfs3, Hfs2; reflexivity |].
    split; [rewrite Hsaved3, Hsaved2; reflexivity |].
    split; [rewrite Huns3, Huns2; reflexivity |].
    exists s'. split; [reflexivity |].
    rewrite launches_app, closings_app, Hl3, Hc3, !app_nil_r, Hclosed3.
    repeat split; assumption.
  - destruct (Hline w1) as (u & w3 & l3 & Hrun3 & Hev3 & Hlog3 & Hfr3).
    destruct Hfr3 as (Hheap3 & Hfs3 & Hsaved3 & Huns3 & Hclosed3 & _).
    assert (Hquiet3 : launches l3 = [] /\ closings l3 = [] /\
                      Forall (fun e => is_query e = false) l3).
    { apply persist_events_quiet. eapply Forall_impl; [exact Hlog3 |].
      intros e0 He0. destruct e0; try discriminate He0; reflexivity. }
    destruct Hquiet3 as (Hl3 & Hc3 & Hq3).
    exists h, w3, l3.
    unfold bind at 1. unfold ret at 1. unfold bind at 1. rewrite Hrun3. unfold ret.
    split; [reflexivity |]. split; [exact Hev3 |]. split; [exact Hq3 |].
    split; [exact Hcfg |]. split; [reflexivity |].
    split; [exact Hheap3 |]. split; [exact Hfs3 |]. split; [exact Hsaved3 |].
    split; [exact Huns3 |].
    repeat split; assumption.
Qed.

Lemma scheduler_updated_app (h h' : management.Handler) (p : ptr) (ro : bool)
    (l l' : list Event) (w w1 w' : World) :
  scheduler_updated h h' p ro l w w1 ->
  Forall (fun e => is_persist_event e = true) l' ->
  closed w' = closed w1 ->
  scheduler_updated h h' p ro (l ++ l') w w'.
Proof.
  unfold scheduler_updated. intros Hupd Hl' Hclosed.
  destruct (persist_events_quiet l' Hl') as (Hla & Hcl & _).
  rewrite launches_app, closings_app, Hla, Hcl, !app_nil_r, Hclosed.
  exact Hupd.
Qed.

Lemma update_finish (h h1 : management.Handler) (p : ptr) (c' : config.Config)
    (l : list Event) (w w3 : World) (tail : M management.Handler) :
  management.cfg h = Some p ->
  events w3 = (events w ++ l)%list ->
  Forall (fun e => is_query e = false) l ->
  management.cfg h1 = Some p ->
  management.configFilePath h1 = management.configFilePath h ->
  heap w3 = <[p := c']> (heap w) -> fs w3 = fs w -> saved w3 = saved w ->
  unsavable w3 = unsavable w ->
  scheduler_updated h h1 p (config.IsReadOnlyStorage c') l w w3 ->
  tail w3 =
    (management.persistConfig h1;;
     management.persistBothToJSONAfterUnlock
       (config.IsReadOnlyStorage c') (config.SyncIntervalMinutes c');;
     ret h1) w3 ->
  exists w' l', tail w3 = Val h1 w' /\ update_done h h1 p c' l' w w'.
Proof.
  intros Hcfg Hev Hq Hcfg1 Hpath Hheap Hfs Hsaved Huns Hupd ->.
  destruct (persist_tail_spec h1 p (config.IsReadOnlyStorage c')
              (config.SyncIntervalMinutes c') w3 Hcfg1)
    as (w' & l' & Hrun & Hev' & Hp' & Hin' & Hheap' & Hclosed' & Hsaved' & Hfile').
  assert (Hload : load p w3 = c').
  { unfold load. rewrite Hheap, lookup_insert_eq. reflexivity. }
  exists w', (l ++ l')%list. split; [exact Hrun |].
  unfold update_done.
  split; [rewrite Hev', Hev, <- app_assoc; reflexivity |].
  split; [apply Forall_app; split; [exact Hq |];
          destruct (persist_events_quiet l' Hp') as (_ & _ & Hq'); exact Hq' |].
  split; [apply in_or_app; right; rewrite <- Hpath; exact Hin' |].
  split; [exact Hcfg1 |].
  split; [rewrite Hheap'; exact Hheap |].
  split; [intros Hsave; rewrite <- Hpath, <- Hload; apply Hsaved';
          rewrite Hpath, Huns; exact Hsave |].
  split; [intros Hok; apply Hfile'; rewrite Hfs; exact Hok |].
  eapply scheduler_updated_app; eassumption.
Qed.

Lemma updateStorageReadOnly_spec (ro : bool) (h : management.Handler) (p : ptr)
    (w : World) :
  management.cfg h = Some p ->
  (ro = true \/ stop_signal_live h w) ->
  exists h' w' l,
    management.updateStorageReadOnly ro h w = Val h' w' /\
    update_done h h' p (config.SetReadOnlyStorage ro (load p w)) l w w'.
Proof.
  intros Hcfg Hsafe.
  set (c' := config.SetReadOnlyStorage ro (load p w)).
  assert (Hline : runs frame (fun e => is_log e = true)
                    (if negb (eqb (config.IsReadOnlyStorage (load p w)) ro)
                     then if ro then log Info "Storage read-only mode enabled"
                          else log Info "Storage read-only mode disabled"
                     else ret tt)).
  { repeat runs_step; reflexivity. }
  destruct (locked_part_spec h p c' _ w Hcfg Hline)
    as (h1 & w3 & l & Hrun & Hev & Hq & Hcfg1 & Hpath & Hheap & Hfs & Hsaved & Huns & Hupd).
  { destruct Hsafe as [-> | Hlive]; [left; reflexivity | right; exact Hlive]. }
  unfold management.updateStorageReadOnly. rewrite Hcfg.
  unfold bind at 1. unfold bind at 1. unfold read at 1.
  unfold bind at 1. unfold update at 1.
  fold c'. rewrite Hrun.
  destruct (update_finish h h1 p c' l w w3
              (management.persistConfig h1;;
               management.persistReadOnlyToJSONAfterUnlock ro h1;;
               ret h1)
              Hcfg Hev Hq Hcfg1 Hpath Hheap Hfs Hsaved Huns Hupd)
    as (w' & l' & Hrun' & Hdone).
  { rewrite (read_only_tail_eq h1 p ro w3 Hcfg1).
    unfold load. rewrite Hheap, lookup_insert_eq. reflexivity. }
  exists h1, w', l'. split; [exact Hrun' | exact Hdone].
Qed.

Lemma updateStorageSyncInterval_spec (n : Z) (h : management.Handler) (p : ptr)
    (w : World) :
  management.cfg h = Some p ->
  stop_signal_live h w ->
  exists h' w' l,
    management.updateStorageSyncInterval n h w = Val h' w' /\
    update_done h h' p (config.SetSyncIntervalMinutes n (load p w)) l w w'.
Proof.
  intros Hcfg Hlive.
  set (c' := config.SetSyncIntervalMinutes n (load p w)).
  assert (Hline : runs frame (fun e => is_log e = true)
                    (log Info ("Storage sync interval updated to " +:+ itoa n
                               +:+ " minutes"))).
  { repeat runs_step; reflexivity. }
  destruct (locked_part_spec h p c' _ w Hcfg Hline (or_intror Hlive))
    as (h1 & w3 & l & Hrun & Hev & Hq & Hcfg1 & Hpath & Hheap & Hfs & Hsaved & Huns & Hupd).
  unfold management.updateStorageSyncInterval. rewrite Hcfg.
  unfold bind at 1. unfold bind at 1. unfold update at 1.
  fold c'. rewrite Hrun.
  destruct (update_finish h h1 p c' l w w3
              (management.persistConfig h1;;
               management.persistSyncIntervalToJSONAfterUnlock n h1;;
               ret h1)
              Hcfg Hev Hq Hcfg1 Hpath Hheap Hfs Hsaved Huns Hupd)
    as (w' & l' & Hrun' & Hdone).
  { rewrite (sync_interval_tail_eq h1 p n w3 Hcfg1).
    unfold load. rewrite Hheap, lookup_insert_eq. reflexivity. }
  exists h1, w', l'. split; [exact Hrun' | exact Hdone].
Qed.
End HandlerSpecs.

Section StorageEndpoints.
Context {json : config.JSON} {platform : Platform}.

(** X23. When the check for pending changes itself fails (the
    scheduler has no token store, or the token store reports an error),
    a request to enable read-only is answered 500 and changes nothing:
    the handler is as it was and the world has at most the record of the
    query added. The error wins over the answer that comes with it. *)
Theorem enable_read_only_when_the_check_fails (h : management.Handler)
    (s : store.GitScheduler) (c : management.Context) (w : World) :
  management.scheduler h = Some s ->
  management.parseBoolField c "read_only" "value" = (true, true) ->
  (store.tokenStore s = None ->
     exists b,
       management.PutStorageReadOnly h c w =
         Val (h, {| management.status := management.StatusInternalServerError;
                    management.body := b |}) w) /\
  (forall ts pending e,
     store.tokenStore s = Some ts -> pendingLocalChanges ts = (pending, Some e) ->
     exists b,
       management.PutStorageReadOnly h c w =
         Val (h, {| management.status := management.StatusInternalServerError;
                    management.body := b |})
           (with_events (events w ++ [PendingQuery]) w)).
Proof.
  intros Hs Hparse. unfold management.PutStorageReadOnly. rewrite Hparse. cbn [negb].
  unfold management.ensureCanEnableReadOnly. rewrite Hs.
  unfold store.HasPendingLocalChanges. split.
  - intros Hts. rewrite Hts. eexists. reflexivity.
  - intros ts pending e Hts Hpending. rewrite Hts.
    unfold TokenStore_HasPendingLocalChanges. rewrite Hpending.
    eexists. reflexivity.
Qed.

(** A request to enable read-only that gets past the check. *)
Lemma PutStorageReadOnly_passes (h : management.Handler) (c : management.Context)
    (value : bool) (w w1 : World) :
  management.parseBoolField c "read_only" "value" = (value, true) ->
  (if value then management.ensureCanEnableReadOnly h else ret None) w = Val None w1 ->
  management.PutStorageReadOnly h c w =
    (let* h := management.updateStorageReadOnly value h in
     ret (h, {| management.status := management.StatusOK;
                management.body := management.HReadOnly value |})) w1.
Proof.
  intros Hparse Hguard. unfold management.PutStorageReadOnly. rewrite Hparse. cbn [negb].
  unfold bind at 1. rewrite Hguard. reflexivity.
Qed.

(** X24. Switching read-only off never asks for pending changes and
    never launches a loop. The request is answered 200, the flag is
    cleared and the interval kept, and a scheduler that was running (on
    an open stop channel) is stopped by closing that channel; one that
    was stopped is left alone. *)
Theorem PutStorageReadOnly_disable (h : management.Handler) (c : management.Context)
    (p : ptr) (w : World) :
  management.cfg h = Some p ->
  management.parseBoolField c "read_only" "value" = (false, true) ->
  stop_signal_live h w ->
  exists h' w',
    management.PutStorageReadOnly h c w =
      Val (h', {| management.status := management.StatusOK;
                  management.body := management.HReadOnly false |}) w' /\
    config.IsReadOnlyStorage (load p w') = false /\
    config.SyncIntervalMinutes (load p w') = config.SyncIntervalMinutes (load p w) /\
    Forall (fun e => is_query e = false) (new_events w w') /\
    launches (new_events w w') = [] /\
    (forall s, management.scheduler h = Some s ->
       exists s',
         management.scheduler h' = Some s' /\ store.running s' = false /\
         closings (new_events w w') = (if store.running s then [store.stopCh s] else []) /\
         closed w' =
           (if store.running s then {[store.stopCh s]} ∪ closed w else closed w)).
Proof.
  intros Hcfg Hparse Hlive.
  rewrite (PutStorageReadOnly_passes h c false w w) by (exact Hparse || reflexivity).
  destruct (updateStorageReadOnly_spec false h p w Hcfg (or_intror Hlive))
    as (h' & w' & l & Hrun & Hev & Hq & _ & Hcfg' & Hheap & _ & _ & Hupd).
  exists h', w'. unfold bind. rewrite Hrun. unfold ret.
  rewrite (new_events_app w w' l Hev).
  assert (Hload : load p w' = config.SetReadOnlyStorage false (load p w)).
  { unfold load at 1. rewrite Hheap, lookup_insert_eq. reflexivity. }
  split; [reflexivity |]. rewrite Hload.
  split; [reflexivity |]. split; [reflexivity |]. split; [exact Hq |].
  unfold scheduler_updated in Hupd. simpl in Hupd.
  destruct (management.scheduler h) as [s |].
  - destruct Hupd as (s' & Hs' & _ & _ & _ & Hrunning & Hlaunch & Hclose & Hclosed).
    split; [exact Hlaunch |].
    intros s0 [= <-]. exists s'. repeat split; assumption.
  - destruct Hupd as (_ & Hlaunch & _). split; [exact Hlaunch |].
    intros s0 Hs0. discriminate Hs0.
Qed.


(** A round of the loop that syncs arms the timer of the interval it
    finds in the configuration. *)
Lemma run_iteration_arms_timer (s : store.GitScheduler) (ts : GitTokenStore) (c : ptr)
    (wake : Wake) (w : World) :
  store.running s = true ->
  store.config s = Some c ->
  store.tokenStore s = Some ts ->
  config.IsReadOnlyStorage (load c w) = true ->
  - max_interval_minutes <= config.SyncIntervalMinutes (load c w) <= max_interval_minutes ->
  In (NewTimer (timer_for (config.SyncIntervalMinutes (load c w))))
     (new_events w (world_of (store.run_iteration s wake w))).
Proof.
  intros Hrun Hc Hts Hro Hm.
  destruct (sync_spec s ts c w Hts Hc) as (err & w1 & l & Hsync & Hev & _ & Hfr).
  unfold store.run_iteration. rewrite Hrun, Hc. simpl.
  unfold read at 1. unfold bind at 1. rewrite Hro.
  unfold bind at 1. rewrite Hsync.
  destruct Hfr as (Hheap & _).
  pose proof (timer_for_wrapped _ Hm) as Htimer.
  unfold config.SyncIntervalMinutes, load in *.
  destruct err as [e |], wake; unfold_m; unfold load; simpl; rewrite Hheap, Htimer;
    (erewrite new_events_app by (simpl; rewrite Hev, <- ?app_assoc; reflexivity));
    apply in_or_app; right; simpl; tauto.
Qed.

(** X26. A new interval does not restart a running scheduler; the loop
    picks it up by itself. With read-only on and the scheduler of the
    handler running, an accepted interval of [n] minutes launches no
    loop and closes no channel, and the next round of the loop, reading
    the configuration it shares with the handler, arms a timer of [n]
    minutes. *)
Theorem PutStorageSyncInterval_reaches_the_running_loop (h : management.Handler)
    (s : store.GitScheduler) (ts : GitTokenStore) (c : management.Context)
    (p : ptr) (n : Z) (wake : Wake) (w : World) :
  management.cfg h = Some p ->
  management.scheduler h = Some s ->
  store.tokenStore s = Some ts ->
  store.running s = true ->
  store.stopCh s ∉ closed w ->
  config.IsReadOnlyStorage (load p w) = true ->
  management.parseIntField c "sync_interval_minutes" "value"
    management.minSyncIntervalMinutes = (n, true, None) ->
  1 <= n <= max_interval_minutes ->
  exists h' s' w',
    management.PutStorageSyncInterval h c w = Val (h', interval_accepted n) w' /\
    management.scheduler h' = Some s' /\
    store.running s' = true /\
    launches (new_events w w') = [] /\
    closings (new_events w w') = [] /\
    In (NewTimer (n * Minute))
       (new_events w' (world_of (store.run_iteration s' wake w'))).
Proof.
  intros Hcfg Hs Hts Hrun Hopen Hro Hparse Hn.
  assert (Hlive : stop_signal_live h w).
  { intros s0 Hs0 _. rewrite Hs in Hs0. injection Hs0 as <-. exact Hopen. }
  destruct (updateStorageSyncInterval_spec n h p w Hcfg Hlive)
    as (h' & w' & l & Hupdate & Hev & _ & _ & _ & Hheap & _ & _ & Hupd).
  unfold scheduler_updated in Hupd. rewrite Hs in Hupd.
  change (config.IsReadOnlyStorage (config.SetSyncIntervalMinutes n (load p w)))
    with (config.IsReadOnlyStorage (load p w)) in Hupd.
  rewrite Hro, Hrun in Hupd. simpl in Hupd.
  destruct Hupd as (s' & Hs' & Hconfig & _ & Hts' & Hrunning & Hlaunch & Hclose & _).
  exists h', s', w'.
  unfold management.PutStorageSyncInterval. rewrite Hparse. cbn [negb].
  unfold bind. rewrite Hupdate. unfold ret, interval_accepted.
  rewrite (new_events_app w w' l Hev).
  split; [reflexivity |]. split; [exact Hs' |]. split; [exact Hrunning |].
  split; [exact Hlaunch |]. split; [exact Hclose |].
  assert (Hload : load p w' = config.SetSyncIntervalMinutes n (load p w)).
  { unfold load at 1. rewrite Hheap, lookup_insert_eq. reflexivity. }
  pose proof (run_iteration_arms_timer s' ts p wake w' Hrunning Hconfig) as Htimer.
  rewrite Hload in Htimer. simpl in Htimer.
  unfold timer_for in Htimer.
  replace (0 <? n) with true in Htimer by (symmetry; apply Z.ltb_lt; lia).
  apply Htimer; [rewrite Hts'; exact Hts | exact Hro |].
  unfold max_interval_minutes in *. lia.
Qed.

Lemma ensureCanEnableReadOnly_frame (h : management.Handler) (w w1 : World)
    (refused : option management.Response) :
  management.ensureCanEnableReadOnly h w = Val refused w1 ->
  heap w1 = heap w /\ fs w1 = fs w /\ closed w1 = closed w /\
  unsavable w1 = unsavable w /\
  (exists l, events w1 = (events w ++ l)%list) /\
  (forall r, refused = Some r -> management.status r <> management.StatusOK).
Proof.
  unfold management.ensureCanEnableReadOnly, store.HasPendingLocalChanges,
    TokenStore_HasPendingLocalChanges.
  destruct (management.scheduler h) as [s |];
    [destruct (store.tokenStore s) as [ts |];
     [destruct (pendingLocalChanges ts) as [[|] [e |]] |] |];
    unfold bind, emit, ret; intros [= <- <-]; simpl;
    repeat split;
    try (eexists; reflexivity);
    try (exists []; rewrite app_nil_r; reflexivity);
    intros r [= <-]; discriminate.
Qed.

(** An accepted request to [PutStorageReadOnly]: the response is that of
    the value sent and the update has been carried out from a world that
    differs from the first by the record of the check. *)
Lemma PutStorageReadOnly_accepted (h h' : management.Handler) (c : management.Context)
    (p : ptr) (r : management.Response) (w w' : World) :
  management.cfg h = Some p ->
  stop_signal_live h w ->
  management.PutStorageReadOnly h c w = Val (h', r) w' ->
  management.status r = management.StatusOK ->
  exists value w1 l,
    r = {| management.status := management.StatusOK;
           management.body := management.HReadOnly value |} /\
    heap w1 = heap w /\ fs w1 = fs w /\ unsavable w1 = unsavable w /\
    update_done h h' p (config.SetReadOnlyStorage value (load p w1)) l w1 w'.
Proof.
  intros Hcfg Hlive Hput Hok. unfold management.PutStorageReadOnly in Hput.
  destruct (management.parseBoolField c "read_only" "value") as [value found].
  destruct found; cbn [negb] in Hput;
    [| injection Hput as _ <- _; discriminate Hok].
  unfold bind at 1 in Hput.
  destruct ((if value then management.ensureCanEnableReadOnly h else ret None) w)
    as [refused w1 | msg w1] eqn:Hguard; [| discriminate Hput].
  assert (Hframe : heap w1 = heap w /\ fs w1 = fs w /\ closed w1 = closed w /\
                   unsavable w1 = unsavable w /\
                   (forall r0, refused = Some r0 ->
                      management.status r0 <> management.StatusOK)).
  { destruct value.
    - destruct (ensureCanEnableReadOnly_frame h w w1 refused Hguard)
        as (? & ? & ? & ? & _ & ?). repeat split; assumption.
    - injection Hguard as <- <-. repeat split. intros r0 Hr0. discriminate Hr0. }
  destruct Hframe as (Hheap1 & Hfs1 & Hclosed1 & Huns1 & Hrefused).
  destruct refused as [r0 |].
  - injection Hput as _ <- _. exfalso. exact (Hrefused r0 eq_refl Hok).
  - assert (Hlive1 : stop_signal_live h w1).
    { intros s0 Hs0 Hr0. rewrite Hclosed1. exact (Hlive s0 Hs0 Hr0). }
    destruct (updateStorageReadOnly_spec value h p w1 Hcfg (or_intror Hlive1))
      as (h1 & w2 & l & Hrun & Hdone).
    unfold bind in Hput. rewrite Hrun in Hput. injection Hput as <- <- <-.
    exists value, w1, l. split; [reflexivity |]. split; [exact Hheap1 |].
    split; [exact Hfs1 |]. split; [exact Huns1 | exact Hdone].
Qed.

Lemma PutStorageSyncInterval_accepted (h h' : management.Handler)
    (c : management.Context) (p : ptr) (r : management.Response) (w w' : World) :
  management.cfg h = Some p ->
  stop_signal_live h w ->
  management.PutStorageSyncInterval h c w = Val (h', r) w' ->
  management.status r = management.StatusOK ->
  exists n l,
    r = interval_accepted n /\
    update_done h h' p (config.SetSyncIntervalMinutes n (load p w)) l w w'.
Proof.
  intros Hcfg Hlive Hput Hok. unfold management.PutStorageSyncInterval in Hput.
  destruct (management.parseIntField c "sync_interval_minutes" "value"
              management.minSyncIntervalMinutes) as [[n found] err].
  destruct err as [e |]; [injection Hput as _ <- _; discriminate Hok |].
  destruct found; cbn [negb] in Hput;
    [| injection Hput as _ <- _; discriminate Hok].
  destruct (updateStorageSyncInterval_spec n h p w Hcfg Hlive)
    as (h1 & w2 & l & Hrun & Hdone).
  unfold bind in Hput. rewrite Hrun in Hput. injection Hput as <- <- <-.
  exists n, l. split; [reflexivity | exact Hdone].
Qed.

(** Without a configuration the updates store nothing and hand back the
    handler they were given. *)
Lemma updateStorageReadOnly_nil (readOnly : bool) (h : management.Handler) (w : World) :
  management.cfg h = None ->
  exists w', management.updateStorageReadOnly readOnly h w = Val h w' /\ heap w' = heap w.
Proof.
  intros Hcfg. unfold management.updateStorageReadOnly. rewrite Hcfg.
  destruct (read_only_tail_runs all_events readOnly h (fun _ _ => I) (fun _ => I) w)
    as (a & w' & l & Hrun & _ & _ & Hmem).
  assert (Ha : a = h).
  { revert Hrun. unfold bind, ret.
    destruct (management.persistConfig h w) as [ok w1 | msg w1]; [| discriminate].
    destruct (management.persistReadOnlyToJSONAfterUnlock readOnly h w1)
      as [u w2 | msg w2]; [| discriminate].
    intros [= <- _]. reflexivity. }
  subst a. exists w'. split; [exact Hrun | apply Hmem].
Qed.

Lemma updateStorageSyncInterval_nil (minutes : Z) (h : management.Handler) (w : World) :
  management.cfg h = None ->
  exists w', management.updateStorageSyncInterval minutes h w = Val h w' /\
             heap w' = heap w.
Proof.
  intros Hcfg. unfold management.updateStorageSyncInterval. rewrite Hcfg.
  destruct (sync_interval_tail_runs all_events minutes h (fun _ _ => I) (fun _ => I) w)
    as (a & w' & l & Hrun & _ & _ & Hmem).
  assert (Ha : a = h).
  { revert Hrun. unfold bind, ret.
    destruct (management.persistConfig h w) as [ok w1 | msg w1]; [| discriminate].
    destruct (management.persistSyncIntervalToJSONAfterUnlock minutes h w1)
      as [u w2 | msg w2]; [| discriminate].
    intros [= <- _]. reflexivity. }
  subst a. exists w'. split; [exact Hrun | apply Hmem].
Qed.

(** X27. Reading back what was written. For a handler that has a
    configuration (the stop channel of a running scheduler being open),
    after a request that either storage endpoint has answered 200 the
    matching GET on the resulting handler gives the very response the PUT
    gave. A handler without a configuration has nothing to read back:
    whatever a PUT answered, the handler it leaves has no configuration
    and both GETs answer 500, and a request to switch read-only off is
    answered 200 with nothing stored. *)
Theorem GET_answers_what_the_accepted_PUT_answered (h h' : management.Handler)
    (c : management.Context) (r : management.Response) (w w' : World) :
  (forall p,
     management.cfg h = Some p ->
     stop_signal_live h w ->
     management.status r = management.StatusOK ->
     (management.PutStorageReadOnly h c w = Val (h', r) w' ->
        management.GetStorageReadOnly h' w' = Val r w') /\
     (management.PutStorageSyncInterval h c w = Val (h', r) w' ->
        management.GetStorageSyncInterval h' w' = Val r w')) /\
  (management.cfg h = None ->
     management.PutStorageReadOnly h c w = Val (h', r) w' \/
     management.PutStorageSyncInterval h c w = Val (h', r) w' ->
     management.cfg h' = None /\
     management.GetStorageReadOnly h' w' = Val configuration_not_available w' /\
     management.GetStorageSyncInterval h' w' = Val configuration_not_available w') /\
  (management.cfg h = None ->
     management.parseBoolField c "read_only" "value" = (false, true) ->
     exists w1,
       management.PutStorageReadOnly h c w =
         Val (h, {| management.status := management.StatusOK;
                    management.body := management.HReadOnly false |}) w1 /\
       heap w1 = heap w).
Proof.
  split; [| split].
  - intros p Hcfg Hlive Hok. split; intros Hput.
    + destruct (PutStorageReadOnly_accepted h h' c p r w w' Hcfg Hlive Hput Hok)
        as (value & w1 & l & -> & _ & _ & _ & Hdone).
      destruct Hdone as (_ & _ & _ & Hcfg' & Hheap & _).
      unfold management.GetStorageReadOnly. rewrite Hcfg'. unfold bind, read, ret.
      unfold load at 1. rewrite Hheap, lookup_insert_eq. reflexivity.
    + destruct (PutStorageSyncInterval_accepted h h' c p r w w' Hcfg Hlive Hput Hok)
        as (n & l & -> & Hdone).
      destruct Hdone as (_ & _ & _ & Hcfg' & Hheap & _).
      unfold management.GetStorageSyncInterval. rewrite Hcfg'. unfold bind, read, ret.
      unfold load at 1. rewrite Hheap, lookup_insert_eq. reflexivity.
  - intros Hcfg Hput.
    assert (Hh : h' = h).
    { destruct Hput as [Hput | Hput].
      - unfold management.PutStorageReadOnly in Hput.
        destruct (management.parseBoolField c "read_only" "value") as [value found].
        destruct found; cbn [negb] in Hput; [| injection Hput as <- _ _; reflexivity].
        unfold bind at 1 in Hput.
        destruct ((if value then management.ensureCanEnableReadOnly h else ret None) w)
          as [refused w1 | msg w1]; [| discriminate Hput].
        destruct refused as [r0 |]; [injection Hput as <- _ _; reflexivity |].
        destruct (updateStorageReadOnly_nil value h w1 Hcfg) as (w2 & Hrun & _).
        unfold bind in Hput. rewrite Hrun in Hput.
        injection Hput as <- _ _. reflexivity.
      - unfold management.PutStorageSyncInterval in Hput.
        destruct (management.parseIntField c "sync_interval_minutes" "value"
                    management.minSyncIntervalMinutes) as [[value found] err].
        destruct err as [e |]; [injection Hput as <- _ _; reflexivity |].
        destruct found; cbn [negb] in Hput; [| injection Hput as <- _ _; reflexivity].
        destruct (updateStorageSyncInterval_nil value h w Hcfg) as (w2 & Hrun & _).
        unfold bind in Hput. rewrite Hrun in Hput.
        injection Hput as <- _ _. reflexivity. }
    subst h'. split; [exact Hcfg |].
    unfold management.GetStorageReadOnly, management.GetStorageSyncInterval.
    rewrite Hcfg. split; reflexivity.
  - intros Hcfg Hparse. unfold management.PutStorageReadOnly. rewrite Hparse.
    cbn [negb]. unfold bind at 1. unfold ret at 1.
    destruct (updateStorageReadOnly_nil false h w Hcfg) as (w2 & Hrun & Hheap).
    exists w2. unfold bind. rewrite Hrun. split; [reflexivity | exact Hheap].
Qed.

(** X28. What an accepted PUT persisted is what a restart loads. After
    a request that either storage endpoint has accepted, with a side
    file that could be rewritten and a JSON library that decodes the
    document written, [LoadReadOnlyStorageConfig] on the side file returns no
    error and gives the read-only flag now in memory, and the interval
    now in memory when that is positive. *)
Theorem accepted_PUT_survives_a_restart (h h' : management.Handler)
    (c : management.Context) (p : ptr) (r : management.Response) (w w' : World)
    (c0 : config.Config) :
  management.cfg h = Some p ->
  stop_signal_live h w ->
  side_file_ok (fs w) ->
  management.status r = management.StatusOK ->
  management.PutStorageReadOnly h c w = Val (h', r) w' \/
  management.PutStorageSyncInterval h c w = Val (h', r) w' ->
  (let doc := document (config.IsReadOnlyStorage (load p w'))
                       (config.SyncIntervalMinutes (load p w')) in
   config.Unmarshal (config.MarshalIndent doc) = Some doc) ->
  let loaded := config.LoadReadOnlyStorageConfig c0 management.side_file (fs w') in
  snd loaded = None /\
  config.IsReadOnlyStorage (fst loaded) = config.IsReadOnlyStorage (load p w') /\
  (0 < config.SyncIntervalMinutes (load p w') ->
     config.SyncIntervalMinutes (fst loaded) = config.SyncIntervalMinutes (load p w')).
Proof.
  intros Hcfg Hlive Hside Hok Hput Hcodec.
  assert (Hdone : exists c' l w1,
             fs w1 = fs w /\ update_done h h' p c' l w1 w').
  { destruct Hput as [Hput | Hput].
    - destruct (PutStorageReadOnly_accepted h h' c p r w w' Hcfg Hlive Hput Hok)
        as (value & w1 & l & _ & _ & Hfs1 & _ & Hdone). eauto.
    - destruct (PutStorageSyncInterval_accepted h h' c p r w w' Hcfg Hlive Hput Hok)
        as (n & l & _ & Hdone). eauto. }
  destruct Hdone as (c' & l & w1 & Hfs1 & Hdone).
  destruct Hdone as (_ & _ & _ & _ & Hheap & _ & Hfile & _).
  rewrite Hfs1 in Hfile. specialize (Hfile Hside).
  assert (Hload : load p w' = c').
  { unfold load. rewrite Hheap, lookup_insert_eq. reflexivity. }
  rewrite Hload in *. cbv zeta in Hcodec.
  pose proof (LoadReadOnlyStorageConfig_decoded c0 management.side_file (fs w') _ _
                Hfile Hcodec) as Hloaded.
  cbv zeta in *. simpl in Hloaded. destruct Hloaded as (Hro & Hint & Herr).
  split; [exact Herr |]. split; [exact Hro |].
  intros Hpos. rewrite Hint. apply Z.ltb_lt in Hpos. rewrite Hpos. reflexivity.
Qed.

(** X29. A body the endpoint cannot use is refused before anything is
    touched. [PutStorageReadOnly] answers 400 "invalid body" and changes
    nothing when the body does not bind or holds a boolean under neither
    [read_only] nor [value]; a [read_only] of another type is passed over
    and the boolean under [value] is used. [PutStorageSyncInterval]
    answers 400 "invalid body" and changes nothing when the body does not
    bind or has neither [sync_interval_minutes] nor [value]. *)
Theorem storage_PUT_with_an_unusable_body (h : management.Handler)
    (c : management.Context) (w : World) :
  ((management.Body c = None \/
    (exists m, management.Body c = Some m /\
               (forall b, m !! "read_only" <> Some (ABool b)) /\
               (forall b, m !! "value" <> Some (ABool b)))) ->
   management.PutStorageReadOnly h c w = Val (h, bad_request "invalid body") w) /\
  (forall m b,
     management.Body c = Some m ->
     (forall b0, m !! "read_only" <> Some (ABool b0)) ->
     m !! "value" = Some (ABool b) ->
     management.parseBoolField c "read_only" "value" = (b, true)) /\
  ((management.Body c = None \/
    (exists m, management.Body c = Some m /\
               m !! "sync_interval_minutes" = None /\ m !! "value" = None)) ->
   management.PutStorageSyncInterval h c w = Val (h, bad_request "invalid body") w).
Proof.
  split; [| split].
  - intros Hbody.
    assert (Hparse : management.parseBoolField c "read_only" "value" = (false, false)).
    { unfold management.parseBoolField.
      destruct Hbody as [-> | (m & -> & Hp & Ha)]; [reflexivity |].
      destruct (m !! "read_only") as [[| b | | | | |] |] eqn:Hprimary;
        try (exfalso; exact (Hp b eq_refl));
        destruct (m !! "value") as [[| b' | | | | |] |] eqn:Halt;
        try (exfalso; exact (Ha b' eq_refl)); reflexivity. }
    unfold management.PutStorageReadOnly. rewrite Hparse. reflexivity.
  - intros m b Hbody Hp Ha. unfold management.parseBoolField. rewrite Hbody.
    destruct (m !! "read_only") as [[| b0 | | | | |] |] eqn:Hprimary;
      try (exfalso; exact (Hp b0 eq_refl)); rewrite Ha; reflexivity.
  - intros Hbody.
    assert (Hparse : management.parseIntField c "sync_interval_minutes" "value"
                       management.minSyncIntervalMinutes = (0, false, None)).
    { unfold management.parseIntField.
      destruct Hbody as [-> | (m & -> & -> & ->)]; reflexivity. }
    unfold management.PutStorageSyncInterval. rewrite Hparse. reflexivity.
Qed.
End StorageEndpoints.

(** ** The theorems on the deployment *)

(** Events for another file of [data], a [Chmod] of the side file and a
    watcher error leave read-only on, though the file says off. *)
Lemma watcher_ignores_unrelated_events_witness :
  fst (fst (config.watcher_loop (json := encoding_json.json)
              (config_with true 10) management.side_file
              [(fs_with_side_file config.default_document,
                config.EventMsg "data/auths.json" config.fsnotify_Write);
               (fs_with_side_file config.default_document,
                config.EventMsg management.side_file config.fsnotify_Chmod);
               (fs_with_side_file config.default_document, config.ErrorMsg ErrIO)])) =
  config_with true 10.
Proof.
  eapply proj1, (watcher_ignores_unrelated_events (json := encoding_json.json)).
  constructor; [simpl; left; discriminate |].
  constructor;
    [simpl; right; unfold writes_or_creates; vm_compute; intros [H | H]; discriminate H |].
  constructor; [exact I | constructor].
Defined.

(** The events channel closed before a [Write] event of a side file
    that says off: read-only stays on and the goroutine has returned. *)
Lemma watcher_stops_at_cancellation_witness :
  config.watcher_loop (json := encoding_json.json) (config_with true 10)
    management.side_file
    [(fs_with_side_file config.default_document, config.EventsClosed);
     (fs_with_side_file config.default_document,
      config.EventMsg management.side_file config.fsnotify_Write)] =
  (config_with true 10, [], true).
Proof.
  destruct (watcher_stops_at_cancellation (json := encoding_json.json)
              (config_with true 10) management.side_file []
              [(fs_with_side_file config.default_document,
                config.EventMsg management.side_file config.fsnotify_Write)]
              (fs_with_side_file config.default_document) config.EventsClosed)
    as (_ & _ & Hlast).
  { right. left. reflexivity. }
  exact (Hlast _ _ eq_refl).
Defined.

(** A [Write] event after persisting read-only with thirty minutes. *)
Lemma watcher_reload_witness :
  exists c',
    config.watcher_round (json := encoding_json.json) (config_with false 5)
      management.side_file
      (fst (config.PersistReadOnlyState (json := encoding_json.json) true 30
              management.side_file empty_fs))
      (config.EventMsg management.side_file config.fsnotify_Write) =
      (c', [config.Reloaded management.side_file], false) /\
    config.IsReadOnlyStorage c' = true /\
    config.SyncIntervalMinutes c' = 30.
Proof.
  destruct (watcher_reload (json := encoding_json.json) (config_with false 5)
              management.side_file config.fsnotify_Write) as [Hpersisted _].
  { left. reflexivity. }
  destruct (Hpersisted true 30 empty_fs) as (c' & Hround & Hro & Hint);
    [vm_compute; reflexivity | vm_compute; reflexivity |].
  exists c'. split; [exact Hround |]. split; [exact Hro | exact Hint].
Defined.

(** Persisting off with no interval over read-only with thirty minutes
    is persisting off with no interval. *)
Lemma PersistReadOnlyState_last_write_wins_witness :
  config.PersistReadOnlyState (json := encoding_json.json) false 0 management.side_file
    (fst (config.PersistReadOnlyState (json := encoding_json.json) true 30
            management.side_file empty_fs)) =
  config.PersistReadOnlyState (json := encoding_json.json) false 0 management.side_file
    empty_fs.
Proof.
  eapply proj1, (PersistReadOnlyState_last_write_wins (json := encoding_json.json)).
  - vm_compute. reflexivity.
  - eexists. vm_compute. reflexivity.
Defined.

(** A side file cut after its first character. *)
Lemma undecodable_side_file_is_never_rewritten_witness :
  fs (world_of (management.persistBothToJSONAfterUnlock (json := encoding_json.json)
                  true 10 (with_fs (fs_with_side_file "{") w_writable))) =
  fs_with_side_file "{".
Proof.
  destruct (undecodable_side_file_is_never_rewritten (json := encoding_json.json)
              "{" true 10 (with_fs (fs_with_side_file "{") w_writable)
              (config_with true 10)) as (_ & Hhandler & _).
  - vm_compute. reflexivity.
  - vm_compute. reflexivity.
  - rewrite Hhandler. reflexivity.
Defined.

(** A sync that succeeds invokes the callback of the scheduler once. *)
Lemma sync_callback_only_after_success_witness :
  exists err w',
    store.sync s_with_callback (w_read_only 10) = Val err w' /\
    callbacks (new_events (w_read_only 10) w') =
      match err with None => [7%nat] | Some _ => [] end.
Proof.
  destruct (sync_callback_only_after_success s_with_callback ts0 0%nat (w_read_only 10)
              eq_refl eq_refl) as (err & w' & Hrun & Hcb & _).
  exists err, w'. split; [exact Hrun | exact Hcb].
Defined.

(** [Start] on the running scheduler of the deployment moves it to the
    channel 1. *)
Lemma Start_on_a_running_scheduler_witness :
  exists s' w',
    store.Start s_running (w_read_only 10) = Val (s', None) w' /\
    store.running s' = true /\ store.stopCh s' = 1%nat /\
    closings (new_events (w_read_only 10) w') = [0%nat] /\
    launches (new_events (w_read_only 10) w') = [1%nat].
Proof.
  destruct (Start_on_a_running_scheduler s_running (w_read_only 10) eq_refl)
    as (s' & err & w' & Hrun & Hclose & _ & Hch & Hok & _).
  { apply not_elem_of_empty. }
  destruct Hok as (-> & Hrunning & Hlaunch); [eexists; reflexivity .. |].
  exists s', w'. repeat split; assumption.
Defined.

Lemma Stop_is_idempotent_witness :
  exists s' w',
    store.Stop s_running (w_read_only 10) = Val s' w' /\
    store.Stop s' w' = Val s' w'.
Proof.
  destruct (Stop_is_idempotent s_running (w_read_only 10)) as (s' & w' & Hstop & _ & Hagain).
  { right. apply not_elem_of_empty. }
  exists s', w'. split; assumption.
Defined.

(** With read-only off, [Start] of [store] launches the loop and [Start]
    of the older copy does not. *)
Lemma Start_and_the_read_only_flag_witness :
  launches (events (world_of (store.Start s_stopped w_writable))) = [0%nat] /\
  launches (events (world_of (store_v1.Start s_stopped w_writable))) = [].
Proof.
  destruct (Start_and_the_read_only_flag s_stopped 0%nat ts0 w_writable
              eq_refl eq_refl eq_refl) as [Hnew Hold].
  rewrite Hnew, Hold. split; reflexivity.
Defined.

(** The remote cannot be reached: the file modified locally stays
    modified. *)
Lemma pullChanges_failure_keeps_the_working_copy_witness :
  exists r w',
    store.pullChanges s_running w_offline = Val r w' /\
    is_Some r /\
    local_changes (repo w') = [Unstaged "auths/account.json"].
Proof.
  destruct (pullChanges_failure_keeps_the_working_copy s_running ts0 w_offline
              eq_refl eq_refl) as (r & w' & Hrun & Hfail & _).
  assert (Hr : is_Some r).
  { vm_compute in Hrun. injection Hrun as <- _. eexists. reflexivity. }
  exists r, w'. split; [exact Hrun |]. split; [exact Hr |].
  destruct (Hfail Hr) as (_ & Hlocal & _). exact Hlocal.
Defined.

(** The remote caller of the concrete server is let through on a key
    that the configured hash accepts. *)
Lemma Middleware_admits_only_valid_credentials_witness :
  snd (management.Middleware (bcrypt := toy_bcrypt) h_remote
         (request remote_ip "s3cret") 0 0 w_remote) = management.Next /\
  management.provided_key (request remote_ip "s3cret") <> "" /\
  remote_allowed h_remote w_remote = true.
Proof.
  assert (Hnext : snd (management.Middleware (bcrypt := toy_bcrypt) h_remote
                         (request remote_ip "s3cret") 0 0 w_remote) = management.Next)
    by (vm_compute; reflexivity).
  destruct (Middleware_admits_only_valid_credentials (bcrypt := toy_bcrypt) h_remote
              (request remote_ip "s3cret") 0 0 w_remote Hnext)
    as (Hkey & _ & Hremote & _).
  split; [exact Hnext |]. split; [exact Hkey |].
  exact (proj1 (Hremote eq_refl)).
Defined.

(** The configuration does not allow remote management and holds no
    secret hash; the environment secret lets a remote caller in. *)
Lemma Middleware_accepts_the_environment_secret_witness :
  remote_allowed (management.NewHandler (Some 0%nat) "config.yaml" "") w_writable = false /\
  snd (management.Middleware (bcrypt := toy_bcrypt) h_env
         (request remote_ip "env-s3cret") 0 0 w_writable) = management.Next.
Proof.
  split; [reflexivity |].
  apply (Middleware_accepts_the_environment_secret (bcrypt := toy_bcrypt)).
  - discriminate.
  - reflexivity.
  - reflexivity.
  - intros _. reflexivity.
Defined.

Lemma provided_key_of_headers_witness :
  management.provided_key (with_headers "127.0.0.1" "BEARER abc" "xyz") = "abc" /\
  management.provided_key (with_headers "127.0.0.1" "Bearer " "xyz") = "xyz" /\
  management.provided_key (with_headers "127.0.0.1" "Basic abc" "xyz") = "Basic abc".
Proof.
  destruct (provided_key_of_headers "127.0.0.1" "BEARER" "abc" "abc" "xyz" eq_refl eq_refl)
    as (Hbearer & _).
  destruct (provided_key_of_headers "127.0.0.1" "Bearer" "abc" "abc" "xyz" eq_refl eq_refl)
    as (_ & Hempty & _).
  destruct (provided_key_of_headers "127.0.0.1" "Basic" "abc" "abc" "xyz" eq_refl eq_refl)
    as (_ & _ & Hbasic & _).
  split; [apply Hbearer; [reflexivity | discriminate] |].
  split; [apply Hempty; reflexivity | apply Hbasic; discriminate].
Defined.

(** A scheduler without a token store: enabling read-only is answered
    500 and nothing changes. *)
Lemma enable_read_only_when_the_check_fails_witness :
  exists b,
    management.PutStorageReadOnly (json := encoding_json.json) (h_wired s_no_store)
      enable_request w_writable =
    Val (h_wired s_no_store,
         {| management.status := management.StatusInternalServerError;
            management.body := b |}) w_writable.
Proof.
  destruct (enable_read_only_when_the_check_fails (json := encoding_json.json)
              (h_wired s_no_store) s_no_store enable_request w_writable eq_refl eq_refl)
    as [Hnil _].
  exact (Hnil eq_refl).
Defined.

(** Switching read-only off on the deployment stops its scheduler. *)
Lemma PutStorageReadOnly_disable_witness :
  exists h' w',
    management.PutStorageReadOnly (json := encoding_json.json) (h_wired s_running)
      disable_request (w_read_only 10) =
      Val (h', {| management.status := management.StatusOK;
                  management.body := management.HReadOnly false |}) w' /\
    config.IsReadOnlyStorage (load 0%nat w') = false /\
    closings (new_events (w_read_only 10) w') = [0%nat].
Proof.
  destruct (PutStorageReadOnly_disable (json := encoding_json.json) (h_wired s_running)
              disable_request 0%nat (w_read_only 10) eq_refl eq_refl)
    as (h' & w' & Hput & Hro & _ & _ & _ & Hsched).
  { intros s0 _ _. apply not_elem_of_empty. }
  destruct (Hsched s_running eq_refl) as (s' & _ & _ & Hclose & _).
  exists h', w'. split; [exact Hput |]. split; [exact Hro | exact Hclose].
Defined.


(** Thirty minutes on the deployment: nothing is restarted and the next
    round arms a timer of thirty minutes. *)
Lemma PutStorageSyncInterval_reaches_the_running_loop_witness :
  exists h' s' w',
    management.PutStorageSyncInterval (json := encoding_json.json) (platform := amd64)
      (h_wired s_running) (interval_request 30) (w_read_only 10) =
      Val (h', interval_accepted 30) w' /\
    management.scheduler h' = Some s' /\
    launches (new_events (w_read_only 10) w') = [] /\
    In (NewTimer (30 * Minute))
       (new_events w' (world_of (store.run_iteration s' TimerFired w'))).
Proof.
  destruct (PutStorageSyncInterval_reaches_the_running_loop
              (json := encoding_json.json) (platform := amd64)
              (h_wired s_running) s_running ts0 (interval_request 30) 0%nat 30
              TimerFired (w_read_only 10) eq_refl eq_refl eq_refl eq_refl)
    as (h' & s' & w' & Hput & Hs' & _ & Hlaunch & _ & Htimer).
  - apply not_elem_of_empty.
  - reflexivity.
  - vm_compute. reflexivity.
  - vm_compute. split; discriminate.
  - exists h', s', w'. repeat split; assumption.
Defined.

(** Thirty minutes, then the GET. *)
Lemma GET_answers_what_the_accepted_PUT_answered_witness :
  exists h' w',
    management.PutStorageSyncInterval (json := encoding_json.json) (platform := amd64)
      h_unwired (interval_request 30) w_writable = Val (h', interval_accepted 30) w' /\
    management.GetStorageSyncInterval h' w' = Val (interval_accepted 30) w'.
Proof.
  destruct (management.PutStorageSyncInterval (json := encoding_json.json)
              (platform := amd64) h_unwired (interval_request 30) w_writable)
    as [[h' r] w' | msg w'] eqn:Hput; [| vm_compute in Hput; discriminate Hput].
  assert (Hr : r = interval_accepted 30)
    by (vm_compute in Hput; injection Hput as _ <- _; reflexivity).
  subst r. exists h', w'. split; [reflexivity |].
  destruct (GET_answers_what_the_accepted_PUT_answered (json := encoding_json.json)
              (platform := amd64) h_unwired h' (interval_request 30)
              (interval_accepted 30) w_writable w') as [Hconfigured _].
  destruct (Hconfigured 0%nat) as [_ Hget];
    [reflexivity | intros s Hs; discriminate Hs | reflexivity | exact (Hget Hput)].
Defined.

(** Thirty minutes, then a restart. *)
Lemma accepted_PUT_survives_a_restart_witness :
  exists h' w',
    management.PutStorageSyncInterval (json := encoding_json.json) (platform := amd64)
      h_unwired (interval_request 30) w_writable = Val (h', interval_accepted 30) w' /\
    config.SyncIntervalMinutes
      (fst (config.LoadReadOnlyStorageConfig (json := encoding_json.json) zero_config
              management.side_file (fs w'))) = 30.
Proof.
  destruct (management.PutStorageSyncInterval (json := encoding_json.json)
              (platform := amd64) h_unwired (interval_request 30) w_writable)
    as [[h' r] w' | msg w'] eqn:Hput; [| vm_compute in Hput; discriminate Hput].
  assert (Hr : r = interval_accepted 30)
    by (vm_compute in Hput; injection Hput as _ <- _; reflexivity).
  assert (Hload : load 0%nat w' = config_with false 30)
    by (vm_compute in Hput; injection Hput as _ _ <-; vm_compute; reflexivity).
  subst r. exists h', w'. split; [reflexivity |].
  destruct (accepted_PUT_survives_a_restart (json := encoding_json.json)
              (platform := amd64) h_unwired h' (interval_request 30) 0%nat
              (interval_accepted 30) w_writable w' zero_config)
    as (_ & _ & Hint).
  - reflexivity.
  - intros s Hs. discriminate Hs.
  - vm_compute. repeat split; try (intros H; discriminate H). eexists. reflexivity.
  - reflexivity.
  - right. exact Hput.
  - rewrite Hload. vm_compute. reflexivity.
  - rewrite Hint; rewrite Hload; [reflexivity | vm_compute; reflexivity].
Defined.
